(** * eng-kz: a shallow embedding of the learning-session logic

    The development follows the TypeScript sources:
    - [types.ts]            -> [Module Types]
    - [App.tsx]             -> [Module App]
    - [geminiService.ts]    -> [Module Service]
    - [TopicView.tsx]       -> [Module TopicView]
    - [ExamView.tsx]        -> [Module ExamView]
    - [Dashboard.tsx]       -> [Module Dashboard]

    React function components are modelled by explicit state passing.  A
    handler created during a render reads the values captured by that render
    (its closure) and writes to the store that is current when it runs; every
    handler therefore takes the captured values and the current state as
    separate arguments.  [setX v] overwrites the field, [setX (prev => ...)]
    is applied to the current field. *)

From Stdlib Require Import String Ascii ZArith Lia Bool.
From stdpp Require Import base option list gmap strings fin_maps.

Local Open Scope string_scope.

(* ===================================================================== *)
(** ** types.ts *)
(* ===================================================================== *)

Module Types.

Inductive Level := A1 | A2 | B1 | B2.

Inductive ContentSectionType := lesson | practice.

#[export] Instance Level_eq_dec : EqDecision Level.
Proof. solve_decision. Defined.

#[export] Instance ContentSectionType_eq_dec : EqDecision ContentSectionType.
Proof. solve_decision. Defined.

Record TopicProgress := mkTopicProgress {
  completedVocabulary : list string;
  completedSections : list ContentSectionType
}.

Record ExamResult := mkExamResult {
  date : string;
  score : nat;
  total : nat
}.

(** [avatar?] and [examHistory?] are optional fields. *)
Record User := mkUser {
  name : string;
  level : Level;
  avatar : option string;
  progress : gmap string TopicProgress;
  examHistory : option (list ExamResult)
}.

Record Topic := mkTopic {
  id : string;
  title : string;
  emoji : string
}.

Record QuizQuestion := mkQuizQuestion {
  question : string;
  options : list string;
  correctAnswer : string;
  explanation : option string
}.

Record VocabularyItem := mkVocabularyItem {
  target : string;
  native : string;
  pronunciation : option string
}.

Record TaskItem := mkTaskItem {
  instruction : string;
  prompt : string;
  suggestedAnswer : string
}.

Record TextItem := mkTextItem {
  text_title : string;
  content : string
}.

Record LessonContent := mkLessonContent {
  lesson_explanation : string * string;
  examples : list (string * string);
  warnings : list (string * string);
  vocabulary : list VocabularyItem
}.

Record ComprehensivePractice := mkComprehensivePractice {
  readingText : TextItem;
  comprehensionQuiz : list QuizQuestion;
  followUpTasks : list TaskItem
}.

(** [Array.prototype.includes] on an array of strings or of section tags. *)
Definition includes {A} `{EqDecision A} (l : list A) (x : A) : bool :=
  bool_decide (x ∈ l).

(** [Array.prototype.filter]. *)
Definition js_filter {A} (p : A → bool) (l : list A) : list A :=
  List.filter p l.

End Types.

Import Types.

(* ===================================================================== *)
(** ** App.tsx *)
(* ===================================================================== *)

Module App.

Inductive View := welcome | dashboard | topic | account | exam.

(** One entry of the object stored under ['english-learner-accounts']. *)
Record Account := mkAccount {
  password : string;
  data : User
}.

(** [localStorage]: the parsed accounts object (an absent key reads as
    [{}]) and whether the browser refuses writes, in which case [setItem]
    throws. *)
Record LocalStorage := mkLocalStorage {
  accounts : gmap string Account;
  quotaExceeded : bool
}.

Record State := mkState {
  user : option User;
  currentView : View;
  selectedTopic : option Topic;
  localStorage : LocalStorage
}.

Definition setUser (u : option User) (st : State) : State :=
  {| user := u; currentView := currentView st;
     selectedTopic := selectedTopic st; localStorage := localStorage st |}.

Definition setLocalStorage (ls : LocalStorage) (st : State) : State :=
  {| user := user st; currentView := currentView st;
     selectedTopic := selectedTopic st; localStorage := ls |}.

(** [persistUserUpdate]: the whole body sits in a [try]; a throwing
    [setItem] leaves the stored object as it was. *)
Definition persistUserUpdate (updatedUser : User) (ls : LocalStorage) : LocalStorage :=
  match accounts ls !! name updatedUser with
  | Some acc =>
      if quotaExceeded ls then ls
      else {| accounts := <[name updatedUser :=
                              {| password := password acc; data := updatedUser |}]> (accounts ls);
              quotaExceeded := quotaExceeded ls |}
  | None => ls
  end.

Definition withLevel (u : User) (newLevel : Level) : User :=
  {| name := name u; level := newLevel; avatar := avatar u;
     progress := progress u; examHistory := examHistory u |}.

Definition withProgress (u : User) (p : gmap string TopicProgress) : User :=
  {| name := name u; level := level u; avatar := avatar u;
     progress := p; examHistory := examHistory u |}.

Definition withExamHistory (u : User) (h : list ExamResult) : User :=
  {| name := name u; level := level u; avatar := avatar u;
     progress := progress u; examHistory := Some h |}.

(** In the three handlers below [cu] is the [user] captured by the render
    that created the handler. *)
Definition handleLevelChange (cu : option User) (newLevel : Level) (st : State) : State :=
  match cu with
  | Some u =>
      let updatedUser := withLevel u newLevel in
      setLocalStorage (persistUserUpdate updatedUser (localStorage st))
        (setUser (Some updatedUser) st)
  | None => st
  end.

Definition handleProgressUpdate (cu : option User) (topicId : string)
    (updatedProgress : TopicProgress) (st : State) : State :=
  match cu with
  | Some u =>
      let updatedUser := withProgress u (<[topicId := updatedProgress]> (progress u)) in
      setLocalStorage (persistUserUpdate updatedUser (localStorage st))
        (setUser (Some updatedUser) st)
  | None => st
  end.

(** [now] is the value of [new Date().toISOString()] at the call. *)
Definition handleSaveExamResult (cu : option User) (now : string)
    (result_score result_total : nat) (st : State) : State :=
  match cu with
  | Some u =>
      let newResult := {| date := now; score := result_score; total := result_total |} in
      let updatedUser := withExamHistory u (default [] (examHistory u) ++ [newResult]) in
      setLocalStorage (persistUserUpdate updatedUser (localStorage st))
        (setUser (Some updatedUser) st)
  | None => st
  end.

Definition setCurrentView (v : View) (st : State) : State :=
  {| user := user st; currentView := v;
     selectedTopic := selectedTopic st; localStorage := localStorage st |}.

Section Credentials.
(** [btoa] and [atob]. *)
Variables btoa atob : string → string.

(** [accounts[name]] on the object that [JSON.parse] returns also finds
    what every object inherits from [Object.prototype]: for these names it
    is truthy although no account is stored under them. *)
Definition inherited (key : string) : bool :=
  bool_decide (key ∈ [ "__proto__"; "constructor"; "hasOwnProperty"; "isPrototypeOf";
                       "propertyIsEnumerable"; "toLocaleString"; "toString"; "valueOf";
                       "__defineGetter__"; "__defineSetter__";
                       "__lookupGetter__"; "__lookupSetter__" ]).

(** [handleSignUp] and [handleLogin] reject with an error message ([inl])
    or go to the dashboard.  In [handleSignUp] nothing catches a throwing
    [setItem], so [setUser] is not reached then.  In [handleLogin] an
    inherited member passes the test for an account and has no [password],
    and [atob] throws on it. *)
Definition handleSignUp (newName : string) (newLevel : Level) (newAvatar : option string)
    (pass : string) (st : State) : string + State :=
  match accounts (localStorage st) !! newName with
  | Some _ => inl "Username already exists. Please choose another one or login."
  | None =>
      if inherited newName
      then inl "Username already exists. Please choose another one or login."
      else
      let userWithProgress :=
        {| name := newName; level := newLevel; avatar := newAvatar;
           progress := ∅; examHistory := Some [] |} in
      if quotaExceeded (localStorage st) then inl "QuotaExceededError"
      else
        inr (setCurrentView dashboard
               (setUser (Some userWithProgress)
                  (setLocalStorage
                     {| accounts := <[newName := {| password := btoa pass;
                                                    data := userWithProgress |}]>
                                      (accounts (localStorage st));
                        quotaExceeded := quotaExceeded (localStorage st) |} st)))
  end.

Definition handleLogin (loginName pass : string) (st : State) : string + State :=
  match accounts (localStorage st) !! loginName with
  | None =>
      if inherited loginName then inl "InvalidCharacterError"
      else inl "User not found. Please check your username or sign up."
  | Some stored =>
      if String.eqb (atob (password stored)) pass
      then inr (setCurrentView dashboard (setUser (Some (data stored)) st))
      else inl "Incorrect password."
  end.
End Credentials.

(** Every stored record sits under the name of its user. *)
Definition wellKeyed (ls : LocalStorage) : Prop :=
  ∀ n acc, accounts ls !! n = Some acc → name (data acc) = n.

(** The exam history as the views read it: [user.examHistory || []]. *)
Definition historyOf (st : State) : list ExamResult :=
  match user st with
  | Some u => default [] (examHistory u)
  | None => []
  end.

(** A logged-in user whose stored account record mirrors the in-memory
    object, which is what [handleLogin] and [handleSignUp] establish. *)
Definition loggedIn (st : State) (u : User) (acc : Account) : Prop :=
  user st = Some u ∧ accounts (localStorage st) !! name u = Some acc ∧ data acc = u.

End App.

(* ===================================================================== *)
(** ** services/geminiService.ts *)
(* ===================================================================== *)

Module Service.

Inductive Result (A : Type) :=
| Ok (a : A)
| Err (message : string).
Arguments Ok {A} a.
Arguments Err {A} message.

(** [JSON.stringify] and [JSON.parse] at a content type; [parse] gives
    [None] where [JSON.parse] throws. *)
Class JSON (A : Type) := {
  stringify : A → string;
  parse : string → option A
}.

(** What the browser guarantees for values that came out of [JSON.parse]:
    they survive a round trip, and their text is never the empty string. *)
Class JSONLaws (A : Type) `{JSON A} := {
  parse_stringify : ∀ a : A, parse (stringify a) = Some a;
  stringify_nonempty : ∀ a : A, stringify a ≠ EmptyString
}.

(** [sessionStorage]; [setItem] throws when the browser refuses the write. *)
Record SessionStorage := mkSessionStorage {
  items : gmap string string;
  ss_quotaExceeded : bool
}.

Definition getItem (key : string) (ss : SessionStorage) : option string :=
  items ss !! key.

Definition setItem (key value : string) (ss : SessionStorage) : option SessionStorage :=
  if ss_quotaExceeded ss then None
  else Some {| items := <[key := value]> (items ss);
               ss_quotaExceeded := ss_quotaExceeded ss |}.

(** The service as its callers see it: the session cache and the number of
    [ai.models.generateContent] requests issued so far. *)
Record World := mkWorld {
  sessionStorage : SessionStorage;
  generatorCalls : nat
}.

Definition levelName (l : Level) : string :=
  match l with A1 => "A1" | A2 => "A2" | B1 => "B1" | B2 => "B2" end.

Definition lessonCacheKey (level : Level) (topic : Topic) : string :=
  "lesson-" ++ levelName level ++ "-" ++ id topic.

Definition practiceCacheKey (level : Level) (topic : Topic) : string :=
  "comprehensive-practice-" ++ levelName level ++ "-" ++ id topic.

(** [if (cachedData)]: [null] and the empty string are falsy. *)
Definition truthy (s : option string) : bool :=
  match s with
  | Some s => negb (String.eqb s EmptyString)
  | None => false
  end.

Section Cached.
Context {Lesson Practice : Type} `{JSON Lesson} `{JSON Practice}.

(** The first [try] block of both generators: a hit returns the parsed
    entry; a miss, or an entry that does not parse, falls through. *)
Definition cacheLookup {A} `{JSON A} (cacheKey : string) (w : World) : option A :=
  let cachedData := getItem cacheKey (sessionStorage w) in
  if truthy cachedData then cachedData ≫= parse else None.

(** The inner [try] around [sessionStorage.setItem]. *)
Definition cacheStore {A} `{JSON A} (cacheKey : string) (content : A) (w : World) : World :=
  match setItem cacheKey (stringify content) (sessionStorage w) with
  | Some ss => {| sessionStorage := ss; generatorCalls := generatorCalls w |}
  | None => w
  end.

Definition countCall (w : World) : World :=
  {| sessionStorage := sessionStorage w; generatorCalls := S (generatorCalls w) |}.

(** [response] is what [JSON.parse(response.text.trim())] yields if the
    request is issued: [None] when the request or the parsing throws.  This
    is the call taken whole, with nothing else running between its cache
    read and its cache write; [ServiceAsync] below splits it at the
    [await]. *)
Definition generateLessonContent (level : Level) (topic : Topic)
    (response : option Lesson) (w : World) : Result Lesson * World :=
  let cacheKey := lessonCacheKey level topic in
  match cacheLookup cacheKey w with
  | Some cached => (Ok cached, w)
  | None =>
      let w := countCall w in
      match response with
      | Some content => (Ok content, cacheStore cacheKey content w)
      | None => (Err "Failed to generate the lesson. Please try again.", w)
      end
  end.

Definition generateComprehensivePractice (level : Level) (topic : Topic)
    (response : option Practice) (w : World) : Result Practice * World :=
  let cacheKey := practiceCacheKey level topic in
  match cacheLookup cacheKey w with
  | Some cached => (Ok cached, w)
  | None =>
      let w := countCall w in
      match response with
      | Some parsedContent => (Ok parsedContent, cacheStore cacheKey parsedContent w)
      | None => (Err "Failed to generate practice session. Please try again.", w)
      end
  end.

(** [generateExam] has no cache; it hands back [parsedContent.quiz] as the
    generator sent it. *)
Definition generateExam (response : option (list QuizQuestion)) (w : World)
    : Result (list QuizQuestion) * World :=
  let w := countCall w in
  match response with
  | Some quiz => (Ok quiz, w)
  | None => (Err "Failed to generate the exam. Please try again.", w)
  end.

(** [checkUserAnswer]: one request for the verdict ([verdict] is its
    parsed [isCorrect], [None] when it throws) and, after it, one request
    for the feedback text that replaces [result.feedback]. *)
Definition checkUserAnswer (verdict : option bool) (feedback : option string)
    (w : World) : Result (string * bool) * World :=
  let w := countCall w in
  match verdict with
  | Some isCorrect =>
      let w := countCall w in
      match feedback with
      | Some text => (Ok (text, isCorrect), w)
      | None => (Err "Failed to get feedback. Please try again.", w)
      end
  | None => (Err "Failed to get feedback. Please try again.", w)
  end.

(** The calls a session makes to the service, and the world after one of
    them. *)
Inductive Request :=
| LessonRequest (level : Level) (topic : Topic) (response : option Lesson)
| PracticeRequest (level : Level) (topic : Topic) (response : option Practice)
| ExamRequest (response : option (list QuizQuestion))
| CheckRequest (verdict : option bool) (feedback : option string).

Definition perform (w : World) (q : Request) : World :=
  match q with
  | LessonRequest level topic response =>
      (generateLessonContent level topic response w).2
  | PracticeRequest level topic response =>
      (generateComprehensivePractice level topic response w).2
  | ExamRequest response => (generateExam response w).2
  | CheckRequest verdict feedback => (checkUserAnswer verdict feedback w).2
  end.
End Cached.

(** The JSON text of the two boolean values, a content type small enough to
    run the generators on. *)
#[export] Instance JSON_bool : JSON bool := {|
  stringify := λ b : bool, if b then "true" else "false";
  parse := λ s : string,
    if String.eqb s "true" then Some true
    else if String.eqb s "false" then Some false else None
|}.

End Service.

(* ===================================================================== *)
(** ** components/TopicView.tsx *)
(* ===================================================================== *)

Module TopicView.
Import Service.

Inductive Tab := LessonTab | PracticeTab.

(** One entry of [taskFeedback]; [isCorrect] is absent while loading and
    after a failed evaluation. *)
Record Feedback := mkFeedback {
  text : string;
  loading : bool;
  isCorrect : option bool
}.

Record State := mkState {
  activeTab : Tab;
  lessonContent : option LessonContent;
  practiceContent : option ComprehensivePractice;
  isLoading_lesson : bool;
  isLoading_practice : bool;
  error : option string;
  userAnswers : gmap nat string;
  taskFeedback : gmap nat Feedback
}.

(** What a render captures for the handlers it creates: the component state
    of that render and the [user] of the [App] render that passed the props
    [userProgress] and [onUpdateProgress]. *)
Record Render := mkRender {
  r_view : State;
  r_user : option User
}.

(** The component, the [App] state behind its props, and the requests to
    the service that have not settled yet, each with the render whose
    continuation waits for it.  [checkCalls] counts the invocations of
    [checkUserAnswer]. *)
Record Store := mkStore {
  view : State;
  app : App.State;
  lessonPending : option Render;
  practicePending : list Render;
  checkPending : list (nat * Render);
  checkCalls : nat
}.

Definition renderOf (s : Store) : Render :=
  {| r_view := view s; r_user := App.user (app s) |}.

Definition setView (f : State → State) (s : Store) : Store :=
  {| view := f (view s); app := app s; lessonPending := lessonPending s;
     practicePending := practicePending s; checkPending := checkPending s;
     checkCalls := checkCalls s |}.

Definition setApp (f : App.State → App.State) (s : Store) : Store :=
  {| view := view s; app := f (app s); lessonPending := lessonPending s;
     practicePending := practicePending s; checkPending := checkPending s;
     checkCalls := checkCalls s |}.

Definition emptyProgress : TopicProgress :=
  {| completedVocabulary := []; completedSections := [] |}.

(** [Partial<TopicProgress>]. *)
Record Updates := mkUpdates {
  u_completedVocabulary : option (list string);
  u_completedSections : option (list ContentSectionType)
}.

(** [{ ...progress, ...updates }]. *)
Definition mergeProgress (progress : TopicProgress) (updates : Updates) : TopicProgress :=
  {| completedVocabulary := default (completedVocabulary progress) (u_completedVocabulary updates);
     completedSections := default (completedSections progress) (u_completedSections updates) |}.

(** Text is held as the bytes of its UTF-8 encoding.  [characters] reads
    the code points back, each with the bytes it came from; a byte that
    starts no well-formed sequence is read as the code point of its own
    value. *)
Definition byteOf (c : ascii) : N := N_of_ascii c.

Definition isContinuation (c : ascii) : bool :=
  (128 <=? byteOf c)%N && (byteOf c <=? 191)%N.

Definition payload (c : ascii) : N := N.land (byteOf c) 63.

Definition twoBytes (b0 b1 : ascii) : option N :=
  if (194 <=? byteOf b0)%N && (byteOf b0 <=? 223)%N && isContinuation b1
  then Some (N.lor (N.shiftl (N.land (byteOf b0) 31) 6) (payload b1))
  else None.

Definition threeBytes (b0 b1 b2 : ascii) : option N :=
  if (224 <=? byteOf b0)%N && (byteOf b0 <=? 239)%N
     && isContinuation b1 && isContinuation b2
  then
    let cp := N.lor (N.shiftl (N.land (byteOf b0) 15) 12)
                (N.lor (N.shiftl (payload b1) 6) (payload b2)) in
    if (2048 <=? cp)%N then Some cp else None
  else None.

Definition fourBytes (b0 b1 b2 b3 : ascii) : option N :=
  if (240 <=? byteOf b0)%N && (byteOf b0 <=? 244)%N
     && isContinuation b1 && isContinuation b2 && isContinuation b3
  then
    let cp := N.lor (N.shiftl (N.land (byteOf b0) 7) 18)
                (N.lor (N.shiftl (payload b1) 12)
                   (N.lor (N.shiftl (payload b2) 6) (payload b3))) in
    if (65536 <=? cp)%N then Some cp else None
  else None.

Fixpoint characters (l : list ascii) : list (N * list ascii) :=
  match l with
  | [] => []
  | b0 :: r0 =>
      let single := (byteOf b0, [b0]) :: characters r0 in
      match r0 with
      | [] => single
      | b1 :: r1 =>
          match twoBytes b0 b1 with
          | Some cp => (cp, [b0; b1]) :: characters r1
          | None =>
              match r1 with
              | [] => single
              | b2 :: r2 =>
                  match threeBytes b0 b1 b2 with
                  | Some cp => (cp, [b0; b1; b2]) :: characters r2
                  | None =>
                      match r2 with
                      | [] => single
                      | b3 :: r3 =>
                          match fourBytes b0 b1 b2 b3 with
                          | Some cp => (cp, [b0; b1; b2; b3]) :: characters r3
                          | None => single
                          end
                      end
                  end
              end
          end
      end
  end.

(** What [String.prototype.trim] strips: the WhiteSpace and LineTerminator
    code points of ECMAScript.  TAB, LF, VT, FF, CR; SP; NBSP; U+1680;
    U+2000 to U+200A; LS and PS; U+202F; U+205F; U+3000; U+FEFF. *)
Definition isWhiteSpace (cp : N) : bool :=
  ((9 <=? cp)%N && (cp <=? 13)%N) || (cp =? 32)%N || (cp =? 160)%N
  || (cp =? 5760)%N || ((8192 <=? cp)%N && (cp <=? 8202)%N)
  || (cp =? 8232)%N || (cp =? 8233)%N || (cp =? 8239)%N || (cp =? 8287)%N
  || (cp =? 12288)%N || (cp =? 65279)%N.

Fixpoint trimStart (l : list (N * list ascii)) : list (N * list ascii) :=
  match l with
  | c :: rest => if isWhiteSpace c.1 then trimStart rest else l
  | [] => []
  end.

(** [String.prototype.trim]: white space is dropped at both ends. *)
Definition trim (s : string) : string :=
  string_of_list_ascii
    (concat (snd <$> reverse (trimStart (reverse (trimStart
       (characters (list_ascii_of_string s))))))).

(** [!userAnswer.trim()]. *)
Definition blank (s : string) : bool := String.eqb (trim s) EmptyString.

Section Session.
(** The prop [topic], fixed while the view is mounted (as is [level], which
    only the requests to the service read). *)
Variable topic : Topic.

(** The prop [userProgress={user.progress[selectedTopic.id]}]. *)
Definition userProgress (u : option User) : option TopicProgress :=
  u ≫= λ u, progress u !! id topic.

(** [const progress = userProgress || {...}] of a render. *)
Definition progressOf (c : Render) : TopicProgress :=
  default emptyProgress (userProgress (r_user c)).

(** The sections a render with this [user] sees as completed. *)
Definition sectionsSeen (u : option User) : list ContentSectionType :=
  completedSections (default emptyProgress (userProgress u)).

Definition handleProgressUpdate (c : Render) (updates : Updates) (a : App.State) : App.State :=
  let newProgress := mergeProgress (progressOf c) updates in
  App.handleProgressUpdate (r_user c) (id topic) newProgress a.

(** The [newCompleted] array of [handleVocabToggle]. *)
Definition toggled (completed : list string) (targetWord : string) : list string :=
  if includes completed targetWord
  then js_filter (λ word, negb (String.eqb word targetWord)) completed
  else (completed ++ [targetWord])%list.

Definition handleVocabToggle (c : Render) (targetWord : string) (a : App.State) : App.State :=
  let completed := completedVocabulary (progressOf c) in
  let newCompleted := toggled completed targetWord in
  handleProgressUpdate c
    {| u_completedVocabulary := Some newCompleted; u_completedSections := None |} a.

(** The part of both fetch continuations that marks a section. *)
Definition markComplete (c : Render) (section : ContentSectionType) (a : App.State) : App.State :=
  if negb (includes (completedSections (progressOf c)) section)
  then handleProgressUpdate c
         {| u_completedVocabulary := None;
            u_completedSections := Some (completedSections (progressOf c) ++ [section])%list |} a
  else a.

(** The [fetchLesson] effect up to its [await]. *)
Definition fetchLessonStart (st : State) : State :=
  {| activeTab := activeTab st; lessonContent := lessonContent st;
     practiceContent := practiceContent st;
     isLoading_lesson := true; isLoading_practice := false;
     error := None;
     userAnswers := userAnswers st; taskFeedback := taskFeedback st |}.

(** ... and after it, with [try], [catch] and [finally]. *)
Definition fetchLessonSettled (c : Render) (r : Result LessonContent) (s : Store) : Store :=
  let s :=
    match r with
    | Ok generatedContent =>
        setApp (markComplete c lesson)
          (setView (λ st,
             {| activeTab := activeTab st; lessonContent := Some generatedContent;
                practiceContent := practiceContent st;
                isLoading_lesson := isLoading_lesson st;
                isLoading_practice := isLoading_practice st;
                error := error st;
                userAnswers := userAnswers st; taskFeedback := taskFeedback st |}) s)
    | Err message =>
        setView (λ st,
          {| activeTab := activeTab st; lessonContent := lessonContent st;
             practiceContent := practiceContent st;
             isLoading_lesson := isLoading_lesson st;
             isLoading_practice := isLoading_practice st;
             error := Some message;
             userAnswers := userAnswers st; taskFeedback := taskFeedback st |}) s
    end in
  setView (λ st,
    {| activeTab := activeTab st; lessonContent := lessonContent st;
       practiceContent := practiceContent st;
       isLoading_lesson := false;
       isLoading_practice := isLoading_practice st;
       error := error st;
       userAnswers := userAnswers st; taskFeedback := taskFeedback st |}) s.

(** [handleGeneratePractice] up to its [await]: the guard, the resets,
    and the request, recorded with the render that issued it. *)
Definition handleGeneratePractice (c : Render) (s : Store) : Store :=
  if isLoading_practice (r_view c) then s
  else
    let s := setView (λ st,
      {| activeTab := activeTab st; lessonContent := lessonContent st;
         practiceContent := None;
         isLoading_lesson := isLoading_lesson st;
         isLoading_practice := true;
         error := None;
         userAnswers := ∅; taskFeedback := ∅ |}) s in
    {| view := view s; app := app s; lessonPending := lessonPending s;
       practicePending := (practicePending s ++ [c])%list;
       checkPending := checkPending s; checkCalls := checkCalls s |}.

(** ... and after it. *)
Definition practiceSettled (c : Render) (r : Result ComprehensivePractice) (s : Store) : Store :=
  let s :=
    match r with
    | Ok generatedContent =>
        setApp (markComplete c practice)
          (setView (λ st,
             {| activeTab := activeTab st; lessonContent := lessonContent st;
                practiceContent := Some generatedContent;
                isLoading_lesson := isLoading_lesson st;
                isLoading_practice := isLoading_practice st;
                error := error st;
                userAnswers := userAnswers st; taskFeedback := taskFeedback st |}) s)
    | Err message =>
        setView (λ st,
          {| activeTab := activeTab st; lessonContent := lessonContent st;
             practiceContent := practiceContent st;
             isLoading_lesson := isLoading_lesson st;
             isLoading_practice := isLoading_practice st;
             error := Some message;
             userAnswers := userAnswers st; taskFeedback := taskFeedback st |}) s
    end in
  setView (λ st,
    {| activeTab := activeTab st; lessonContent := lessonContent st;
       practiceContent := practiceContent st;
       isLoading_lesson := isLoading_lesson st;
       isLoading_practice := false;
       error := error st;
       userAnswers := userAnswers st; taskFeedback := taskFeedback st |}) s.

Definition setTaskFeedback (f : gmap nat Feedback → gmap nat Feedback) (st : State) : State :=
  {| activeTab := activeTab st; lessonContent := lessonContent st;
     practiceContent := practiceContent st;
     isLoading_lesson := isLoading_lesson st;
     isLoading_practice := isLoading_practice st;
     error := error st;
     userAnswers := userAnswers st; taskFeedback := f (taskFeedback st) |}.

Definition setUserAnswers (f : gmap nat string → gmap nat string) (st : State) : State :=
  {| activeTab := activeTab st; lessonContent := lessonContent st;
     practiceContent := practiceContent st;
     isLoading_lesson := isLoading_lesson st;
     isLoading_practice := isLoading_practice st;
     error := error st;
     userAnswers := f (userAnswers st); taskFeedback := taskFeedback st |}.

Definition setActiveTab (t : Tab) (st : State) : State :=
  {| activeTab := t; lessonContent := lessonContent st;
     practiceContent := practiceContent st;
     isLoading_lesson := isLoading_lesson st;
     isLoading_practice := isLoading_practice st;
     error := error st;
     userAnswers := userAnswers st; taskFeedback := taskFeedback st |}.

(** [handleCheckAnswer] up to its [await]: the only guard is the empty or
    blank answer. *)
Definition handleCheckAnswer (c : Render) (taskIndex : nat) (task : TaskItem) (s : Store) : Store :=
  match userAnswers (r_view c) !! taskIndex with
  | None => s
  | Some userAnswer =>
      if String.eqb userAnswer EmptyString || blank userAnswer then s
      else
        let s := setView (setTaskFeedback
                   (λ prev, <[taskIndex := {| text := EmptyString; loading := true; isCorrect := None |}]> prev)) s in
        {| view := view s; app := app s; lessonPending := lessonPending s;
           practicePending := practicePending s;
           checkPending := (checkPending s ++ [(taskIndex, c)])%list;
           checkCalls := S (checkCalls s) |}
  end.

(** ... and after it. *)
Definition checkSettled (taskIndex : nat) (r : Result (string * bool)) (s : Store) : Store :=
  match r with
  | Ok (feedback, isCorrect) =>
      setView (setTaskFeedback
        (λ prev, <[taskIndex := {| text := feedback; loading := false; isCorrect := Some isCorrect |}]> prev)) s
  | Err errorMessage =>
      setView (setTaskFeedback
        (λ prev, <[taskIndex := {| text := errorMessage; loading := false; isCorrect := None |}]> prev)) s
  end.

(** The values computed per task in [renderPracticeContent]. *)
Definition isChecked (st : State) (index : nat) : bool :=
  match taskFeedback st !! index with
  | Some feedback => negb (loading feedback)
  | None => false
  end.

Definition feedbackLoading (st : State) (index : nat) : bool :=
  match taskFeedback st !! index with
  | Some feedback => loading feedback
  | None => false
  end.

(** The [disabled] attribute of the check button:
    [!userAnswer.trim() || feedback?.loading || isChecked]. *)
Definition checkDisabled (st : State) (index : nat) : bool :=
  let userAnswer := default EmptyString (userAnswers st !! index) in
  blank userAnswer || feedbackLoading st index || isChecked st index.

(** The task list is on screen. *)
Definition tasksShown (st : State) : option (list TaskItem) :=
  match activeTab st with
  | LessonTab => None
  | PracticeTab =>
      if isLoading_practice st then None
      else if truthy (error st) then None
      else followUpTasks <$> practiceContent st
  end.

(** One of the two buttons wired to [handleGeneratePractice] is on screen
    and not disabled. *)
Definition generateShown (st : State) : bool :=
  match activeTab st with
  | LessonTab => false
  | PracticeTab =>
      negb (isLoading_practice st) &&
      (bool_decide (is_Some (practiceContent st)) || negb (truthy (error st)))
  end.

(** The vocabulary list is on screen. *)
Definition vocabularyShown (st : State) : option (list VocabularyItem) :=
  match activeTab st with
  | PracticeTab => None
  | LessonTab =>
      if isLoading_lesson st then None
      else vocabulary <$> lessonContent st
  end.

Inductive Event :=
| LessonSettled (r : Result LessonContent)
| PracticeSettled (r : Result ComprehensivePractice)
| CheckSettled (k : nat) (r : Result (string * bool))
| ClickTab (t : Tab)
| ClickGenerate
| ClickVocabulary (targetWord : string)
| TypeAnswer (index : nat) (value : string)
| ClickCheckAnswer (index : nat).

(** A click on the check button of task [index] of the committed render. *)
Definition clickCheckAnswer (index : nat) (s : Store) : Store :=
  match tasksShown (view s) ≫= (λ tasks, tasks !! index) with
  | Some task =>
      if checkDisabled (view s) index then s
      else handleCheckAnswer (renderOf s) index task s
  | None => s
  end.

Definition step (e : Event) (s : Store) : Store :=
  match e with
  | LessonSettled r =>
      match lessonPending s with
      | Some c =>
          fetchLessonSettled c r
            {| view := view s; app := app s; lessonPending := None;
               practicePending := practicePending s;
               checkPending := checkPending s; checkCalls := checkCalls s |}
      | None => s
      end
  | PracticeSettled r =>
      match practicePending s with
      | c :: rest =>
          practiceSettled c r
            {| view := view s; app := app s; lessonPending := lessonPending s;
               practicePending := rest;
               checkPending := checkPending s; checkCalls := checkCalls s |}
      | [] => s
      end
  | CheckSettled k r =>
      match checkPending s !! k with
      | Some (taskIndex, _) =>
          checkSettled taskIndex r
            {| view := view s; app := app s; lessonPending := lessonPending s;
               practicePending := practicePending s;
               checkPending := delete k (checkPending s); checkCalls := checkCalls s |}
      | None => s
      end
  | ClickTab t => setView (setActiveTab t) s
  | ClickGenerate =>
      if generateShown (view s) then handleGeneratePractice (renderOf s) s else s
  | ClickVocabulary targetWord =>
      match vocabularyShown (view s) with
      | Some items =>
          if bool_decide (targetWord ∈ target <$> items)
          then setApp (handleVocabToggle (renderOf s) targetWord) s else s
      | None => s
      end
  | TypeAnswer index value =>
      match tasksShown (view s) ≫= (λ tasks, tasks !! index) with
      | Some _ =>
          if isChecked (view s) index then s
          else setView (setUserAnswers (λ prev, <[index := value]> prev)) s
      | None => s
      end
  | ClickCheckAnswer index => clickCheckAnswer index s
  end.

Fixpoint run (trace : list Event) (s : Store) : Store :=
  match trace with
  | [] => s
  | e :: rest => run rest (step e s)
  end.

(** Mounting the view: the initial [useState] values, and the lesson
    effect already at its [await]. *)
Definition initialState : State :=
  {| activeTab := LessonTab; lessonContent := None; practiceContent := None;
     isLoading_lesson := true; isLoading_practice := false; error := None;
     userAnswers := ∅; taskFeedback := ∅ |}.

Definition mount (a : App.State) : Store :=
  {| view := fetchLessonStart initialState; app := a;
     lessonPending := Some {| r_view := initialState; r_user := App.user a |};
     practicePending := []; checkPending := []; checkCalls := 0 |}.

(** The progress of the mounted topic as the views read it. *)
Definition currentProgress (s : Store) : TopicProgress := progressOf (renderOf s).

End Session.

(** At most one practice fetch is outstanding, and one is outstanding
    exactly when the practice flag is loading. *)
Definition SingleFlight (s : Store) : Prop :=
  (isLoading_practice (view s) = true ∧ ∃ c, practicePending s = [c]) ∨
  (isLoading_practice (view s) = false ∧ practicePending s = []).

(** How the renders waiting for a fetch relate to the current progress of
    the topic: a section the topic has now was already seen by the render
    whose fetch would mark it, and the render waiting for the lesson saw no
    section that a later render does not see. *)
Record Coherent (topic : Topic) (s : Store) : Prop := mkCoherent {
  coh_flight : SingleFlight s;
  coh_lesson : ∀ cl, lessonPending s = Some cl →
    sectionsSeen topic (r_user cl) ⊆ sectionsSeen topic (App.user (app s)) ∧
    (lesson ∈ sectionsSeen topic (App.user (app s)) →
     lesson ∈ sectionsSeen topic (r_user cl));
  coh_practice : ∀ c, c ∈ practicePending s →
    (practice ∈ sectionsSeen topic (App.user (app s)) →
     practice ∈ sectionsSeen topic (r_user c)) ∧
    (∀ cl, lessonPending s = Some cl →
       sectionsSeen topic (r_user cl) ⊆ sectionsSeen topic (r_user c) ∧
       (lesson ∈ sectionsSeen topic (r_user c) →
        lesson ∈ sectionsSeen topic (r_user cl)))
}.

End TopicView.

(* ===================================================================== *)
(** ** components/ExamView.tsx *)
(* ===================================================================== *)

Module ExamView.
Import Service.

(** 30 minutes in seconds. *)
Definition EXAM_DURATION : Z := 30 * 60.

(** One slot of the [answers] array.  [Null] is the initial fill; [Hole]
    and [Undefined] only arise from a write past the end of the array. *)
Inductive Slot :=
| Hole
| Undefined
| Null
| Str (s : string).

Record State := mkState {
  questions : option (list QuizQuestion);
  isLoading : bool;
  error : option string;
  examStarted : bool;
  examFinished : bool;
  timeLeft : Z;
  currentQuestionIndex : nat;
  answers : list Slot
}.

(** The [useState] initial values. *)
Definition initialState : State :=
  {| questions := None; isLoading := true; error := None;
     examStarted := false; examFinished := false;
     timeLeft := EXAM_DURATION; currentQuestionIndex := 0; answers := [] |}.

(** The component state together with the state of [App], which
    [onSaveResult] writes to. *)
Record Store := mkStore {
  view : State;
  app : App.State
}.

Definition setView (f : State → State) (s : Store) : Store :=
  {| view := f (view s); app := app s |}.

Definition setApp (f : App.State → App.State) (s : Store) : Store :=
  {| view := view s; app := f (app s) |}.

(** [new Array(n).fill(null)]. *)
Definition fillNull (n : nat) : list Slot := replicate n Null.

(** The [fetchExam] effect once [generateExam] has settled ([setIsLoading(true)]
    and [setError(null)] before the [await] restate the initial values). *)
Definition fetchExamSettled (r : Result (list QuizQuestion)) (st : State) : State :=
  match r with
  | Ok examQuestions =>
      {| questions := Some examQuestions; isLoading := false; error := error st;
         examStarted := examStarted st; examFinished := examFinished st;
         timeLeft := timeLeft st; currentQuestionIndex := currentQuestionIndex st;
         answers := fillNull (length examQuestions) |}
  | Err message =>
      {| questions := questions st; isLoading := false; error := Some message;
         examStarted := examStarted st; examFinished := examFinished st;
         timeLeft := timeLeft st; currentQuestionIndex := currentQuestionIndex st;
         answers := answers st |}
  end.

(** [answer === questions[index].correctAnswer]. *)
Definition slotIs (a : Slot) (s : string) : bool :=
  match a with
  | Str x => String.eqb x s
  | _ => false
  end.

(** The [reduce] of [calculateScore]: holes are skipped by [reduce]; at any
    other slot [questions[index]] must exist, otherwise reading its
    [correctAnswer] throws ([None]). *)
Fixpoint reduceScore (qs : list QuizQuestion) (index : nat) (ans : list Slot)
    (score : nat) : option nat :=
  match ans with
  | [] => Some score
  | Hole :: rest => reduceScore qs (S index) rest score
  | answer :: rest =>
      match qs !! index with
      | Some q =>
          reduceScore qs (S index) rest
            (if slotIs answer (correctAnswer q) then score + 1 else score)
      | None => None
      end
  end.

Definition calculateScore (st : State) : option nat :=
  match questions st with
  | None => Some 0
  | Some qs => reduceScore qs 0 (answers st) 0
  end.

(** The score in the words of the specification: the number of indices [i]
    of the answers array at which [answers[i]] equals
    [questions[i].correctAnswer]. *)
Definition correctAt (qs : list QuizQuestion) (ans : list Slot) (i : nat) : bool :=
  match ans !! i, qs !! i with
  | Some a, Some q => slotIs a (correctAnswer q)
  | _, _ => false
  end.

Definition countCorrect (qs : list QuizQuestion) (ans : list Slot) : nat :=
  length (List.filter (correctAt qs ans) (seq 0 (length ans))).

(** [[...answers]]: spreading turns holes into [undefined]. *)
Definition spread (l : list Slot) : list Slot :=
  (λ a, match a with Hole => Undefined | _ => a end) <$> l.

(** [arr[i] = v] on a JS array: in range it overwrites, past the end it
    extends the array, leaving holes in between. *)
Definition assign (i : nat) (v : Slot) (l : list Slot) : list Slot :=
  if decide (i < length l) then <[i := v]> l
  else l ++ replicate (i - length l) Hole ++ [v].

Definition setAnswers (a : list Slot) (st : State) : State :=
  {| questions := questions st; isLoading := isLoading st; error := error st;
     examStarted := examStarted st; examFinished := examFinished st;
     timeLeft := timeLeft st; currentQuestionIndex := currentQuestionIndex st;
     answers := a |}.

Definition setCurrentQuestionIndex (f : nat → nat) (st : State) : State :=
  {| questions := questions st; isLoading := isLoading st; error := error st;
     examStarted := examStarted st; examFinished := examFinished st;
     timeLeft := timeLeft st; currentQuestionIndex := f (currentQuestionIndex st);
     answers := answers st |}.

Definition setTimeLeft (f : Z → Z) (st : State) : State :=
  {| questions := questions st; isLoading := isLoading st; error := error st;
     examStarted := examStarted st; examFinished := examFinished st;
     timeLeft := f (timeLeft st); currentQuestionIndex := currentQuestionIndex st;
     answers := answers st |}.

Definition setExamStarted (b : bool) (st : State) : State :=
  {| questions := questions st; isLoading := isLoading st; error := error st;
     examStarted := b; examFinished := examFinished st;
     timeLeft := timeLeft st; currentQuestionIndex := currentQuestionIndex st;
     answers := answers st |}.

Definition setExamFinished (b : bool) (st : State) : State :=
  {| questions := questions st; isLoading := isLoading st; error := error st;
     examStarted := examStarted st; examFinished := b;
     timeLeft := timeLeft st; currentQuestionIndex := currentQuestionIndex st;
     answers := answers st |}.

(** In the handlers, [c] is the render that created the handler and [s] the
    store it writes to. *)
Definition handleAnswerSelect (c : State) (option : string) (st : State) : State :=
  let newAnswers := assign (currentQuestionIndex c) (Str option) (spread (answers c)) in
  setAnswers newAnswers st.

Definition handleNext (c : State) (st : State) : State :=
  match questions c with
  | Some qs =>
      if decide (Z.of_nat (currentQuestionIndex c) < Z.of_nat (length qs) - 1)%Z
      then setCurrentQuestionIndex (λ prev, prev + 1) st else st
  | None => st
  end.

Definition handlePrev (c : State) (st : State) : State :=
  if decide (0 < currentQuestionIndex c)
  then setCurrentQuestionIndex (λ prev, prev - 1) st else st.

(** [finishExam]: both flags are set, then the result is reported unless
    [questions] is null.  If [calculateScore] throws, [onSaveResult] is not
    reached. *)
Definition finishExam (c : Store) (now : string) (s : Store) : Store :=
  let s := setView (λ st, setExamStarted false (setExamFinished true st)) s in
  match questions (view c) with
  | Some qs =>
      match calculateScore (view c) with
      | Some sc =>
          setApp (App.handleSaveExamResult (App.user (app c)) now sc (length qs)) s
      | None => s
      end
  | None => s
  end.

(** The timer effect, run on each commit.  With time left it installs the
    interval, whose ticks are the [Tick] event below. *)
Definition timerEffect (c : Store) (now : string) (s : Store) : Store :=
  if negb (examStarted (view c)) || examFinished (view c) then s
  else if decide (timeLeft (view c) ≤ 0)%Z then finishExam c now s
  else s.

(** What the component renders.  [Crashed]: the running screen reads
    [currentQuestion.question] of an undefined question. *)
Inductive Screen :=
| Loading
| ErrorMessage
| NoQuestions
| StartScreen
| FinishedScreen
| Running (q : QuizQuestion) (lastQuestion : bool)
| Crashed.

Definition render (st : State) : Screen :=
  if isLoading st then Loading
  else if truthy (error st) then ErrorMessage
  else match questions st with
       | None => NoQuestions
       | Some qs =>
           if negb (examStarted st) then StartScreen
           else if examFinished st then FinishedScreen
           else match qs !! currentQuestionIndex st with
                | Some q =>
                    Running q (bool_decide
                      (Z.of_nat (currentQuestionIndex st) = Z.of_nat (length qs) - 1)%Z)
                | None => Crashed
                end
       end.

Inductive Event :=
| ExamSettled (r : Result (list QuizQuestion))
| ClickStart
| ClickOption (option : string)
| ClickPrev
| ClickNext
| ClickFinish
| Tick.

(** The handler an event reaches on the committed render [s]; an event
    whose control is not on the screen reaches none. *)
Definition dispatch (now : string) (e : Event) (s : Store) : Store :=
  match e, render (view s) with
  | ExamSettled r, Loading => setView (fetchExamSettled r) s
  | ClickStart, StartScreen => setView (setExamStarted true) s
  | ClickOption o, Running q _ =>
      if bool_decide (o ∈ options q) then setView (handleAnswerSelect (view s) o) s else s
  | ClickPrev, Running _ _ =>
      if bool_decide (currentQuestionIndex (view s) = 0) then s
      else setView (handlePrev (view s)) s
  | ClickNext, Running _ false => setView (handleNext (view s)) s
  | ClickFinish, Running _ true => finishExam s now s
  | Tick, Running _ _ =>
      if decide (0 < timeLeft (view s))%Z
      then setView (setTimeLeft (λ prev, prev - 1)%Z) s else s
  | _, _ => s
  end.

(** Effects run after a commit, unless rendering threw. *)
Definition commit (now : string) (s : Store) : Store :=
  match render (view s) with
  | Crashed => s
  | _ => timerEffect s now s
  end.

Definition step (now : string) (e : Event) (s : Store) : Store :=
  commit now (dispatch now e s).

(** A run of timestamped events. *)
Fixpoint run (trace : list (string * Event)) (s : Store) : Store :=
  match trace with
  | [] => s
  | (now, e) :: rest => run rest (step now e s)
  end.

(** Mounting the view inside [App]. *)
Definition mount (a : App.State) : Store := {| view := initialState; app := a |}.

(** The score of the answers from index [k] on, by plain recursion. *)
Fixpoint scoreFrom (qs : list QuizQuestion) (k : nat) (ans : list Slot) : nat :=
  match ans with
  | [] => 0
  | a :: rest =>
      (if match qs !! k with Some q => slotIs a (correctAnswer q) | None => false end
       then 1 else 0) + scoreFrom qs (S k) rest
  end.

(** A slot that holds what the view itself stores: [null] or an option. *)
Definition isStored (a : Slot) : bool :=
  match a with
  | Null | Str _ => true
  | Hole | Undefined => false
  end.

(** What holds of a mounted exam view after any run, [a0] being the [App]
    state at mount: the answers array is as long as the question list and
    has neither holes nor [undefined]; the exam is started or finished only with questions; nothing starts while
    loading; [App] is untouched until the exam is finished, and is [a0] after
    one [handleSaveExamResult] from then on. *)
Record Inv (a0 : App.State) (s : Store) : Prop := mkInv {
  inv_length : ∀ qs, questions (view s) = Some qs →
                 length (answers (view s)) = length qs;
  inv_slots : Forall (λ a, isStored a = true) (answers (view s));
  inv_questions : examStarted (view s) = true ∨ examFinished (view s) = true →
                 is_Some (questions (view s));
  inv_loading : isLoading (view s) = true →
                 examStarted (view s) = false ∧ examFinished (view s) = false;
  inv_open : examFinished (view s) = false → app s = a0;
  inv_done : examFinished (view s) = true →
             ∃ now sc qs, questions (view s) = Some qs ∧
               app s = App.handleSaveExamResult (App.user a0) now sc (length qs) a0
}.

End ExamView.

(* ===================================================================== *)
(** ** components/Dashboard.tsx *)
(* ===================================================================== *)

Module Dashboard.

(** A topic is complete if both the lesson and the practice have been
    done. *)
Definition isTopicComplete (user : User) (topicId : string) : bool :=
  match progress user !! topicId with
  | None => false
  | Some topicProgress =>
      includes (completedSections topicProgress) lesson &&
      includes (completedSections topicProgress) practice
  end.

End Dashboard.

(* ===================================================================== *)
(** ** Sample data *)
(* ===================================================================== *)

Module Samples.
Import Service.

Definition learner : User :=
  {| name := "dana"; level := A1; avatar := None; progress := ∅;
     examHistory := Some [] |}.

Definition learnerAccount : App.Account :=
  {| App.password := "c2VjcmV0"; App.data := learner |}.

Definition stored : App.LocalStorage :=
  {| App.accounts := {[ "dana" := learnerAccount ]}; App.quotaExceeded := false |}.

Definition presentSimple : Topic :=
  {| id := "a1-present-simple"; title := "Present Simple Tense"; emoji := "clock" |}.

Definition onDashboard : App.State :=
  {| App.user := Some learner; App.currentView := App.dashboard;
     App.selectedTopic := None; App.localStorage := stored |}.

(** The same learner some weeks later, logged in again. *)
Definition veteran : User :=
  {| name := "dana"; level := A2; avatar := Some "data:image/png;base64,iVBORw0KGgo=";
     progress := {[ "a1-present-simple" :=
                      {| completedVocabulary := ["book"];
                         completedSections := [lesson; practice] |} ]};
     examHistory := Some [ {| date := "2026-01-01T10:00:20.000Z"; score := 1; total := 2 |} ] |}.

Definition veteranAccount : App.Account :=
  {| App.password := "c2VjcmV0"; App.data := veteran |}.

Definition backOnDashboard : App.State :=
  {| App.user := Some veteran; App.currentView := App.dashboard;
     App.selectedTopic := None;
     App.localStorage :=
       {| App.accounts := {[ "dana" := veteranAccount;
                             "aru" := {| App.password := "cGFzcw=="; App.data := learner |} ]};
          App.quotaExceeded := false |} |}.

Definition inTopic : App.State :=
  {| App.user := Some learner; App.currentView := App.topic;
     App.selectedTopic := Some presentSimple; App.localStorage := stored |}.

Definition inExam : App.State :=
  {| App.user := Some learner; App.currentView := App.exam;
     App.selectedTopic := None; App.localStorage := stored |}.

Definition q1 : QuizQuestion :=
  {| question := "She ... a book every week.";
     options := ["read"; "reads"; "reading"; "to read"];
     correctAnswer := "reads"; explanation := None |}.

Definition q2 : QuizQuestion :=
  {| question := "They ... at home now.";
     options := ["is"; "am"; "are"; "be"];
     correctAnswer := "are"; explanation := None |}.

Definition lessonPS : LessonContent :=
  {| lesson_explanation := ("Use the present simple for habits.", "...");
     examples := [("She reads a book.", "...")];
     warnings := [("Add -s in the third person.", "...")];
     vocabulary := [ {| target := "book"; native := "kitap"; pronunciation := None |};
                     {| target := "read"; native := "oqu"; pronunciation := None |} ] |}.

Definition practicePS : ComprehensivePractice :=
  {| readingText := {| text_title := "A day"; content := "Dana reads every day." |};
     comprehensionQuiz := [q1];
     followUpTasks := [ {| instruction := "Complete the sentence:";
                           prompt := "Dana ... every day.";
                           suggestedAnswer := "reads" |} ] |}.

(** A browser whose session storage refuses every write. *)
Definition fullStorage : World :=
  {| sessionStorage := {| items := ∅; ss_quotaExceeded := true |}; generatorCalls := 0 |}.

Definition emptyStorage : World :=
  {| sessionStorage := {| items := ∅; ss_quotaExceeded := false |}; generatorCalls := 0 |}.

(** An exam taken to the end: the first answer is changed once, the second
    question is left unanswered. *)
Definition examRun : list (string * ExamView.Event) :=
  [ ("2026-01-01T10:00:00.000Z", ExamView.ExamSettled (Ok [q1; q2]));
    ("2026-01-01T10:00:05.000Z", ExamView.ClickStart);
    ("2026-01-01T10:00:09.000Z", ExamView.ClickOption "read");
    ("2026-01-01T10:00:12.000Z", ExamView.ClickOption "reads");
    ("2026-01-01T10:00:15.000Z", ExamView.ClickNext);
    ("2026-01-01T10:00:20.000Z", ExamView.ClickFinish) ].

(** A topic session in which a word is ticked while practice is loading. *)
Definition toggleWhileLoading : list TopicView.Event :=
  [ TopicView.LessonSettled (Ok lessonPS);
    TopicView.ClickTab TopicView.PracticeTab;
    TopicView.ClickGenerate;
    TopicView.ClickTab TopicView.LessonTab;
    TopicView.ClickVocabulary "book" ].

(** A topic session in which practice is requested before the lesson has
    arrived. *)
Definition practiceBeforeLesson : list TopicView.Event :=
  [ TopicView.ClickTab TopicView.PracticeTab;
    TopicView.ClickGenerate;
    TopicView.LessonSettled (Ok lessonPS);
    TopicView.PracticeSettled (Ok practicePS) ].

(** The [App] state once the lesson of the topic has been seen. *)
Definition lessonSeen : App.State :=
  TopicView.app
    (TopicView.run presentSimple [TopicView.LessonSettled (Ok lessonPS)]
       (TopicView.mount inTopic)).

(** The scenario of the specification in which a topic is completed. *)
Definition completeTopic : list TopicView.Event :=
  [ TopicView.LessonSettled (Ok lessonPS);
    TopicView.ClickTab TopicView.PracticeTab;
    TopicView.ClickGenerate;
    TopicView.PracticeSettled (Ok practicePS) ].

(** The scenario of the specification in which a task is evaluated once. *)
Definition evaluatedOnce : list TopicView.Event :=
  [ TopicView.LessonSettled (Ok lessonPS);
    TopicView.ClickTab TopicView.PracticeTab;
    TopicView.ClickGenerate;
    TopicView.PracticeSettled (Ok practicePS);
    TopicView.TypeAnswer 0 "reads";
    TopicView.ClickCheckAnswer 0;
    TopicView.CheckSettled 0 (Ok ("Jaraisyn!", true)) ].

End Samples.

(* ===================================================================== *)
(** ** App.tsx: navigation, rendering and runs of the shell *)
(* ===================================================================== *)

Module AppShell.
Import App.

Definition setSelectedTopic (t : option Topic) (st : State) : State :=
  {| user := user st; currentView := currentView st;
     selectedTopic := t; localStorage := localStorage st |}.

Definition handleLogout (st : State) : State :=
  setCurrentView welcome (setUser None st).

Definition handleSelectTopic (t : Topic) (st : State) : State :=
  setCurrentView topic (setSelectedTopic (Some t) st).

Definition handleBackToDashboard (st : State) : State :=
  setSelectedTopic None (setCurrentView dashboard st).

Definition handleGoToAccount (st : State) : State := setCurrentView account st.

Definition handleStartExam (st : State) : State := setCurrentView exam st.

(** What [renderContent] returns: the component and the props that carry
    state.  [Nothing] is the [return null] of the fallback. *)
Inductive Rendered :=
| WelcomeScreen
| DashboardView (u : User)
| TopicViewOf (t : Topic) (l : Level) (userProgress : option TopicProgress)
| AccountViewOf (u : User)
| ExamViewOf
| Nothing.

(** [renderContent], with the state it leaves: the fallback of the topic
    case calls [handleBackToDashboard]. *)
Definition renderContent (st : State) : Rendered * State :=
  match user st with
  | None => (WelcomeScreen, st)
  | Some u =>
      match currentView st with
      | welcome => (WelcomeScreen, st)
      | dashboard => (DashboardView u, st)
      | topic =>
          match selectedTopic st with
          | Some t => (TopicViewOf t (level u) (progress u !! id t), st)
          | None => (Nothing, handleBackToDashboard st)
          end
      | account => (AccountViewOf u, st)
      | exam => (ExamViewOf, st)
      end
  end.

(** The [Header] is on screen. *)
Definition headerShown (st : State) : bool :=
  match user st, currentView st with
  | Some _, welcome => false
  | Some _, _ => true
  | None, _ => false
  end.

(** The handlers of [App] as the render on screen calls them: each runs
    with the [user] of the committed render; a rejected sign-up or login
    leaves the state as it is.  The calls that the continuation of a fetch
    makes, with the [user] of an earlier render, are the [Continuation]
    events of [AppSession]. *)
Inductive Event :=
| SignUp (newName : string) (newLevel : Level) (newAvatar : option string) (pass : string)
| Login (loginName pass : string)
| Logout
| LevelChange (newLevel : Level)
| SelectTopic (t : Topic)
| BackToDashboard
| GoToAccount
| StartExam
| ProgressUpdate (topicId : string) (updatedProgress : TopicProgress)
| SaveExamResult (now : string) (result_score result_total : nat).

(** The events that neither log in nor log out. *)
Definition inSession (e : Event) : bool :=
  match e with
  | SignUp _ _ _ _ | Login _ _ | Logout => false
  | _ => true
  end.

(** The result an event hands to [handleSaveExamResult]. *)
Definition savedResult (e : Event) : option ExamResult :=
  match e with
  | SaveExamResult now sc n => Some {| date := now; score := sc; total := n |}
  | _ => None
  end.

(** The [useState] initial values of [App], over what the browser has
    stored. *)
Definition initialState (ls : LocalStorage) : State :=
  {| user := None; currentView := welcome; selectedTopic := None; localStorage := ls |}.

(** The topic view is only current with a topic selected. *)
Definition TopicSelected (st : State) : Prop :=
  currentView st = topic → is_Some (selectedTopic st).

Section Run.
Variables btoa atob : string → string.

Definition step (st : State) (e : Event) : State :=
  match e with
  | SignUp n l av pass =>
      match handleSignUp btoa n l av pass st with inr st' => st' | inl _ => st end
  | Login n pass =>
      match handleLogin atob n pass st with inr st' => st' | inl _ => st end
  | Logout => handleLogout st
  | LevelChange l => handleLevelChange (user st) l st
  | SelectTopic t => handleSelectTopic t st
  | BackToDashboard => handleBackToDashboard st
  | GoToAccount => handleGoToAccount st
  | StartExam => handleStartExam st
  | ProgressUpdate topicId p => handleProgressUpdate (user st) topicId p st
  | SaveExamResult now sc n => handleSaveExamResult (user st) now sc n st
  end.

Definition run (st : State) (trace : list Event) : State := foldl step st trace.
End Run.

(** The stored record of every logged-in user is the in-memory user, and
    every record sits under its user's name. *)
Definition Mirrored (st : State) : Prop :=
  wellKeyed (localStorage st) ∧
  ∀ u, user st = Some u →
    ∃ acc, accounts (localStorage st) !! name u = Some acc ∧ data acc = u.

End AppShell.

(* ===================================================================== *)
(** ** components/WelcomeScreen.tsx *)
(* ===================================================================== *)

Module WelcomeScreen.

Inductive Mode := login | signup.

Record State := mkState {
  mode : Mode;
  name : string;
  password : string;
  avatar : option string;
  error : option string;
  isLoading : bool
}.

Definition initialState : State :=
  {| mode := login; name := EmptyString; password := EmptyString; avatar := None;
     error := None; isLoading := false |}.

Definition handleModeToggle (st : State) : State :=
  {| mode := match mode st with login => signup | signup => login end;
     name := EmptyString; password := EmptyString; avatar := avatar st;
     error := None; isLoading := isLoading st |}.

Definition setName (v : string) (st : State) : State :=
  {| mode := mode st; name := v; password := password st; avatar := avatar st;
     error := error st; isLoading := isLoading st |}.

Definition setPassword (v : string) (st : State) : State :=
  {| mode := mode st; name := name st; password := v; avatar := avatar st;
     error := error st; isLoading := isLoading st |}.

Definition setAvatar (v : option string) (st : State) : State :=
  {| mode := mode st; name := name st; password := password st; avatar := v;
     error := error st; isLoading := isLoading st |}.

Definition setError (v : option string) (st : State) : State :=
  {| mode := mode st; name := name st; password := password st; avatar := avatar st;
     error := v; isLoading := isLoading st |}.

Definition setIsLoading (v : bool) (st : State) : State :=
  {| mode := mode st; name := name st; password := password st; avatar := avatar st;
     error := error st; isLoading := v |}.

Section Submit.
Variables btoa atob : string → string.

(** [handleSubmit] of the render [c], with the [App] state that [onLogin]
    and [onSignUp] act on.  Both resolve or reject without waiting for
    anything, so the call is taken in one piece. *)
Definition handleSubmit (c : State) (st : State) (a : App.State) : State * App.State :=
  let st := setError None st in
  if TopicView.blank (name c) || TopicView.blank (password c)
  then (setError (Some "Username and password are required.") st, a)
  else
    let st := setIsLoading true st in
    let outcome :=
      match mode c with
      | login => App.handleLogin atob (name c) (password c) a
      | signup => App.handleSignUp btoa (name c) A1 (avatar c) (password c) a
      end in
    match outcome with
    | inr a' => (setIsLoading false st, a')
    | inl message => (setIsLoading false (setError (Some message) st), a)
    end.
End Submit.

End WelcomeScreen.

(* ===================================================================== *)
(** ** components/Quiz.tsx *)
(* ===================================================================== *)

Module Quiz.

Record State := mkState {
  currentQuestionIndex : nat;
  selectedAnswer : option string;
  showResult : bool;
  score : nat
}.

Definition initialState : State :=
  {| currentQuestionIndex := 0; selectedAnswer := None; showResult := false; score := 0 |}.

(** [c] is the render that created the handler, [currentQuestion] its
    [questions[currentQuestionIndex]]. *)
Definition handleAnswerSelect (c : State) (currentQuestion : QuizQuestion)
    (option : string) (st : State) : State :=
  if showResult c then st
  else
    {| currentQuestionIndex := currentQuestionIndex st;
       selectedAnswer := Some option;
       showResult := true;
       score := if String.eqb option (correctAnswer currentQuestion)
                then score st + 1 else score st |}.

(** [handleNext]; the boolean tells whether [onComplete] was called. *)
Definition handleNext (c : State) (questions : list QuizQuestion) (st : State) : State * bool :=
  ({| currentQuestionIndex := currentQuestionIndex st + 1;
      selectedAnswer := None; showResult := false; score := score st |},
   bool_decide (length questions ≤ currentQuestionIndex c + 1)%nat).

Definition handleRestart (st : State) : State := initialState.

Inductive Screen :=
| NoQuestions
| Complete (finalScore total : nat)
| Question (q : QuizQuestion) (answered : bool).

Definition render (questions : list QuizQuestion) (st : State) : Screen :=
  match questions with
  | [] => NoQuestions
  | _ =>
      match questions !! currentQuestionIndex st with
      | None => Complete (score st) (length questions)
      | Some q => Question q (showResult st)
      end
  end.

(** The component state and the number of [onComplete] calls made. *)
Record Store := mkStore {
  view : State;
  completions : nat
}.

Inductive Event :=
| ClickOption (option : string)
| ClickNext
| ClickRestart.

(** The handler an event reaches on the committed render: option buttons
    are disabled once the result shows, the next button exists only then,
    and the restart button only on the final screen. *)
Definition step (questions : list QuizQuestion) (s : Store) (e : Event) : Store :=
  match e, render questions (view s) with
  | ClickOption o, Question q false =>
      if bool_decide (o ∈ options q)
      then {| view := handleAnswerSelect (view s) q o (view s);
              completions := completions s |}
      else s
  | ClickNext, Question _ true =>
      let '(st, completed) := handleNext (view s) questions (view s) in
      {| view := st; completions := if completed then S (completions s) else completions s |}
  | ClickRestart, Complete _ _ =>
      {| view := handleRestart (view s); completions := completions s |}
  | _, _ => s
  end.

Definition run (questions : list QuizQuestion) (s : Store) (trace : list Event) : Store :=
  foldl (step questions) s trace.

Definition mount : Store := {| view := initialState; completions := 0 |}.

(** Answering every question once, in order. *)
Definition pass (choices : list string) : list Event :=
  choices ≫= λ o, [ClickOption o; ClickNext].

(** The number of choices that are the correct answer of their question. *)
Fixpoint correctChoices (questions : list QuizQuestion) (choices : list string) : nat :=
  match questions, choices with
  | q :: qs, o :: os =>
      (if String.eqb o (correctAnswer q) then 1 else 0) + correctChoices qs os
  | _, _ => 0
  end.

End Quiz.

(* ===================================================================== *)
(** ** components/AccountView.tsx *)
(* ===================================================================== *)

Module AccountView.

(** The exam history list: [None] is the text shown when there are no
    attempts, otherwise the results in the order they are listed. *)
Definition examHistoryShown (u : User) : option (list ExamResult) :=
  match examHistory u with
  | Some (r :: h) => Some (reverse (r :: h))
  | _ => None
  end.

End AccountView.

(* ===================================================================== *)
(** ** More sample data *)
(* ===================================================================== *)

Module MoreSamples.
Import Service Samples.

(** A stand-in for [btoa] and [atob] that undoes itself. *)
Definition scramble : string → string := String.rev.

Definition freshBrowser : App.State :=
  AppShell.initialState {| App.accounts := ∅; App.quotaExceeded := false |}.

Definition returningBrowser : App.State :=
  AppShell.initialState (App.localStorage backOnDashboard).

Definition fullBrowser : App.State :=
  {| App.user := Some veteran; App.currentView := App.dashboard;
     App.selectedTopic := None;
     App.localStorage :=
       {| App.accounts := {[ "dana" := veteranAccount ]}; App.quotaExceeded := true |} |}.

Definition anAfternoon : list AppShell.Event :=
  [ AppShell.LevelChange B1;
    AppShell.SelectTopic presentSimple;
    AppShell.ProgressUpdate "a1-present-simple"
      {| completedVocabulary := ["book"]; completedSections := [lesson] |};
    AppShell.BackToDashboard;
    AppShell.StartExam;
    AppShell.SaveExamResult "2026-02-01T09:30:00.000Z" 20 25;
    AppShell.BackToDashboard;
    AppShell.GoToAccount ].

Definition aWeek : list AppShell.Event :=
  [ AppShell.SignUp "aru" A1 None "qwerty";
    AppShell.LevelChange A2;
    AppShell.Logout;
    AppShell.Login "aru" "wrong";
    AppShell.Login "aru" "qwerty";
    AppShell.SaveExamResult "2026-02-03T18:00:00.000Z" 12 25 ].

End MoreSamples.

(* ===================================================================== *)
(** ** What a mounted exam view keeps *)
(* ===================================================================== *)

Module ExamSession.
Import Service ExamView.

(** The question index stays on a question: it is 0 until the questions
    arrive and at most the index of the last question afterwards. *)
Definition InRange (s : Store) : Prop :=
  (isLoading (view s) = true → currentQuestionIndex (view s) = 0%nat) ∧
  match questions (view s) with
  | Some qs => (currentQuestionIndex (view s) ≤ length qs - 1)%nat
  | None => currentQuestionIndex (view s) = 0%nat
  end.

(** The clock stays between zero and the exam duration, and is above zero
    while the exam is not finished. *)
Definition Clock (s : Store) : Prop :=
  (0 ≤ timeLeft (view s) ≤ EXAM_DURATION)%Z ∧
  (examFinished (view s) = false → 0 < timeLeft (view s))%Z.

(** An exam is started or finished only without an error message, and the
    result saved for a finished exam is the score of the answers on
    display. *)
Definition Settled (a0 : App.State) (s : Store) : Prop :=
  (examStarted (view s) = true ∨ examFinished (view s) = true →
   truthy (error (view s)) = false) ∧
  (examFinished (view s) = true →
   ∃ now qs, questions (view s) = Some qs ∧
     app s = App.handleSaveExamResult (App.user a0) now
               (countCorrect qs (answers (view s))) (length qs) a0).

(** The interval firing once a second, at the given times. *)
Definition ticks (nows : list string) : list (string * Event) :=
  (λ now, (now, Tick)) <$> nows.

End ExamSession.

(* ===================================================================== *)
(** ** What a mounted topic view keeps *)
(* ===================================================================== *)

Module TopicSession.
Import Service TopicView.

(** The words a user has ticked in the topic. *)
Definition vocabularyOf (topic : Topic) (u : option User) : list string :=
  completedVocabulary (default emptyProgress (userProgress topic u)).

(** No word is ticked twice: neither for the user on screen nor for the
    users captured by the renders that wait for a fetch. *)
Definition Clean (topic : Topic) (s : Store) : Prop :=
  NoDup (vocabularyOf topic (App.user (app s))) ∧
  (∀ c, lessonPending s = Some c → NoDup (vocabularyOf topic (r_user c))) ∧
  (∀ c, c ∈ practicePending s → NoDup (vocabularyOf topic (r_user c))).

(** While practice is loading there is no practice content. *)
Definition Quiet (s : Store) : Prop :=
  isLoading_practice (view s) = true → practiceContent (view s) = None.

(** Nothing is being fetched, there is no practice content, and an error
    message is up. *)
Definition Stuck (s : Store) : Prop :=
  lessonPending s = None ∧ practicePending s = [] ∧
  isLoading_practice (view s) = false ∧ practiceContent (view s) = None ∧
  truthy (error (view s)) = true.

(** The lesson arrives, then practice is requested and arrives. *)
Definition lessonThenPractice (l : LessonContent) (p : ComprehensivePractice) : list Event :=
  [ LessonSettled (Ok l); ClickTab PracticeTab; ClickGenerate; PracticeSettled (Ok p) ].

End TopicSession.

(* ===================================================================== *)
(** ** services/geminiService.ts: the keys of the session cache *)
(* ===================================================================== *)

Module ServiceCache.
Import Service.

(** The cache key a request reads and may write; the exam and the answer
    check have none. *)
Definition ownKey {Lesson Practice : Type}
    (q : Request (Lesson := Lesson) (Practice := Practice)) : option string :=
  match q with
  | LessonRequest level topic _ => Some (lessonCacheKey level topic)
  | PracticeRequest level topic _ => Some (practiceCacheKey level topic)
  | ExamRequest _ | CheckRequest _ _ => None
  end.

End ServiceCache.

(* ===================================================================== *)
(** ** services/geminiService.ts: fetches that overlap *)
(* ===================================================================== *)

Module ServiceAsync.
Import Service.

(** A fetch that missed the cache and waits for the generator. *)
Inductive Flight :=
| LessonFlight (level : Level) (topic : Topic)
| PracticeFlight (level : Level) (topic : Topic).

Definition flightKey (f : Flight) : string :=
  match f with
  | LessonFlight level topic => lessonCacheKey level topic
  | PracticeFlight level topic => practiceCacheKey level topic
  end.

(** The world of the service and the fetches waiting at their [await]. *)
Record Session := mkSession {
  world : World;
  inFlight : list Flight
}.

(** No fetch under this key is waiting for the generator. *)
Definition quietFor (key : string) (s : Session) : Prop :=
  Forall (λ f, flightKey f ≠ key) (inFlight s).

Section Flights.
Context {Lesson Practice : Type} `{JSON Lesson} `{JSON Practice}.

(** [generateLessonContent] up to [await ai.models.generateContent]: a
    cache hit returns at once; on a miss the request is issued and the
    call waits. *)
Definition lessonCall (level : Level) (topic : Topic) (s : Session)
    : option Lesson * Session :=
  match cacheLookup (lessonCacheKey level topic) (world s) with
  | Some cached => (Some cached, s)
  | None =>
      (None, {| world := countCall (world s);
                inFlight := (inFlight s ++ [LessonFlight level topic])%list |})
  end.

(** ... and from the [await] on, with what the request brought. *)
Definition lessonResume (level : Level) (topic : Topic) (response : option Lesson)
    (w : World) : Result Lesson * World :=
  match response with
  | Some content => (Ok content, cacheStore (lessonCacheKey level topic) content w)
  | None => (Err "Failed to generate the lesson. Please try again.", w)
  end.

Definition practiceCall (level : Level) (topic : Topic) (s : Session)
    : option Practice * Session :=
  match cacheLookup (practiceCacheKey level topic) (world s) with
  | Some cached => (Some cached, s)
  | None =>
      (None, {| world := countCall (world s);
                inFlight := (inFlight s ++ [PracticeFlight level topic])%list |})
  end.

Definition practiceResume (level : Level) (topic : Topic) (response : option Practice)
    (w : World) : Result Practice * World :=
  match response with
  | Some parsedContent =>
      (Ok parsedContent, cacheStore (practiceCacheKey level topic) parsedContent w)
  | None => (Err "Failed to generate practice session. Please try again.", w)
  end.

(** What happens at the service, one piece at a time: a fetch is called, or
    the [k]-th waiting fetch resumes with the answer of its request; the
    exam and the answer check never touch the cache and are taken whole. *)
Inductive Step :=
| CallLesson (level : Level) (topic : Topic)
| ResumeLesson (k : nat) (response : option Lesson)
| CallPractice (level : Level) (topic : Topic)
| ResumePractice (k : nat) (response : option Practice)
| CallExam (response : option (list QuizQuestion))
| CallCheck (verdict : option bool) (feedback : option string).

Definition step (s : Session) (e : Step) : Session :=
  match e with
  | CallLesson level topic => (lessonCall level topic s).2
  | ResumeLesson k response =>
      match inFlight s !! k with
      | Some (LessonFlight level topic) =>
          {| world := (lessonResume level topic response (world s)).2;
             inFlight := delete k (inFlight s) |}
      | _ => s
      end
  | CallPractice level topic => (practiceCall level topic s).2
  | ResumePractice k response =>
      match inFlight s !! k with
      | Some (PracticeFlight level topic) =>
          {| world := (practiceResume level topic response (world s)).2;
             inFlight := delete k (inFlight s) |}
      | _ => s
      end
  | CallExam response =>
      {| world := (generateExam response (world s)).2; inFlight := inFlight s |}
  | CallCheck verdict feedback =>
      {| world := (checkUserAnswer verdict feedback (world s)).2; inFlight := inFlight s |}
  end.

Definition run (s : Session) (trace : list Step) : Session := foldl step s trace.
End Flights.

(** A session in which nothing has been fetched yet. *)
Definition idle (w : World) : Session := {| world := w; inFlight := [] |}.

End ServiceAsync.

(* ===================================================================== *)
(** ** components/TopicView.tsx: the evaluations that are under way *)
(* ===================================================================== *)

Module TopicChecks.
Import Service TopicView.

(** The task indices with an evaluation under way. *)
Definition checking (s : Store) : list nat := (checkPending s).*1.

(** Every evaluation under way shows as loading on its task, and no task
    has two. *)
Definition Tracked (s : Store) : Prop :=
  NoDup (checking s) ∧ ∀ i, i ∈ checking s → feedbackLoading (view s) i = true.

(** A run in which practice is never requested while an evaluation is
    under way. *)
Fixpoint Calm (topic : Topic) (trace : list Event) (s : Store) : Prop :=
  match trace with
  | [] => True
  | e :: rest =>
      (e = ClickGenerate → checkPending s = []) ∧ Calm topic rest (step topic e s)
  end.

(** Practice is regenerated while the evaluation of the first task is under
    way, and the answer is typed again. *)
Definition regenerateWhileChecking : list Event :=
  (Samples.completeTopic ++
   [ TypeAnswer 0 "reads"; ClickCheckAnswer 0;
     ClickGenerate; PracticeSettled (Ok Samples.practicePS);
     TypeAnswer 0 "reads" ])%list.

(** Practice is regenerated after the first task has been evaluated, and
    the answer is typed again. *)
Definition regenerateAfterResult : list Event :=
  (Samples.evaluatedOnce ++
   [ ClickGenerate; PracticeSettled (Ok Samples.practicePS);
     TypeAnswer 0 "reads" ])%list.

End TopicChecks.

(* ===================================================================== *)
(** ** components/TopicView.tsx: a topic that is left and opened again *)
(* ===================================================================== *)

Module TopicReopen.
Import Service TopicView.

(** The mounted view, and the fetches of earlier mounts that have not
    settled: nothing cancels a fetch when the view is left, so its
    continuation still runs, with the render that issued it.  On an
    unmounted view the state setters do nothing; what is left of the
    continuation is the mark it puts on the section. *)
Record Session := mkSession {
  current : Store;
  leftover : list (ContentSectionType * Render)
}.

Inductive Event :=
| Current (e : TopicView.Event)
| Reopen
| EarlierSettled (k : nat) (succeeded : bool).

Section Reopened.
Variable topic : Topic.

(** Back to the dashboard and into the same topic again. *)
Definition reopen (s : Session) : Session :=
  {| current := mount (app (current s));
     leftover :=
       (leftover s
        ++ from_option (λ c, [(lesson, c)]) [] (lessonPending (current s))
        ++ ((λ c, (practice, c)) <$> practicePending (current s)))%list |}.

Definition step (s : Session) (e : Event) : Session :=
  match e with
  | Current e => {| current := TopicView.step topic e (current s); leftover := leftover s |}
  | Reopen => reopen s
  | EarlierSettled k succeeded =>
      match leftover s !! k with
      | Some (section, c) =>
          {| current := if succeeded
                        then setApp (markComplete topic c section) (current s)
                        else current s;
             leftover := delete k (leftover s) |}
      | None => s
      end
  end.

Definition run (s : Session) (trace : list Event) : Session := foldl step s trace.
End Reopened.

Definition opened (a : App.State) : Session :=
  {| current := mount a; leftover := [] |}.

(** The lesson arrives and practice is requested; the topic is left and
    opened again while practice is being generated; the lesson comes from
    the cache and practice is requested again; the first request settles;
    a word is ticked. *)
Definition reopenedWhileFetching : list Event :=
  [ Current (LessonSettled (Ok Samples.lessonPS));
    Current (ClickTab PracticeTab);
    Current ClickGenerate;
    Reopen;
    Current (LessonSettled (Ok Samples.lessonPS));
    Current (ClickTab PracticeTab);
    Current ClickGenerate;
    EarlierSettled 0 true;
    Current (ClickTab LessonTab);
    Current (ClickVocabulary "book") ].

End TopicReopen.

(* ===================================================================== *)
(** ** App.tsx: the handlers as the views call them *)
(* ===================================================================== *)

Module AppSession.
Import App.

(** A handler is called either by the render on screen ([Committed]: the
    events of [AppShell], each running with the current [user]), or by the
    continuation of a fetch of a topic view, which calls
    [handleProgressUpdate] of the render that issued the fetch and so runs
    with the [user] that render captured, whatever has happened since. *)
Inductive Event :=
| Committed (e : AppShell.Event)
| Continuation (captured : option User) (topicId : string) (updatedProgress : TopicProgress).

Definition inSession (ev : Event) : bool :=
  match ev with
  | Committed e => AppShell.inSession e
  | Continuation _ _ _ => true
  end.

Definition savedResult (ev : Event) : option ExamResult :=
  match ev with
  | Committed e => AppShell.savedResult e
  | Continuation _ _ _ => None
  end.

Section Run.
Variables btoa atob : string → string.

Definition step (st : State) (ev : Event) : State :=
  match ev with
  | Committed e => AppShell.step btoa atob st e
  | Continuation captured topicId updatedProgress =>
      handleProgressUpdate captured topicId updatedProgress st
  end.

Definition run (st : State) (trace : list Event) : State := foldl step st trace.

(** Every continuation in the run settles with the exam history that is
    current when it settles: no result was saved since its fetch was
    issued. *)
Fixpoint UpToDate (st : State) (trace : list Event) : Prop :=
  match trace with
  | [] => True
  | ev :: rest =>
      match ev with
      | Continuation (Some c) _ _ => default [] (examHistory c) = historyOf st
      | _ => True
      end ∧ UpToDate (step st ev) rest
  end.
End Run.

(** An afternoon with a fetch that settles late: the level is changed while
    a lesson is being generated, and an exam is taken afterwards. *)
Definition lateLesson : list Event :=
  [ Committed (AppShell.SelectTopic Samples.presentSimple);
    Committed (AppShell.LevelChange B1);
    Continuation (Some Samples.veteran) "a1-present-simple"
      {| completedVocabulary := ["book"]; completedSections := [lesson; practice] |};
    Committed AppShell.BackToDashboard;
    Committed AppShell.StartExam;
    Committed (AppShell.SaveExamResult "2026-02-01T09:30:00.000Z" 20 25) ].

(** The same with the exam taken before the lesson settles. *)
Definition lateLessonAfterExam : list Event :=
  [ Committed (AppShell.SelectTopic Samples.presentSimple);
    Committed AppShell.BackToDashboard;
    Committed AppShell.StartExam;
    Committed (AppShell.SaveExamResult "2026-02-01T09:30:00.000Z" 20 25);
    Continuation (Some Samples.veteran) "a1-present-simple"
      {| completedVocabulary := ["book"]; completedSections := [lesson; practice] |} ].

End AppSession.

Local Close Scope string_scope.

(* ===================================================================== *)
(** ** Theorems: App.tsx *)
(* ===================================================================== *)

Module AppFacts.
Import App.

Lemma persistUserUpdate_other (u : User) (ls : LocalStorage) (n : string) :
  n ≠ name u → accounts (persistUserUpdate u ls) !! n = accounts ls !! n.
Proof.
  intros Hn. unfold persistUserUpdate.
  destruct (accounts ls !! name u) as [acc|]; [|done].
  destruct (quotaExceeded ls); [done|]. simpl.
  by rewrite lookup_insert_ne.
Qed.

Lemma persistUserUpdate_self (u : User) (ls : LocalStorage) (acc : Account) :
  accounts ls !! name u = Some acc →
  accounts (persistUserUpdate u ls) !! name u =
    Some (if quotaExceeded ls then acc else {| password := password acc; data := u |}).
Proof.
  intros Hacc. unfold persistUserUpdate. rewrite Hacc.
  destruct (quotaExceeded ls); [done|]. simpl.
  by rewrite lookup_insert_eq.
Qed.

Lemma handleSignUp_loggedIn (btoa : string → string) (n : string) (l : Level)
    (av : option string) (pass : string) (st st' : State) :
  handleSignUp btoa n l av pass st = inr st' →
  ∃ u acc, loggedIn st' u acc ∧ name u = n.
Proof.
  unfold handleSignUp. destruct (accounts (localStorage st) !! n); [done|].
  destruct (inherited n); [done|].
  destruct (quotaExceeded (localStorage st)); [done|].
  intros [= <-].
  exists {| name := n; level := l; avatar := av; progress := ∅; examHistory := Some [] |}.
  eexists. split; [|reflexivity].
  split; [reflexivity|]. simpl. split; [by rewrite lookup_insert_eq|reflexivity].
Qed.

Lemma handleLogin_loggedIn (atob : string → string) (n pass : string) (st st' : State) :
  wellKeyed (localStorage st) →
  handleLogin atob n pass st = inr st' →
  ∃ u acc, loggedIn st' u acc ∧ name u = n.
Proof.
  intros Hwk. unfold handleLogin.
  destruct (accounts (localStorage st) !! n) as [acc|] eqn:Hacc;
    [|by destruct (inherited n)].
  destruct (String.eqb _ _); [|done].
  intros [= <-]. exists (data acc), acc. pose proof (Hwk n acc Hacc) as Hn.
  split; [|done]. split; [reflexivity|]. simpl. by rewrite Hn.
Qed.

Lemma persistUserUpdate_wellKeyed (u : User) (ls : LocalStorage) :
  wellKeyed ls → wellKeyed (persistUserUpdate u ls).
Proof.
  intros Hwk n acc. unfold persistUserUpdate.
  destruct (accounts ls !! name u) as [acc0|] eqn:Hacc; [|apply Hwk].
  destruct (quotaExceeded ls); [apply Hwk|]. simpl.
  destruct (decide (name u = n)) as [<-|Hne].
  - rewrite lookup_insert_eq. by intros [= <-].
  - rewrite lookup_insert_ne by done. apply Hwk.
Qed.

(** C10. Changing the learning level of a logged-in user replaces only the
    [level] field: name, avatar, progress and exam history are the same
    before and after, in the in-memory user and in the stored account record
    (whose password and whose sibling accounts are untouched as well). *)
Theorem handleLevelChange_frame (st : State) (u : User) (acc : Account) (newLevel : Level) :
  loggedIn st u acc →
  let st' := handleLevelChange (user st) newLevel st in
  (∃ u', user st' = Some u' ∧ level u' = newLevel ∧
         name u' = name u ∧ avatar u' = avatar u ∧
         progress u' = progress u ∧ examHistory u' = examHistory u) ∧
  (∃ acc', accounts (localStorage st') !! name u = Some acc' ∧
           password acc' = password acc ∧
           name (data acc') = name (data acc) ∧
           avatar (data acc') = avatar (data acc) ∧
           progress (data acc') = progress (data acc) ∧
           examHistory (data acc') = examHistory (data acc) ∧
           (quotaExceeded (localStorage st) = false → level (data acc') = newLevel)) ∧
  (∀ n, n ≠ name u →
        accounts (localStorage st') !! n = accounts (localStorage st) !! n) ∧
  currentView st' = currentView st ∧ selectedTopic st' = selectedTopic st.
Proof.
  intros (Hu & Hacc & Hdata) st'. subst st'. rewrite Hu. simpl.
  split; [by eexists|].
  split.
  - eexists. split.
    + apply (persistUserUpdate_self (withLevel u newLevel)). exact Hacc.
    + subst u. destruct (quotaExceeded (localStorage st)); simpl; repeat split; done.
  - split; [|done]. intros n Hn.
    by apply (persistUserUpdate_other (withLevel u newLevel)).
Qed.

Lemma handleLevelChange_frame_witness :
  let st' := handleLevelChange (user Samples.backOnDashboard) B1 Samples.backOnDashboard in
  loggedIn Samples.backOnDashboard Samples.veteran Samples.veteranAccount ∧
  ∃ u' acc',
    user st' = Some u' ∧
    level u' = B1 ∧ avatar u' = avatar Samples.veteran ∧
    progress u' = progress Samples.veteran ∧
    examHistory u' = examHistory Samples.veteran ∧
    accounts (localStorage st') !! name Samples.veteran = Some acc' ∧
    password acc' = password Samples.veteranAccount ∧
    progress (data acc') = progress Samples.veteran ∧
    examHistory (data acc') = examHistory Samples.veteran ∧
    level (data acc') = B1.
Proof.
  intros st'.
  assert (loggedIn Samples.backOnDashboard Samples.veteran Samples.veteranAccount) as Hin.
  { split; [reflexivity|]. split; reflexivity. }
  split; [exact Hin|].
  destruct (handleLevelChange_frame _ _ _ B1 Hin)
    as [(u' & Hu' & Hl & _ & Hav & Hp & Hh)
        [(acc' & Ha & Hpw & _ & _ & Hap & Hah & Hal) _]].
  exists u', acc'.
  split; [exact Hu'|]. split; [exact Hl|]. split; [exact Hav|].
  split; [exact Hp|]. split; [exact Hh|]. split; [exact Ha|].
  split; [exact Hpw|]. split; [exact Hap|]. split; [exact Hah|].
  exact (Hal eq_refl).
Defined.

End AppFacts.


(* ===================================================================== *)
(** ** Theorems: the content cache and the exam fetch *)
(* ===================================================================== *)

Module ServiceFacts.
Import Service.

#[export] Instance JSONLaws_bool : JSONLaws bool.
Proof. split; intros []; done. Qed.

Section Laws.
Context {A : Type} `{JSONLaws A}.

Lemma truthy_stringify (a : A) : truthy (Some (stringify a)) = true.
Proof.
  simpl. destruct (String.eqb_spec (stringify a) EmptyString); [|done].
  by destruct (stringify_nonempty a).
Qed.

Lemma cacheLookup_cacheStore (key : string) (a : A) (w : World) :
  ss_quotaExceeded (sessionStorage w) = false →
  cacheLookup key (cacheStore key a w) = Some a.
Proof.
  intros Hq. unfold cacheLookup, cacheStore, setItem, getItem. rewrite Hq. simpl.
  rewrite lookup_insert_eq, truthy_stringify. simpl. apply parse_stringify.
Qed.

End Laws.

Lemma generateLessonContent_hit {Lesson} `{JSON Lesson} level topic response (w : World) (c : Lesson) :
  cacheLookup (lessonCacheKey level topic) w = Some c →
  generateLessonContent level topic response w = (Ok c, w).
Proof. intros Hc. unfold generateLessonContent. by rewrite Hc. Qed.

Lemma generateComprehensivePractice_hit {Practice} `{JSON Practice} level topic response
    (w : World) (c : Practice) :
  cacheLookup (practiceCacheKey level topic) w = Some c →
  generateComprehensivePractice level topic response w = (Ok c, w).
Proof. intros Hc. unfold generateComprehensivePractice. by rewrite Hc. Qed.

Lemma generateLessonContent_cached {Lesson} `{JSONLaws Lesson} level topic response
    (w w1 : World) (c : Lesson) :
  ss_quotaExceeded (sessionStorage w) = false →
  generateLessonContent level topic response w = (Ok c, w1) →
  cacheLookup (lessonCacheKey level topic) w1 = Some c ∧
  (generatorCalls w1 ≤ S (generatorCalls w))%nat.
Proof.
  intros Hq. unfold generateLessonContent.
  destruct (cacheLookup (lessonCacheKey level topic) w) as [c'|] eqn:Hc.
  - intros [= <- <-]. split; [done|lia].
  - destruct response as [content|]; [|done]. intros [= <- <-]. split.
    + apply cacheLookup_cacheStore. exact Hq.
    + unfold cacheStore, setItem. simpl. rewrite Hq. simpl. lia.
Qed.

Lemma generateComprehensivePractice_cached {Practice} `{JSONLaws Practice} level topic response
    (w w1 : World) (c : Practice) :
  ss_quotaExceeded (sessionStorage w) = false →
  generateComprehensivePractice level topic response w = (Ok c, w1) →
  cacheLookup (practiceCacheKey level topic) w1 = Some c ∧
  (generatorCalls w1 ≤ S (generatorCalls w))%nat.
Proof.
  intros Hq. unfold generateComprehensivePractice.
  destruct (cacheLookup (practiceCacheKey level topic) w) as [c'|] eqn:Hc.
  - intros [= <- <-]. split; [done|lia].
  - destruct response as [content|]; [|done]. intros [= <- <-]. split.
    + apply cacheLookup_cacheStore. exact Hq.
    + unfold cacheStore, setItem. simpl. rewrite Hq. simpl. lia.
Qed.

(** The cache keys tell levels, topics and kinds apart. *)
Lemma lessonCacheKey_inj (l l' : Level) (t t' : Topic) :
  lessonCacheKey l t = lessonCacheKey l' t' → l = l' ∧ id t = id t'.
Proof. destruct l, l'; simpl; intros [=]; done. Qed.

Lemma practiceCacheKey_inj (l l' : Level) (t t' : Topic) :
  practiceCacheKey l t = practiceCacheKey l' t' → l = l' ∧ id t = id t'.
Proof. destruct l, l'; simpl; intros [=]; done. Qed.

Lemma lesson_practice_key_ne (l l' : Level) (t t' : Topic) :
  lessonCacheKey l t ≠ practiceCacheKey l' t'.
Proof. done. Qed.

Lemma cacheLookup_cacheStore_ne {A B} `{JSON A} `{JSON B} (key key' : string) (b : B)
    (w : World) :
  key ≠ key' → cacheLookup (A := A) key (cacheStore key' b w) = cacheLookup key w.
Proof.
  intros Hne. unfold cacheLookup, cacheStore, setItem, getItem.
  destruct (ss_quotaExceeded (sessionStorage w)); [done|]. simpl.
  by rewrite lookup_insert_ne.
Qed.

(** *** Fetches that overlap *)

Section Flights.
Import ServiceAsync.
Context {Lesson Practice : Type} `{JSONLaws Lesson} `{JSONLaws Practice}.

(** The call taken whole is the call up to its [await] followed at once by
    the rest. *)
Lemma generateLessonContent_split (level : Level) (topic : Topic) (r : option Lesson)
    (w : World) :
  generateLessonContent level topic r w =
    match lessonCall (Lesson := Lesson) level topic (idle w) with
    | (Some cached, _) => (Ok cached, w)
    | (None, s) => lessonResume level topic r (world s)
    end.
Proof.
  unfold generateLessonContent, lessonCall. simpl.
  destruct (cacheLookup (lessonCacheKey level topic) w); [done|]. by destruct r.
Qed.

Lemma generateComprehensivePractice_split (level : Level) (topic : Topic)
    (r : option Practice) (w : World) :
  generateComprehensivePractice level topic r w =
    match practiceCall (Practice := Practice) level topic (idle w) with
    | (Some cached, _) => (Ok cached, w)
    | (None, s) => practiceResume level topic r (world s)
    end.
Proof.
  unfold generateComprehensivePractice, practiceCall. simpl.
  destruct (cacheLookup (practiceCacheKey level topic) w); [done|]. by destruct r.
Qed.

Lemma quietFor_delete (key : string) (k : nat) (w : World) (s : Session) :
  quietFor key s → quietFor key {| world := w; inFlight := delete k (inFlight s) |}.
Proof. unfold quietFor. simpl. apply Forall_delete. Qed.

Lemma quietFor_snoc (key : string) (f : Flight) (w : World) (s : Session) :
  quietFor key s → flightKey f ≠ key →
  quietFor key {| world := w; inFlight := inFlight s ++ [f] |}.
Proof.
  unfold quietFor. simpl. intros Hq Hf. apply Forall_app. split; [done|].
  by apply Forall_singleton.
Qed.

(** A cached lesson nobody is still fetching survives whatever happens at
    the service, and nobody starts fetching it again. *)
Lemma step_held_lesson (level : Level) (topic : Topic) (c : Lesson)
    (e : Step (Lesson := Lesson) (Practice := Practice)) (s : Session) :
  cacheLookup (lessonCacheKey level topic) (world s) = Some c →
  quietFor (lessonCacheKey level topic) s →
  cacheLookup (lessonCacheKey level topic) (world (step s e)) = Some c ∧
  quietFor (lessonCacheKey level topic) (step s e).
Proof.
  intros Hc Hq. destruct e as [l t|k r|l t|k r|r|v f]; simpl.
  - unfold lessonCall.
    destruct (cacheLookup (lessonCacheKey l t) (world s)) as [c'|] eqn:Hlt; [done|].
    simpl. split; [done|]. apply quietFor_snoc; [done|]. simpl. congruence.
  - destruct (inFlight s !! k) as [[l t|l t]|] eqn:Hk; [|done|done].
    assert (lessonCacheKey l t ≠ lessonCacheKey level topic) as Hne.
    { by apply (proj1 (Forall_lookup _ _) Hq k (LessonFlight l t)). }
    split; [|by apply quietFor_delete].
    destruct r as [content|]; simpl; [|done].
    by rewrite cacheLookup_cacheStore_ne.
  - unfold practiceCall.
    destruct (cacheLookup (practiceCacheKey l t) (world s)) as [c'|]; [done|].
    simpl. split; [done|]. apply quietFor_snoc; [done|]. simpl.
    intros Heq. by apply (lesson_practice_key_ne level l topic t).
  - destruct (inFlight s !! k) as [[l t|l t]|] eqn:Hk; [done| |done].
    split; [|by apply quietFor_delete].
    destruct r as [content|]; simpl; [|done].
    rewrite cacheLookup_cacheStore_ne; [done|apply lesson_practice_key_ne].
  - split; [|done]. unfold generateExam. by destruct r.
  - split; [|done]. unfold checkUserAnswer. destruct v; [|done]. by destruct f.
Qed.

Lemma step_held_practice (level : Level) (topic : Topic) (c : Practice)
    (e : Step (Lesson := Lesson) (Practice := Practice)) (s : Session) :
  cacheLookup (practiceCacheKey level topic) (world s) = Some c →
  quietFor (practiceCacheKey level topic) s →
  cacheLookup (practiceCacheKey level topic) (world (step s e)) = Some c ∧
  quietFor (practiceCacheKey level topic) (step s e).
Proof.
  intros Hc Hq. destruct e as [l t|k r|l t|k r|r|v f]; simpl.
  - unfold lessonCall.
    destruct (cacheLookup (lessonCacheKey l t) (world s)) as [c'|]; [done|].
    simpl. split; [done|]. apply quietFor_snoc; [done|]. simpl.
    apply lesson_practice_key_ne.
  - destruct (inFlight s !! k) as [[l t|l t]|] eqn:Hk; [|done|done].
    split; [|by apply quietFor_delete].
    destruct r as [content|]; simpl; [|done].
    rewrite cacheLookup_cacheStore_ne; [done|].
    intros Heq. by apply (lesson_practice_key_ne l level t topic).
  - unfold practiceCall.
    destruct (cacheLookup (practiceCacheKey l t) (world s)) as [c'|] eqn:Hlt; [done|].
    simpl. split; [done|]. apply quietFor_snoc; [done|]. simpl. congruence.
  - destruct (inFlight s !! k) as [[l t|l t]|] eqn:Hk; [done| |done].
    assert (practiceCacheKey l t ≠ practiceCacheKey level topic) as Hne.
    { by apply (proj1 (Forall_lookup _ _) Hq k (PracticeFlight l t)). }
    split; [|by apply quietFor_delete].
    destruct r as [content|]; simpl; [|done].
    by rewrite cacheLookup_cacheStore_ne.
  - split; [|done]. unfold generateExam. by destruct r.
  - split; [|done]. unfold checkUserAnswer. destruct v; [|done]. by destruct f.
Qed.

Lemma run_held_lesson (level : Level) (topic : Topic) (c : Lesson)
    (between : list (Step (Lesson := Lesson) (Practice := Practice))) :
  ∀ s, cacheLookup (lessonCacheKey level topic) (world s) = Some c →
       quietFor (lessonCacheKey level topic) s →
       cacheLookup (lessonCacheKey level topic) (world (run s between)) = Some c.
Proof.
  induction between as [|e rest IH]; intros s Hc Hq; [done|].
  destruct (step_held_lesson level topic c e s Hc Hq) as [Hc' Hq'].
  by apply (IH (step s e)).
Qed.

Lemma run_held_practice (level : Level) (topic : Topic) (c : Practice)
    (between : list (Step (Lesson := Lesson) (Practice := Practice))) :
  ∀ s, cacheLookup (practiceCacheKey level topic) (world s) = Some c →
       quietFor (practiceCacheKey level topic) s →
       cacheLookup (practiceCacheKey level topic) (world (run s between)) = Some c.
Proof.
  induction between as [|e rest IH]; intros s Hc Hq; [done|].
  destruct (step_held_practice level topic c e s Hc Hq) as [Hc' Hq'].
  by apply (IH (step s e)).
Qed.

Lemma lessonCall_hit (level : Level) (topic : Topic) (c : Lesson) (s : Session) :
  cacheLookup (lessonCacheKey level topic) (world s) = Some c →
  lessonCall level topic s = (Some c, s).
Proof. intros Hc. unfold lessonCall. by rewrite Hc. Qed.

Lemma practiceCall_hit (level : Level) (topic : Topic) (c : Practice) (s : Session) :
  cacheLookup (practiceCacheKey level topic) (world s) = Some c →
  practiceCall level topic s = (Some c, s).
Proof. intros Hc. unfold practiceCall. by rewrite Hc. Qed.

End Flights.

(** C3 (as the code has it).  While session storage accepts writes: once a
    lesson (or practice) fetch has returned content, either at once from the
    cache or when it resumed with the generator's answer, and no other fetch
    for the same level and topic is still waiting for the generator at that
    moment, then after anything that happens at the service in between
    (calls and resumptions of other fetches, in any order) a fetch for the
    same level and topic returns the identical content at once and leaves the
    session as it is: no generator request.  A cache hit is always returned
    verbatim without a request, a call issues at most one request, and
    resuming issues none. *)
Theorem cache_second_fetch {Lesson Practice : Type} `{JSONLaws Lesson} `{JSONLaws Practice}
    (level : Level) (topic : Topic) (s : ServiceAsync.Session)
    (between : list (ServiceAsync.Step (Lesson := Lesson) (Practice := Practice))) :
  ss_quotaExceeded (sessionStorage (ServiceAsync.world s)) = false →
  (∀ (c : Lesson) (s1 : ServiceAsync.Session),
     ServiceAsync.lessonCall level topic s = (Some c, s1) ∨
     (∃ k l t, ServiceAsync.inFlight s !! k = Some (ServiceAsync.LessonFlight l t) ∧
               lessonCacheKey l t = lessonCacheKey level topic ∧
               s1 = ServiceAsync.step s (ServiceAsync.ResumeLesson k (Some c))) →
     ServiceAsync.quietFor (lessonCacheKey level topic) s1 →
     let s2 := ServiceAsync.run s1 between in
     ServiceAsync.lessonCall level topic s2 = (Some c, s2)) ∧
  (∀ (c : Practice) (s1 : ServiceAsync.Session),
     ServiceAsync.practiceCall level topic s = (Some c, s1) ∨
     (∃ k l t, ServiceAsync.inFlight s !! k = Some (ServiceAsync.PracticeFlight l t) ∧
               practiceCacheKey l t = practiceCacheKey level topic ∧
               s1 = ServiceAsync.step s (ServiceAsync.ResumePractice k (Some c))) →
     ServiceAsync.quietFor (practiceCacheKey level topic) s1 →
     let s2 := ServiceAsync.run s1 between in
     ServiceAsync.practiceCall level topic s2 = (Some c, s2)) ∧
  (∀ c : Lesson,
     cacheLookup (lessonCacheKey level topic) (ServiceAsync.world s) = Some c →
     ServiceAsync.lessonCall level topic s = (Some c, s)) ∧
  (∀ c : Practice,
     cacheLookup (practiceCacheKey level topic) (ServiceAsync.world s) = Some c →
     ServiceAsync.practiceCall level topic s = (Some c, s)) ∧
  (generatorCalls (ServiceAsync.world
     (ServiceAsync.lessonCall (Lesson := Lesson) level topic s).2)
     ≤ S (generatorCalls (ServiceAsync.world s))) ∧
  (generatorCalls (ServiceAsync.world
     (ServiceAsync.practiceCall (Practice := Practice) level topic s).2)
     ≤ S (generatorCalls (ServiceAsync.world s))) ∧
  (∀ k (r : option Lesson),
     generatorCalls (ServiceAsync.world
       (ServiceAsync.step (Practice := Practice) s (ServiceAsync.ResumeLesson k r)))
     = generatorCalls (ServiceAsync.world s)) ∧
  (∀ k (r : option Practice),
     generatorCalls (ServiceAsync.world
       (ServiceAsync.step (Lesson := Lesson) s (ServiceAsync.ResumePractice k r)))
     = generatorCalls (ServiceAsync.world s)).
Proof.
  intros Hq.
  split; [|split; [|split; [|split; [|split; [|split; [|split]]]]]].
  - intros c s1 Hfirst Hquiet s2. apply lessonCall_hit.
    apply run_held_lesson; [|done].
    destruct Hfirst as [Hhit|(k & l & t & Hk & Hkey & ->)].
    + unfold ServiceAsync.lessonCall in Hhit.
      destruct (cacheLookup (lessonCacheKey level topic) (ServiceAsync.world s)) eqn:Hc;
        by simplify_eq.
    + simpl. rewrite Hk. simpl. rewrite Hkey. by apply cacheLookup_cacheStore.
  - intros c s1 Hfirst Hquiet s2. apply practiceCall_hit.
    apply run_held_practice; [|done].
    destruct Hfirst as [Hhit|(k & l & t & Hk & Hkey & ->)].
    + unfold ServiceAsync.practiceCall in Hhit.
      destruct (cacheLookup (practiceCacheKey level topic) (ServiceAsync.world s)) eqn:Hc;
        by simplify_eq.
    + simpl. rewrite Hk. simpl. rewrite Hkey. by apply cacheLookup_cacheStore.
  - intros c. apply lessonCall_hit.
  - intros c. apply practiceCall_hit.
  - unfold ServiceAsync.lessonCall.
    destruct (cacheLookup (lessonCacheKey level topic) (ServiceAsync.world s)); simpl; lia.
  - unfold ServiceAsync.practiceCall.
    destruct (cacheLookup (practiceCacheKey level topic) (ServiceAsync.world s)); simpl; lia.
  - intros k r. simpl. destruct (ServiceAsync.inFlight s !! k) as [[l t|l t]|]; try done.
    simpl. destruct r; [|done]. simpl. unfold cacheStore.
    by destruct (setItem _ _ _).
  - intros k r. simpl. destruct (ServiceAsync.inFlight s !! k) as [[l t|l t]|]; try done.
    simpl. destruct r; [|done]. simpl. unfold cacheStore.
    by destruct (setItem _ _ _).
Qed.

Lemma cache_second_fetch_witness :
  let waiting := ServiceAsync.step (Lesson := bool) (Practice := bool)
                   (ServiceAsync.idle Samples.emptyStorage)
                   (ServiceAsync.CallLesson A1 Samples.presentSimple) in
  let s1 := ServiceAsync.step waiting (ServiceAsync.ResumeLesson 0 (Some true)) in
  let between := [ ServiceAsync.CallPractice A1 Samples.presentSimple;
                   ServiceAsync.CallLesson B1 Samples.presentSimple;
                   ServiceAsync.ResumePractice 0 (Some false);
                   ServiceAsync.ResumeLesson 0 (Some false);
                   ServiceAsync.CallExam None ] in
  let s2 := ServiceAsync.run s1 between in
  ss_quotaExceeded (sessionStorage (ServiceAsync.world waiting)) = false ∧
  ServiceAsync.inFlight waiting = [ServiceAsync.LessonFlight A1 Samples.presentSimple] ∧
  ServiceAsync.quietFor (lessonCacheKey A1 Samples.presentSimple) s1 ∧
  ServiceAsync.lessonCall A1 Samples.presentSimple s2 = (Some true, s2) ∧
  generatorCalls (ServiceAsync.world s2) = 4.
Proof.
  intros waiting s1 between s2. split; [reflexivity|]. split; [reflexivity|].
  assert (ServiceAsync.quietFor (lessonCacheKey A1 Samples.presentSimple) s1) as Hquiet.
  { apply Forall_nil_2. }
  split; [exact Hquiet|]. split; [|reflexivity].
  pose proof (cache_second_fetch (Lesson := bool) (Practice := bool)
                A1 Samples.presentSimple waiting between eq_refl) as [Hlesson _].
  apply (Hlesson true s1); [|exact Hquiet].
  right. exists 0, A1, Samples.presentSimple. repeat split.
Defined.

(** Two fetches for the same level and topic that overlap both miss the
    cache and both ask the generator; each returns what its own request
    brought, and the answer that arrives last is the one the cache keeps:
    the first fetch returned [true], the next fetch returns [false]. *)
Example cache_overlapping_fetches :
  let s0 := ServiceAsync.idle Samples.emptyStorage in
  let s := ServiceAsync.run (Lesson := bool) (Practice := bool) s0
             [ ServiceAsync.CallLesson A1 Samples.presentSimple;
               ServiceAsync.CallLesson A1 Samples.presentSimple;
               ServiceAsync.ResumeLesson 0 (Some true);
               ServiceAsync.ResumeLesson 0 (Some false) ] in
  (ServiceAsync.lessonResume A1 Samples.presentSimple (Some true)
     (ServiceAsync.world s0)).1 = Ok true ∧
  ServiceAsync.lessonCall A1 Samples.presentSimple s = (Some false, s) ∧
  generatorCalls (ServiceAsync.world s) = 2.
Proof. repeat split. Qed.

(** C3 as stated fails where session storage refuses the write: the first
    fetch returns its content uncached, and the second fetch for the same
    level and topic asks the generator again and returns what it answers
    then. *)
Lemma cache_refused_write_refetches :
  ∃ w1 w2,
    generateLessonContent A1 Samples.presentSimple (Some true) Samples.fullStorage
      = (Ok true, w1) ∧
    generateLessonContent A1 Samples.presentSimple (Some false) w1 = (Ok false, w2) ∧
    generatorCalls w1 = 1 ∧ generatorCalls w2 = 2.
Proof. eexists _, _. repeat split. Qed.

End ServiceFacts.

(* ===================================================================== *)
(** ** Theorems: the exam view *)
(* ===================================================================== *)

Module ExamFacts.
Import Service ExamView.

(** *** The score *)

Lemma reduceScore_scoreFrom (qs : list QuizQuestion) (ans : list Slot) :
  ∀ k acc, k + length ans ≤ length qs →
    reduceScore qs k ans acc = Some (acc + scoreFrom qs k ans).
Proof.
  induction ans as [|a rest IH]; intros k acc Hlen; simpl in *.
  - f_equal. lia.
  - destruct (lookup_lt_is_Some_2 qs k) as [q Hq]; [lia|].
    rewrite Hq.
    destruct a; simpl; rewrite IH by lia; f_equal; try lia.
    destruct (String.eqb s (correctAnswer q)); lia.
Qed.

Lemma scoreFrom_filter (qs : list QuizQuestion) (ans : list Slot) :
  ∀ pre, scoreFrom qs (length pre) ans =
    length (List.filter (correctAt qs (pre ++ ans)) (seq (length pre) (length ans))).
Proof.
  induction ans as [|a rest IH]; intros pre; simpl; [done|].
  specialize (IH (pre ++ [a])). rewrite length_app in IH. simpl in IH.
  replace (length pre + 1) with (S (length pre)) in IH by lia.
  rewrite <- (assoc_L (++)) in IH. simpl in IH. rewrite IH.
  unfold correctAt at 2.
  rewrite list_lookup_middle by done.
  destruct (qs !! length pre) as [q|]; [|done].
  by destruct (slotIs a (correctAnswer q)).
Qed.

Lemma reduceScore_countCorrect (qs : list QuizQuestion) (ans : list Slot) :
  length ans ≤ length qs → reduceScore qs 0 ans 0 = Some (countCorrect qs ans).
Proof.
  intros Hlen. rewrite reduceScore_scoreFrom by (simpl; lia). simpl.
  f_equal. exact (scoreFrom_filter qs ans []).
Qed.

Lemma length_spread (l : list Slot) : length (spread l) = length l.
Proof. unfold spread. by rewrite length_fmap. Qed.

Lemma length_assign_lt (i : nat) (v : Slot) (l : list Slot) :
  i < length l → length (assign i v l) = length l.
Proof. intros Hi. unfold assign. rewrite decide_True by done. apply length_insert. Qed.

Lemma length_assign_spread (i : nat) (v : Slot) (l : list Slot) :
  i < length l → length (assign i v (spread l)) = length l.
Proof.
  intros Hi. rewrite length_assign_lt; rewrite length_spread; done.
Qed.

(** *** What each screen says about the state *)

Lemma render_Running (st : State) (q : QuizQuestion) (b : bool) :
  render st = Running q b →
  ∃ qs, questions st = Some qs ∧ qs !! currentQuestionIndex st = Some q ∧
        isLoading st = false ∧ examStarted st = true ∧ examFinished st = false.
Proof.
  unfold render. intros Hr.
  repeat case_match; simplify_eq.
  eexists. repeat split; try done.
  - by destruct (examStarted st).
Qed.

Lemma render_StartScreen (st : State) :
  render st = StartScreen →
  is_Some (questions st) ∧ isLoading st = false ∧ examStarted st = false.
Proof.
  unfold render. intros Hr.
  repeat case_match; simplify_eq.
  repeat split; try done. by destruct (examStarted st).
Qed.

Lemma render_Loading (st : State) : render st = Loading → isLoading st = true.
Proof. unfold render. intros Hr. repeat case_match; simplify_eq. done. Qed.

(** *** The invariant of a mounted exam view *)

Lemma spread_stored (l : list Slot) :
  Forall (λ a, isStored a = true) l → spread l = l.
Proof.
  induction 1 as [|a l Ha Hl IH]; [done|].
  unfold spread in *. rewrite fmap_cons, IH. by destruct a.
Qed.

Lemma assign_lt (i : nat) (v : Slot) (l : list Slot) :
  i < length l → assign i v l = <[i := v]> l.
Proof. intros Hi. unfold assign. by rewrite decide_True. Qed.

Lemma mount_Inv (a0 : App.State) : Inv a0 (mount a0).
Proof. split; simpl; try done. by intros [|]. Qed.

Lemma calculateScore_Some (a0 : App.State) (s : Store) (qs : list QuizQuestion) :
  Inv a0 s → questions (view s) = Some qs →
  calculateScore (view s) = Some (countCorrect qs (answers (view s))).
Proof.
  intros HI Hq. unfold calculateScore. rewrite Hq.
  apply reduceScore_countCorrect. by rewrite (inv_length _ _ HI qs Hq).
Qed.

Lemma finishExam_Inv (a0 : App.State) (now : string) (s : Store) :
  Inv a0 s → examFinished (view s) = false → isLoading (view s) = false →
  is_Some (questions (view s)) →
  Inv a0 (finishExam s now s).
Proof.
  intros HI Hopen Hload [qs Hq]. unfold finishExam.
  rewrite Hq, (calculateScore_Some a0 s qs HI Hq).
  split; simpl.
  - apply HI.
  - apply HI.
  - intros _. by eexists.
  - by rewrite Hload.
  - done.
  - intros _. rewrite (inv_open _ _ HI Hopen). by eexists _, _, _.
Qed.

Lemma dispatch_Inv (a0 : App.State) (now : string) (e : Event) (s : Store) :
  Inv a0 s → Inv a0 (dispatch now e s).
Proof.
  intros HI. unfold dispatch.
  destruct e; destruct (render (view s)) eqn:Hr; try done.
  - (* ExamSettled *)
    apply render_Loading in Hr.
    destruct (inv_loading _ _ HI Hr) as [Hs Hf].
    destruct r as [qs|msg]; split; simpl; try apply HI; try done.
    + intros qs' [= <-]. unfold fillNull. by rewrite length_replicate.
    + unfold fillNull. by apply Forall_replicate.
    + by rewrite Hf.
  - (* ClickStart *)
    apply render_StartScreen in Hr as (Hq & Hl & _).
    split; simpl; try apply HI; try done. by rewrite Hl.
  - (* ClickOption *)
    case_bool_decide; [|done].
    apply render_Running in Hr as (qs & Hq & Hidx & _).
    assert (currentQuestionIndex (view s) < length (answers (view s))) as Hlt.
    { rewrite (inv_length _ _ HI qs Hq). by eapply lookup_lt_Some. }
    split; simpl; try apply HI.
    + intros qs' Hq'. rewrite Hq in Hq'. simplify_eq.
      rewrite length_assign_spread by done. by apply HI.
    + rewrite (spread_stored _ (inv_slots _ _ HI)), assign_lt by done.
      apply Forall_insert; [apply HI|done].
  - (* ClickPrev *)
    case_bool_decide; [done|]. unfold handlePrev.
    case_decide; split; simpl; apply HI.
  - (* ClickNext *)
    destruct lastQuestion; [done|]. unfold handleNext.
    destruct (questions (view s)) eqn:Hq; [|split; simpl; apply HI].
    case_decide; split; simpl; apply HI.
  - (* ClickFinish *)
    destruct lastQuestion; [|done].
    apply render_Running in Hr as (qs & Hq & _ & Hl & _ & Hopen).
    apply finishExam_Inv; [done..|by eexists].
  - (* Tick *)
    case_decide; [|done]. split; simpl; apply HI.
Qed.

Lemma commit_Inv (a0 : App.State) (now : string) (s : Store) :
  Inv a0 s → Inv a0 (commit now s).
Proof.
  intros HI. unfold commit, timerEffect.
  destruct (render (view s)); try done;
    (destruct (examStarted (view s)) eqn:Hs; simpl; [|done];
     destruct (examFinished (view s)) eqn:Hf; simpl; [done|];
     case_decide; [|done];
     apply finishExam_Inv; [done|done| |apply HI; by left];
     destruct (isLoading (view s)) eqn:Hl; [|done];
     destruct (inv_loading _ _ HI Hl); congruence).
Qed.

Lemma step_Inv (a0 : App.State) (now : string) (e : Event) (s : Store) :
  Inv a0 s → Inv a0 (step now e s).
Proof. intros HI. by apply commit_Inv, dispatch_Inv. Qed.

Lemma run_Inv (a0 : App.State) (trace : list (string * Event)) :
  ∀ s, Inv a0 s → Inv a0 (run trace s).
Proof.
  induction trace as [|[now e] rest IH]; intros s HI; simpl; [done|].
  by apply IH, step_Inv.
Qed.

(** *** C4: the score *)





(** *** C9: the exam fetch *)

(** C9 (as the code has it).  A successful exam fetch hands over the quiz
    list exactly as the generator sent it, in order and of whatever length,
    after one request.  The countdown starts at 30 * 60 seconds, and settling
    the fetch stores the questions and an answers array of the same length
    whose every slot is [null]. *)
Theorem exam_fetch_shape (response : option (list QuizQuestion)) (w w' : World)
    (qs : list QuizQuestion) :
  generateExam response w = (Ok qs, w') →
  response = Some qs ∧
  generatorCalls w' = S (generatorCalls w) ∧
  timeLeft initialState = (30 * 60)%Z ∧
  let st := fetchExamSettled (Ok qs) initialState in
  questions st = Some qs ∧
  timeLeft st = 1800%Z ∧
  length (answers st) = length qs ∧
  (∀ i, i < length qs → answers st !! i = Some Null).
Proof.
  unfold generateExam. destruct response as [quiz|]; [|done].
  intros [= <- <-]. simpl. repeat split.
  - unfold fillNull. by rewrite length_replicate.
  - intros i Hi. unfold fillNull. by apply lookup_replicate_2.
Qed.

(** *** C1: finishing the exam *)

Lemma persistUserUpdate_twice (u1 u2 : User) (ls : App.LocalStorage) :
  name u1 = name u2 →
  App.persistUserUpdate u2 (App.persistUserUpdate u1 ls) = App.persistUserUpdate u2 ls.
Proof.
  intros Hn. unfold App.persistUserUpdate. rewrite Hn.
  destruct (App.accounts ls !! name u2) as [acc|] eqn:Hacc.
  - destruct (App.quotaExceeded ls) eqn:Hq.
    + by rewrite Hacc, Hq.
    + simpl. rewrite lookup_insert_eq. simpl. by rewrite insert_insert_eq.
  - by rewrite Hacc.
Qed.

Lemma handleSaveExamResult_twice (cu : option User) (now1 now2 : string) (sc n : nat)
    (a : App.State) :
  App.handleSaveExamResult cu now2 sc n (App.handleSaveExamResult cu now1 sc n a) =
  App.handleSaveExamResult cu now2 sc n a.
Proof.
  destruct cu as [u|]; [|done]. unfold App.handleSaveExamResult.
  unfold App.setLocalStorage, App.setUser. simpl.
  by rewrite persistUserUpdate_twice.
Qed.

Lemma finishExam_twice (c : Store) (now1 now2 : string) (s : Store) :
  finishExam c now2 (finishExam c now1 s) = finishExam c now2 s.
Proof.
  unfold finishExam.
  destruct (questions (view c)) as [qs|]; [|done].
  destruct (calculateScore (view c)) as [sc|]; [|done].
  unfold setApp, setView. simpl. by rewrite handleSaveExamResult_twice.
Qed.

Lemma dispatch_finished (now : string) (e : Event) (s : Store) :
  examFinished (view s) = true →
  examFinished (view (dispatch now e s)) = true ∧ app (dispatch now e s) = app s.
Proof.
  intros Hf. unfold dispatch.
  destruct e; destruct (render (view s)) eqn:Hr; try done;
    try (apply render_Running in Hr as (? & ? & ? & ? & ? & ?); congruence).
  by destruct r.
Qed.

Lemma commit_finished (now : string) (s : Store) :
  examFinished (view s) = true → commit now s = s.
Proof.
  intros Hf. unfold commit, timerEffect. rewrite Hf, orb_true_r.
  by destruct (render (view s)).
Qed.

Lemma step_finished (now : string) (e : Event) (s : Store) :
  examFinished (view s) = true →
  examFinished (view (step now e s)) = true ∧ app (step now e s) = app s.
Proof.
  intros Hf. unfold step.
  destruct (dispatch_finished now e s Hf) as [Hf' Ha].
  by rewrite commit_finished.
Qed.

Lemma finishExam_finished (c : Store) (now : string) (s : Store) :
  examFinished (view (finishExam c now s)) = true.
Proof.
  unfold finishExam. destruct (questions (view c)); [|done].
  by destruct (calculateScore (view c)).
Qed.

Lemma explicit_finish (now : string) (s : Store) (q : QuizQuestion) :
  render (view s) = Running q true →
  examFinished (view (step now ClickFinish s)) = true.
Proof.
  intros Hr. unfold step, dispatch. rewrite Hr.
  rewrite commit_finished; apply finishExam_finished.
Qed.

Lemma timeout_finish (now : string) (s : Store) (q : QuizQuestion) (b : bool) :
  render (view s) = Running q b → timeLeft (view s) = 1%Z →
  examFinished (view (step now Tick s)) = true.
Proof.
  intros Hr Ht. unfold step, dispatch. rewrite Hr, Ht.
  rewrite decide_True by lia.
  apply render_Running in Hr as (qs & Hq & Hidx & Hl & Hs & Hf).
  unfold commit, timerEffect, render. simpl.
  rewrite Hl, Hq, Hs, Hf, Hidx, Ht. simpl.
  destruct (truthy (error (view s))); apply finishExam_finished.
Qed.

(** A finish request that arrives once the exam is finished reaches no
    handler: the Finish button is on the running screen only, and the timer
    effect returns before anything else when [examFinished] is set. *)
Lemma finish_request_ignored (now : string) (e : Event) (s : Store) :
  examFinished (view s) = true → e = ClickFinish ∨ e = Tick →
  step now e s = s.
Proof.
  intros Hf He. unfold step.
  assert (dispatch now e s = s) as ->; [|by apply commit_finished].
  unfold dispatch.
  destruct He as [-> | ->]; destruct (render (view s)) eqn:Hr; try done;
    apply render_Running in Hr as (? & ? & ? & ? & ? & ?); congruence.
Qed.

(** C1.  Over any sequence of events of a mounted exam view the [App] state
    is the initial one while the exam is unfinished and, once it is
    finished, the initial one after exactly one [handleSaveExamResult]: the
    history is the initial history followed by one result whose total is the
    number of questions.  Both routes finish the exam: the Finish button on
    the last question, and the tick that takes the countdown to zero.  Once
    the exam is finished, a further finish request by either route changes
    nothing at all, and every other event leaves [examFinished] set and the
    [App] state untouched; two [finishExam] calls made by the same render
    leave the store that the later call alone would leave. *)
Theorem exam_single_result (a0 : App.State) (u : User) (trace : list (string * Event)) :
  App.user a0 = Some u →
  let s := run trace (mount a0) in
  (examFinished (view s) = false → app s = a0) ∧
  (examFinished (view s) = true →
     ∃ now sc qs, questions (view s) = Some qs ∧
       app s = App.handleSaveExamResult (Some u) now sc (length qs) a0 ∧
       App.historyOf (app s) =
         App.historyOf a0 ++ [{| date := now; score := sc; total := length qs |}]) ∧
  (∀ now e, examFinished (view s) = true →
     examFinished (view (step now e s)) = true ∧ app (step now e s) = app s) ∧
  (∀ now, examFinished (view s) = true →
     step now ClickFinish s = s ∧ step now Tick s = s) ∧
  (∀ now1 now2 s', finishExam s now2 (finishExam s now1 s') = finishExam s now2 s') ∧
  (∀ now q, render (view s) = Running q true →
     examFinished (view (step now ClickFinish s)) = true) ∧
  (∀ now q b, render (view s) = Running q b → timeLeft (view s) = 1%Z →
     examFinished (view (step now Tick s)) = true).
Proof.
  intros Hu s.
  pose proof (run_Inv a0 trace _ (mount_Inv a0)) as HI. fold s in HI.
  split; [apply HI|].
  split.
  { intros Hf. destruct (inv_done _ _ HI Hf) as (now & sc & qs & Hq & Happ).
    exists now, sc, qs. rewrite Hu in Happ. split; [done|]. split; [done|].
    rewrite Happ. unfold App.historyOf. by rewrite Hu. }
  split; [intros now e; apply step_finished|].
  split; [intros now Hf; split; apply finish_request_ignored; auto|].
  split; [intros; apply finishExam_twice|].
  split; [intros now q; apply explicit_finish|].
  intros now q b. apply timeout_finish.
Qed.


Lemma exam_fetch_shape_witness :
  ∃ w',
    generateExam (Some [Samples.q1; Samples.q2]) Samples.emptyStorage
      = (Ok [Samples.q1; Samples.q2], w') ∧
    generatorCalls w' = 1 ∧
    answers (fetchExamSettled (Ok [Samples.q1; Samples.q2]) initialState) !! 1 = Some Null.
Proof.
  eexists. split; [reflexivity|].
  destruct (exam_fetch_shape (Some [Samples.q1; Samples.q2]) Samples.emptyStorage _
              [Samples.q1; Samples.q2] eq_refl) as (_ & Hcalls & _ & _ & _ & _ & Hnull).
  split; [exact Hcalls|]. apply Hnull. simpl. lia.
Defined.

(** C9 as stated fails: a fetch succeeds with however many questions the
    generator sent, here one, and the view then holds that one question. *)
Lemma exam_fetch_of_one_question :
  ∃ w' qs,
    generateExam (Some [Samples.q1]) Samples.emptyStorage = (Ok qs, w') ∧
    length qs ≠ 25 ∧
    questions (fetchExamSettled (Ok qs) initialState) = Some [Samples.q1].
Proof. eexists _, _. split; [reflexivity|]. split; [simpl; lia|reflexivity]. Qed.

Lemma exam_single_result_witness :
  let s := run Samples.examRun (mount Samples.inExam) in
  App.user Samples.inExam = Some Samples.learner ∧
  examFinished (view s) = true ∧
  (∃ r, App.historyOf (app s) = App.historyOf Samples.inExam ++ [r]) ∧
  step "2026-01-01T10:00:21.000Z" ClickFinish s = s ∧
  step "2026-01-01T10:00:21.000Z" Tick s = s.
Proof.
  intros s. split; [reflexivity|]. split; [reflexivity|].
  destruct (exam_single_result Samples.inExam Samples.learner Samples.examRun eq_refl)
    as (_ & Hdone & _ & Hagain & _).
  destruct (Hdone eq_refl) as (now & sc & qs & _ & _ & Hh).
  split; [eexists; exact Hh|]. exact (Hagain _ eq_refl).
Defined.

(** The time-out of the specification's scenario: one second left, nothing
    answered, 25 questions. *)
Example exam_timeout :
  let qs := replicate 25 Samples.q1 in
  let s := {| view := {| questions := Some qs; isLoading := false; error := None;
                         examStarted := true; examFinished := false; timeLeft := 1;
                         currentQuestionIndex := 0; answers := fillNull 25 |};
              app := Samples.inExam |} in
  let s' := step "2026-01-01T10:30:05.000Z" Tick s in
  examFinished (view s') = true ∧
  App.historyOf (app s') =
    [{| date := "2026-01-01T10:30:05.000Z"; score := 0; total := 25 |}].
Proof. split; reflexivity. Qed.

End ExamFacts.

(* ===================================================================== *)
(** ** Theorems: the topic view *)
(* ===================================================================== *)

Module TopicFacts.
Import Service TopicView.

(** *** C6: the vocabulary toggle *)

Lemma includes_true {A} `{EqDecision A} (l : list A) (x : A) :
  includes l x = true ↔ x ∈ l.
Proof. unfold includes. by rewrite bool_decide_eq_true. Qed.

Lemma includes_false {A} `{EqDecision A} (l : list A) (x : A) :
  includes l x = false ↔ x ∉ l.
Proof. unfold includes. by rewrite bool_decide_eq_false. Qed.

Lemma elem_of_js_filter_neq (l : list string) (w x : string) :
  x ∈ js_filter (λ word, negb (String.eqb word w)) l ↔ x ≠ w ∧ x ∈ l.
Proof.
  unfold js_filter. rewrite !list_elem_of_In, filter_In.
  destruct (String.eqb_spec x w); simpl; intuition congruence.
Qed.

Lemma NoDup_js_filter {A} (p : A → bool) (l : list A) :
  NoDup l → NoDup (js_filter p l).
Proof.
  unfold js_filter. rewrite !NoDup_ListNoDup. apply List.NoDup_filter.
Qed.

Lemma js_filter_absent (l : list string) (w : string) :
  w ∉ l → js_filter (λ word, negb (String.eqb word w)) l = l.
Proof.
  unfold js_filter. induction l as [|y l IH]; intros Hw; simpl; [done|].
  apply not_elem_of_cons in Hw as [Hne Hw].
  destruct (String.eqb_spec y w); [congruence|]. simpl. by rewrite IH.
Qed.

Lemma js_filter_app {A} (p : A → bool) (l k : list A) :
  js_filter p (l ++ k) = js_filter p l ++ js_filter p k.
Proof. unfold js_filter. apply List.filter_app. Qed.

Lemma elem_of_toggled (l : list string) (w x : string) :
  x ∈ toggled l w ↔ (x ≠ w ∧ x ∈ l) ∨ (x = w ∧ w ∉ l).
Proof.
  unfold toggled. destruct (includes l w) eqn:Hi.
  - apply includes_true in Hi. rewrite elem_of_js_filter_neq. tauto.
  - apply includes_false in Hi. rewrite elem_of_app, list_elem_of_singleton.
    destruct (decide (x = w)) as [->|]; tauto.
Qed.

Lemma toggled_twice_set (l : list string) (w x : string) :
  x ∈ toggled (toggled l w) w ↔ x ∈ l.
Proof.
  rewrite !elem_of_toggled.
  destruct (decide (x = w)) as [->|]; destruct (decide (w ∈ l)); tauto.
Qed.

Lemma NoDup_toggled (l : list string) (w : string) :
  NoDup l → NoDup (toggled l w).
Proof.
  intros Hnd. unfold toggled. destruct (includes l w) eqn:Hi.
  - by apply NoDup_js_filter.
  - apply includes_false in Hi. apply NoDup_app. repeat split; [done| |apply NoDup_singleton].
    intros x Hx Hx'. apply list_elem_of_singleton in Hx'. by subst.
Qed.

Lemma toggled_twice_absent (l : list string) (w : string) :
  w ∉ l → toggled (toggled l w) w = l.
Proof.
  intros Hw. unfold toggled at 2.
  apply includes_false in Hw as Hi. rewrite Hi.
  unfold toggled.
  assert (includes (l ++ [w]) w = true) as ->.
  { apply includes_true. set_solver. }
  rewrite js_filter_app, js_filter_absent by done.
  unfold js_filter. simpl. rewrite String.eqb_refl. simpl. by rewrite app_nil_r.
Qed.

Lemma js_filter_perm (l : list string) (w : string) :
  NoDup l → w ∈ l → js_filter (λ word, negb (String.eqb word w)) l ++ [w] ≡ₚ l.
Proof.
  unfold js_filter. induction l as [|y l IH]; intros Hnd Hw; [by apply elem_of_nil in Hw|].
  apply NoDup_cons in Hnd as [Hy Hnd]. simpl.
  destruct (String.eqb_spec y w) as [->|Hne]; simpl.
  - fold (js_filter (λ word, negb (String.eqb word w)) l).
    rewrite js_filter_absent by done.
    by rewrite <- Permutation_cons_append.
  - apply elem_of_cons in Hw as [?|Hw]; [congruence|].
    by rewrite IH.
Qed.

Lemma toggled_twice_perm (l : list string) (w : string) :
  NoDup l → toggled (toggled l w) w ≡ₚ l.
Proof.
  intros Hnd. destruct (decide (w ∈ l)) as [Hw|Hw].
  - unfold toggled at 2. apply includes_true in Hw as Hi. rewrite Hi.
    unfold toggled.
    assert (includes (js_filter (λ word, negb (String.eqb word w)) l) w = false) as ->.
    { apply includes_false. rewrite elem_of_js_filter_neq. tauto. }
    by apply js_filter_perm.
  - by rewrite toggled_twice_absent.
Qed.

Lemma NoDup_toggles (ws : list string) : NoDup (foldl toggled [] ws).
Proof.
  assert (∀ l, NoDup l → NoDup (foldl toggled l ws)) as Hgen.
  { induction ws as [|w ws IH]; intros l Hl; simpl; [done|].
    by apply IH, NoDup_toggled. }
  apply Hgen, NoDup_nil_2.
Qed.

Lemma progressOf_fresh (topic : Topic) (v : State) (u : User) (p : TopicProgress)
    (a : App.State) :
  progressOf topic
    {| r_view := v;
       r_user := App.user (App.handleProgressUpdate (Some u) (id topic) p a) |} = p.
Proof. unfold progressOf. simpl. by rewrite lookup_insert_eq. Qed.

(** C6. Toggling a word removes it from [completedVocabulary] when it is
    there and adds it otherwise, leaving every other word alone; a list
    without duplicates stays without duplicates; toggling the same word twice
    gives back the same set of words (a permutation of the list, and the very
    same list when the word was absent); [handleVocabToggle] stores exactly
    this list, keeping [completedSections]; and no sequence of toggles
    starting from the empty list produces a duplicate. *)
Theorem vocabulary_toggle (topic : Topic) (l : list string) (w : string) :
  NoDup l →
  (w ∈ l → w ∉ toggled l w) ∧
  (w ∉ l → w ∈ toggled l w) ∧
  (∀ x, x ≠ w → (x ∈ toggled l w ↔ x ∈ l)) ∧
  NoDup (toggled l w) ∧
  (∀ x, x ∈ toggled (toggled l w) w ↔ x ∈ l) ∧
  toggled (toggled l w) w ≡ₚ l ∧
  (w ∉ l → toggled (toggled l w) w = l) ∧
  (∀ (c : Render) (u : User) (a : App.State),
     r_user c = Some u → completedVocabulary (progressOf topic c) = l →
     progressOf topic
       {| r_view := r_view c; r_user := App.user (handleVocabToggle topic c w a) |} =
     {| completedVocabulary := toggled l w;
        completedSections := completedSections (progressOf topic c) |}) ∧
  (∀ ws : list string, NoDup (foldl toggled [] ws)).
Proof.
  intros Hnd.
  split; [rewrite elem_of_toggled; tauto|].
  split; [rewrite elem_of_toggled; tauto|].
  split; [intros x Hx; rewrite elem_of_toggled; tauto|].
  split; [by apply NoDup_toggled|].
  split; [intros x; apply toggled_twice_set|].
  split; [by apply toggled_twice_perm|].
  split; [apply toggled_twice_absent|].
  split; [|apply NoDup_toggles].
  intros c u a Hu Hl. unfold handleVocabToggle, handleProgressUpdate.
  by rewrite Hu, progressOf_fresh, Hl.
Qed.

(** *** C7: marking a section complete *)

Lemma markComplete_present (topic : Topic) (c : Render) (section : ContentSectionType)
    (a : App.State) :
  section ∈ completedSections (progressOf topic c) → markComplete topic c section a = a.
Proof.
  intros Hin. unfold markComplete.
  apply includes_true in Hin. by rewrite Hin.
Qed.

Lemma markComplete_rerun (topic : Topic) (c : Render) (section : ContentSectionType)
    (a : App.State) :
  r_user c = App.user a →
  let a1 := markComplete topic c section a in
  markComplete topic {| r_view := r_view c; r_user := App.user a1 |} section a1 = a1.
Proof.
  intros Hfresh. simpl.
  destruct (includes (completedSections (progressOf topic c)) section) eqn:Hi.
  - assert (markComplete topic c section a = a) as ->.
    { unfold markComplete. by rewrite Hi. }
    rewrite <- Hfresh. destruct c as [v cu]. simpl.
    unfold markComplete. by rewrite Hi.
  - destruct (r_user c) as [u|] eqn:Hu.
    + assert (markComplete topic c section a =
              App.handleProgressUpdate (Some u) (id topic)
                (mergeProgress (progressOf topic c)
                   {| u_completedVocabulary := None;
                      u_completedSections :=
                        Some (completedSections (progressOf topic c) ++ [section]) |}) a) as ->.
      { unfold markComplete, handleProgressUpdate. by rewrite Hi, Hu. }
      apply markComplete_present. rewrite progressOf_fresh. simpl. set_solver.
    + assert (markComplete topic c section a = a) as ->.
      { unfold markComplete, handleProgressUpdate. rewrite Hi, Hu. done. }
      rewrite <- Hfresh. unfold markComplete, handleProgressUpdate, progressOf. simpl.
      by destruct (includes _ _).
Qed.

(** *** C5: submitting a task answer *)

Lemma trimStart_nil (l : list (N * list ascii)) :
  trimStart l = [] ↔ Forall (λ c, isWhiteSpace c.1 = true) l.
Proof.
  induction l as [|c l IH]; simpl; [by split|].
  destruct (isWhiteSpace c.1) eqn:Hc.
  - rewrite IH. split; [by constructor|by inversion 1].
  - split; [done|]. inversion 1; congruence.
Qed.

Lemma trimStart_idem (l : list (N * list ascii)) : trimStart (trimStart l) = trimStart l.
Proof.
  induction l as [|c l IH]; simpl; [done|].
  destruct (isWhiteSpace c.1) eqn:Hc; [done|]. simpl. by rewrite Hc.
Qed.

Lemma trimStart_sublist (l : list (N * list ascii)) : trimStart l ⊆ l.
Proof.
  induction l as [|c l IH]; simpl; [done|].
  destruct (isWhiteSpace c.1); [|done]. intros x Hx. right. by apply IH.
Qed.

(** Every character read from a text has at least one byte. *)
Lemma characters_bytes (n : nat) :
  ∀ l, length l ≤ n → Forall (λ c, c.2 ≠ []) (characters l).
Proof.
  induction n as [|n IH]; intros l Hlen.
  - destruct l; [constructor|simpl in Hlen; lia].
  - destruct l as [|b0 [|b1 [|b2 [|b3 r3]]]]; simpl in *;
      repeat case_match;
      repeat (first [ apply Forall_nil_2 | apply Forall_cons_2; [done|] ]);
      apply IH; simpl in *; lia.
Qed.

Lemma concat_bytes_nil (l : list (N * list ascii)) :
  Forall (λ c, c.2 ≠ []) l → concat (snd <$> l) = [] → l = [].
Proof.
  destruct 1 as [|c l Hc Hl]; [done|]. simpl. intros Happ.
  apply app_eq_nil in Happ as [? _]. done.
Qed.

(** A text is blank exactly when all its characters are white space. *)
Lemma blank_spec (s : string) :
  blank s = true ↔
  Forall (λ c, isWhiteSpace c.1 = true) (characters (list_ascii_of_string s)).
Proof.
  unfold blank, trim. rewrite String.eqb_eq.
  set (l := characters (list_ascii_of_string s)).
  assert (Forall (λ c, c.2 ≠ []) l) as Hbytes by by eapply characters_bytes.
  rewrite <- trimStart_nil.
  split.
  - intros Hnil.
    apply (f_equal list_ascii_of_string) in Hnil.
    rewrite list_ascii_of_string_of_list_ascii in Hnil. simpl in Hnil.
    apply concat_bytes_nil in Hnil.
    + apply (f_equal reverse) in Hnil. rewrite reverse_involutive in Hnil.
      change (reverse []) with (@nil (N * list ascii)) in Hnil.
      apply trimStart_nil, Forall_reverse in Hnil.
      rewrite reverse_involutive in Hnil.
      apply trimStart_nil in Hnil. by rewrite trimStart_idem in Hnil.
    + apply Forall_forall. intros c Hc. rewrite elem_of_reverse in Hc.
      apply trimStart_sublist in Hc. rewrite elem_of_reverse in Hc.
      apply trimStart_sublist in Hc. by eapply Forall_forall in Hbytes.
  - intros ->. done.
Qed.

(** The white space beyond ASCII is stripped too: a no-break space, a
    line separator and a byte order mark make a blank text, and a no-break
    space around a word is trimmed away. *)
Example blank_unicode :
  blank (String (ascii_of_nat 194) (String (ascii_of_nat 160) EmptyString)) = true ∧
  blank (String (ascii_of_nat 160) EmptyString) = true ∧
  blank (String (ascii_of_nat 226) (String (ascii_of_nat 128)
           (String (ascii_of_nat 168) EmptyString))) = true ∧
  blank (String (ascii_of_nat 239) (String (ascii_of_nat 187)
           (String (ascii_of_nat 191) EmptyString))) = true ∧
  trim (String (ascii_of_nat 194) (String (ascii_of_nat 160)
          (String "a" (String " " EmptyString)))) = String "a" EmptyString ∧
  blank (String (ascii_of_nat 195) (String (ascii_of_nat 160) EmptyString)) = false.
Proof. repeat split. Qed.

(** The guard on the check button: a click changes nothing when the typed
    answer is missing, empty or blank, or the feedback entry of the task
    shows an evaluation loading or settled. *)
Lemma check_guard (topic : Topic) (index : nat) (s : Store) :
  blank (default EmptyString (userAnswers (view s) !! index)) = true ∨
  (∃ fb, taskFeedback (view s) !! index = Some fb) →
  step topic (ClickCheckAnswer index) s = s.
Proof.
  intros Hrej. simpl. unfold clickCheckAnswer.
  destruct (tasksShown (view s) ≫= _) as [task|]; [|done].
  assert (checkDisabled (view s) index = true) as ->; [|done].
  unfold checkDisabled, feedbackLoading, isChecked.
  destruct Hrej as [Hb|(fb & Hfb)].
  - by rewrite Hb.
  - rewrite Hfb. destruct (loading fb); by rewrite ?orb_true_r.
Qed.

Lemma feedbackLoading_entry (st : State) (i : nat) :
  feedbackLoading st i = true →
  ∃ fb, taskFeedback st !! i = Some fb ∧ loading fb = true.
Proof.
  unfold feedbackLoading. destruct (taskFeedback st !! i) as [fb|]; [|done].
  intros Hl. by exists fb.
Qed.

Lemma checkDisabled_false (st : State) (i : nat) :
  checkDisabled st i = false → taskFeedback st !! i = None.
Proof.
  unfold checkDisabled, feedbackLoading, isChecked.
  destruct (taskFeedback st !! i) as [fb|]; [|done].
  destruct (loading fb); simpl; by rewrite ?orb_true_r.
Qed.

Lemma elem_of_delete_list {A} (l : list A) (k : nat) (y : A) :
  y ∈ delete k l → y ∈ l.
Proof.
  revert k. induction l as [|x l IH]; intros [|k]; simpl; try done.
  - by right.
  - intros Hy. apply elem_of_cons in Hy as [-> | Hy]; [by left|right; by eapply IH].
Qed.

Lemma NoDup_delete_lookup {A} (l : list A) (k : nat) (x : A) :
  NoDup l → l !! k = Some x → (x ∉ delete k l) ∧ NoDup (delete k l).
Proof.
  intros Hnd Hk. rewrite delete_take_drop.
  rewrite <- (take_drop_middle l k x Hk) in Hnd.
  apply NoDup_app in Hnd as (H1 & H2 & H3). apply NoDup_cons in H3 as [H4 H5].
  split.
  - rewrite elem_of_app. intros [Hin|Hin]; [|done]. apply (H2 x Hin). by left.
  - apply NoDup_app. split; [done|]. split; [|done].
    intros y Hy Hy'. apply (H2 y Hy). by right.
Qed.

Import TopicChecks.

(** What one event does to the evaluations under way, as long as it is not
    a practice request made while one is under way: they stay tracked, a
    new evaluation goes with a new feedback entry, and a result that is
    shown stays as it is. *)
Lemma step_Tracked (topic : Topic) (e : Event) (s : Store) :
  Tracked s → (e = ClickGenerate → checkPending s = []) →
  Tracked (step topic e s) ∧
  (e ≠ ClickGenerate →
   checkCalls (step topic e s) + size (taskFeedback (view s)) =
     checkCalls s + size (taskFeedback (view (step topic e s))) ∧
   ∀ i fb, taskFeedback (view s) !! i = Some fb → loading fb = false →
           taskFeedback (view (step topic e s)) !! i = Some fb).
Proof.
  intros HT Hcalm. pose proof HT as [Hnd Hload].
  assert (Tracked s ∧
          (e ≠ ClickGenerate →
           checkCalls s + size (taskFeedback (view s)) =
             checkCalls s + size (taskFeedback (view s)) ∧
           ∀ i fb, taskFeedback (view s) !! i = Some fb → loading fb = false →
                   taskFeedback (view s) !! i = Some fb)) as Hsame by done.
  destruct e; simpl; try exact Hsame.
  - destruct (lessonPending s); [|exact Hsame]. by destruct r.
  - destruct (practicePending s) as [|c rest]; [exact Hsame|]. by destruct r.
  - destruct (checkPending s !! k) as [[i c]|] eqn:Hk; [|exact Hsame].
    assert (checking s !! k = Some i) as Hki.
    { unfold checking. by rewrite list_lookup_fmap, Hk. }
    destruct (NoDup_delete_lookup _ _ _ Hnd Hki) as [Hout Hnd'].
    destruct (feedbackLoading_entry _ _ (Hload i (list_elem_of_lookup_2 _ _ _ Hki)))
      as (fb0 & Hfb0 & Hl0).
    assert (∀ new : Feedback,
      Tracked {| view := setTaskFeedback (λ prev, <[i := new]> prev) (view s);
                 app := app s; lessonPending := lessonPending s;
                 practicePending := practicePending s;
                 checkPending := delete k (checkPending s);
                 checkCalls := checkCalls s |} ∧
      (checkCalls s + size (taskFeedback (view s)) =
         checkCalls s + size (<[i := new]> (taskFeedback (view s))) ∧
       ∀ j fb, taskFeedback (view s) !! j = Some fb → loading fb = false →
               <[i := new]> (taskFeedback (view s)) !! j = Some fb)) as Hsettle.
    { intros new. split; [split|split].
      - unfold checking. simpl. by rewrite list_fmap_delete.
      - unfold checking. simpl. rewrite list_fmap_delete. intros j Hj.
        assert (j ≠ i) as Hne by (intros ->; done).
        unfold feedbackLoading. simpl. rewrite lookup_insert_ne by done.
        apply Hload. by eapply elem_of_delete_list.
      - rewrite map_size_insert_Some; [done|by eexists].
      - intros j fb Hj Hl. rewrite lookup_insert_ne; [done|]. intros ->.
        rewrite Hfb0 in Hj. congruence. }
    destruct r as [[text ok]|message]; simpl;
      (split; [apply Hsettle|intros _; apply Hsettle]).
  - destruct (generateShown (view s)); [|exact Hsame]. unfold handleGeneratePractice.
    destruct (isLoading_practice (r_view (renderOf s))); [exact Hsame|].
    split; [|done]. unfold Tracked, checking. simpl. rewrite (Hcalm eq_refl). simpl.
    split; [apply NoDup_nil_2|]. intros i Hi. by apply elem_of_nil in Hi.
  - destruct (vocabularyShown (view s)); [|exact Hsame]. by case_bool_decide.
  - destruct (tasksShown (view s) ≫= _); [|exact Hsame].
    by destruct (isChecked (view s) index).
  - unfold clickCheckAnswer. destruct (tasksShown (view s) ≫= _); [|exact Hsame].
    destruct (checkDisabled (view s) index) eqn:Hdis; [exact Hsame|].
    apply checkDisabled_false in Hdis.
    unfold handleCheckAnswer. simpl.
    destruct (userAnswers (view s) !! index) as [answer|]; [|exact Hsame].
    destruct (String.eqb answer EmptyString || blank answer); [exact Hsame|].
    assert (index ∉ checking s) as Hfresh.
    { intros Hin. apply Hload, feedbackLoading_entry in Hin as (fb & Hfb & _).
      congruence. }
    split; [split|intros _; split].
    + unfold checking. simpl. rewrite fmap_app. simpl. apply NoDup_app.
      split; [done|]. split; [|apply NoDup_singleton].
      intros j Hj Hj'. apply list_elem_of_singleton in Hj'. by subst.
    + unfold checking. simpl. rewrite fmap_app. simpl. intros j Hj.
      unfold feedbackLoading. simpl.
      destruct (decide (j = index)) as [->|Hne]; [by rewrite lookup_insert_eq|].
      rewrite lookup_insert_ne by done. apply Hload.
      apply elem_of_app in Hj as [Hj|Hj]; [done|].
      by apply list_elem_of_singleton in Hj.
    + simpl. rewrite map_size_insert_None by done. lia.
    + simpl. intros j fb Hj Hl. rewrite lookup_insert_ne; [done|]. congruence.
Qed.

Lemma mount_Tracked (a : App.State) : Tracked (mount a).
Proof. split; [apply NoDup_nil_2|]. intros i Hi. by apply elem_of_nil in Hi. Qed.

Lemma run_Tracked (topic : Topic) (trace : list Event) :
  ∀ s, Tracked s → Calm topic trace s → Tracked (run topic trace s).
Proof.
  induction trace as [|e rest IH]; intros s HT Hcalm; [done|].
  destruct Hcalm as [He Hrest]. simpl. apply IH; [|done].
  by apply (step_Tracked topic e s HT He).
Qed.

Lemma run_counted (topic : Topic) (trace : list Event) :
  ∀ s, Tracked s → Forall (λ e, e ≠ ClickGenerate) trace →
  Tracked (run topic trace s) ∧
  checkCalls (run topic trace s) + size (taskFeedback (view s)) =
    checkCalls s + size (taskFeedback (view (run topic trace s))) ∧
  ∀ i fb, taskFeedback (view s) !! i = Some fb → loading fb = false →
          taskFeedback (view (run topic trace s)) !! i = Some fb.
Proof.
  induction trace as [|e rest IH]; intros s HT Hall; [done|].
  apply Forall_cons in Hall as [He Hall]. simpl.
  destruct (step_Tracked topic e s HT) as (HT1 & Hstep); [done|].
  destruct (Hstep He) as [Hcount1 Hkeep1].
  destruct (IH (step topic e s) HT1 Hall) as (HT2 & Hcount2 & Hkeep2).
  split; [done|]. split; [lia|]. intros i fb Hi Hl. apply Hkeep2; [by apply Hkeep1|done].
Qed.

(** C5 (as the code has it).  A click on the check button of a task changes
    nothing (no feedback entry written, [checkUserAnswer] not invoked, no
    request left pending) whenever the typed answer is missing, empty or
    blank, or the task shows an evaluation under way or settled.  As long
    as practice is not requested again while an evaluation is under way,
    every evaluation under way shows on its task, so the click changes
    nothing whenever an evaluation of that task is in flight, and no task
    has two in flight.  And until practice is requested again, every
    evaluation requested goes with one new feedback entry and a result that
    is shown is never replaced: each task is evaluated at most once. *)
Theorem check_answer_rejected (topic : Topic) (a : App.State)
    (before after : list Event) (index : nat) :
  let s := run topic before (mount a) in
  let s' := run topic after s in
  Calm topic before (mount a) → Forall (λ e, e ≠ ClickGenerate) after →
  (blank (default EmptyString (userAnswers (view s') !! index)) = true ∨
   index ∈ checking s' ∨
   (∃ fb, taskFeedback (view s') !! index = Some fb ∧ loading fb = false) →
   step topic (ClickCheckAnswer index) s' = s' ∧
   checkCalls (step topic (ClickCheckAnswer index) s') = checkCalls s' ∧
   taskFeedback (view (step topic (ClickCheckAnswer index) s')) = taskFeedback (view s')) ∧
  NoDup (checking s') ∧
  checkCalls s' + size (taskFeedback (view s)) =
    checkCalls s + size (taskFeedback (view s')) ∧
  (∀ i fb, taskFeedback (view s) !! i = Some fb → loading fb = false →
           taskFeedback (view s') !! i = Some fb).
Proof.
  intros s s' Hcalm Hafter.
  pose proof (run_Tracked topic before (mount a) (mount_Tracked a) Hcalm) as HT.
  fold s in HT.
  destruct (run_counted topic after s HT Hafter) as ([Hnd Hload] & Hcount & Hkeep).
  fold s' in Hnd, Hload, Hcount, Hkeep.
  split; [|done].
  intros Hrej.
  assert (step topic (ClickCheckAnswer index) s' = s') as Hstep; [|by rewrite Hstep].
  apply check_guard.
  destruct Hrej as [Hb|[Hin|(fb & Hfb & _)]]; [by left| |right; by exists fb].
  right. apply Hload, feedbackLoading_entry in Hin as (fb & Hfb & _). by exists fb.
Qed.

(** The handler on its own rejects the missing, empty or blank answer and
    nothing else. *)
Lemma handleCheckAnswer_blank (c : Render) (taskIndex : nat) (task : TaskItem) (s : Store) :
  blank (default EmptyString (userAnswers (r_view c) !! taskIndex)) = true →
  handleCheckAnswer c taskIndex task s = s.
Proof.
  unfold handleCheckAnswer.
  destruct (userAnswers (r_view c) !! taskIndex) as [answer|]; [|done].
  simpl. intros ->. by rewrite orb_true_r.
Qed.

(** Invoked directly from the render of a task whose evaluation has
    settled, the handler does submit again; it is the disabled button that
    keeps this from happening. *)
Example handleCheckAnswer_unguarded :
  let s := run Samples.presentSimple Samples.evaluatedOnce (mount Samples.inTopic) in
  let task := {| instruction := "Complete the sentence:";
                 prompt := "Dana ... every day."; suggestedAnswer := "reads" |} in
  checkCalls s = 1 ∧
  checkCalls (handleCheckAnswer (renderOf s) 0 task s) = 2 ∧
  checkDisabled (view s) 0 = true.
Proof. repeat split. Qed.

(** *** C8: generating practice *)

Lemma mount_SingleFlight (a : App.State) : SingleFlight (mount a).
Proof. by right. Qed.

Lemma step_SingleFlight (topic : Topic) (e : Event) (s : Store) :
  SingleFlight s → SingleFlight (step topic e s).
Proof.
  intros HI. destruct e; simpl.
  - destruct (lessonPending s); [|done]. by destruct r.
  - destruct (practicePending s) as [|c rest] eqn:Hp; [done|].
    right. destruct HI as [[_ [c' Hc']]|[_ ?]]; [|congruence].
    rewrite Hp in Hc'. simplify_eq. by destruct r.
  - destruct (checkPending s !! k) as [[taskIndex c]|]; [|done].
    by destruct r as [[feedback isCorrect]|msg].
  - done.
  - destruct (generateShown (view s)); [|done]. unfold handleGeneratePractice. simpl.
    destruct (isLoading_practice (view s)) eqn:Hl; [done|].
    left. simpl. split; [done|].
    destruct HI as [[? _]|[_ ->]]; [congruence|]. by eexists.
  - destruct (vocabularyShown (view s)); [|done]. by case_bool_decide.
  - destruct (tasksShown (view s) ≫= _); [|done]. by destruct (isChecked (view s) index).
  - unfold clickCheckAnswer. destruct (tasksShown (view s) ≫= _) as [task|]; [|done].
    destruct (checkDisabled (view s) index); [done|]. unfold handleCheckAnswer. simpl.
    destruct (userAnswers (view s) !! index) as [answer|]; [|done].
    by destruct (String.eqb answer EmptyString || blank answer).
Qed.

Lemma run_SingleFlight (topic : Topic) (trace : list Event) :
  ∀ s, SingleFlight s → SingleFlight (run topic trace s).
Proof.
  induction trace as [|e rest IH]; intros s HI; simpl; [done|].
  by apply IH, step_SingleFlight.
Qed.


Lemma vocabulary_toggle_witness :
  NoDup ["book"; "read"]%string ∧
  toggled (toggled ["book"; "read"] "book") "book" ≡ₚ ["book"; "read"]%string ∧
  toggled ["book"; "read"] "book" = ["read"]%string.
Proof.
  assert (NoDup ["book"; "read"]%string) as Hnd.
  { apply (bool_decide_unpack _). exact I. }
  split; [exact Hnd|].
  destruct (vocabulary_toggle Samples.presentSimple _ "book" Hnd)
    as (_ & _ & _ & _ & _ & Hperm & _).
  split; [exact Hperm|reflexivity].
Defined.

Lemma check_answer_rejected_witness :
  let s := run Samples.presentSimple Samples.completeTopic (mount Samples.inTopic) in
  let s' := run Samples.presentSimple [TypeAnswer 0 "reads"; ClickCheckAnswer 0] s in
  Calm Samples.presentSimple Samples.completeTopic (mount Samples.inTopic) ∧
  0 ∈ checking s' ∧ checkCalls s' = 1 ∧
  step Samples.presentSimple (ClickCheckAnswer 0) s' = s'.
Proof.
  intros s s'.
  assert (Calm Samples.presentSimple Samples.completeTopic (mount Samples.inTopic))
    as Hcalm.
  { simpl. repeat split; try discriminate. }
  assert (Forall (λ e, e ≠ ClickGenerate) [TypeAnswer 0 "reads"; ClickCheckAnswer 0])
    as Hafter.
  { repeat constructor; discriminate. }
  assert (0 ∈ checking s') as Hin by (left).
  split; [exact Hcalm|]. split; [exact Hin|]. split; [reflexivity|].
  destruct (check_answer_rejected Samples.presentSimple Samples.inTopic
              Samples.completeTopic [TypeAnswer 0 "reads"; ClickCheckAnswer 0] 0
              Hcalm Hafter) as [Hguard _].
  exact (proj1 (Hguard (or_intror (or_introl Hin)))).
Defined.

(** C5 as stated fails once practice is requested again.  The request
    clears the feedback of every task but leaves the evaluation that is
    under way where it is: with an evaluation of the first task in flight,
    a click on its check button invokes [checkUserAnswer] a second time and
    a second request for the same index is left pending.  Likewise after a
    result was shown: the task (the same one, practice coming from the
    cache) is evaluated a second time in the same session. *)
Lemma check_after_regenerate :
  let s := run Samples.presentSimple regenerateWhileChecking (mount Samples.inTopic) in
  let s' := step Samples.presentSimple (ClickCheckAnswer 0) s in
  let t := run Samples.presentSimple regenerateAfterResult (mount Samples.inTopic) in
  let t' := step Samples.presentSimple (ClickCheckAnswer 0) t in
  (checking s = [0] ∧ checkCalls s = 1 ∧
   checking s' = [0; 0] ∧ checkCalls s' = 2 ∧ s' ≠ s) ∧
  (checkCalls t = 1 ∧ checking t = [] ∧ checkCalls t' = 2 ∧ t' ≠ t).
Proof.
  split.
  - repeat split. intros Heq. apply (f_equal checkCalls) in Heq.
    vm_compute in Heq. discriminate.
  - repeat split. intros Heq. apply (f_equal checkCalls) in Heq.
    vm_compute in Heq. discriminate.
Qed.


(** *** Marking a section over the runs of a first mount *)

Lemma markComplete_user (topic : Topic) (c : Render) (section : ContentSectionType)
    (a : App.State) :
  App.user (markComplete topic c section a) = App.user a ∨
  sectionsSeen topic (App.user (markComplete topic c section a)) =
    sectionsSeen topic (r_user c) ++ [section].
Proof.
  unfold markComplete.
  destruct (includes (completedSections (progressOf topic c)) section); simpl; [by left|].
  unfold handleProgressUpdate. destruct (r_user c) as [u|] eqn:Hu; simpl; [|by left].
  right. unfold sectionsSeen, userProgress, progressOf, userProgress. simpl.
  rewrite lookup_insert_eq, Hu. done.
Qed.

Lemma handleVocabToggle_sections (topic : Topic) (c : Render) (w : string) (a : App.State) :
  r_user c = App.user a →
  sectionsSeen topic (App.user (handleVocabToggle topic c w a)) =
  sectionsSeen topic (App.user a).
Proof.
  intros Hfresh. unfold handleVocabToggle, handleProgressUpdate.
  destruct (r_user c) as [u|] eqn:Hu; simpl; [|done].
  rewrite <- Hfresh.
  unfold sectionsSeen, userProgress, progressOf, userProgress. simpl.
  rewrite lookup_insert_eq, Hu. done.
Qed.

Lemma Coherent_same (topic : Topic) (s s' : Store) :
  Coherent topic s → SingleFlight s' →
  App.user (app s') = App.user (app s) →
  lessonPending s' = lessonPending s →
  practicePending s' = practicePending s →
  Coherent topic s'.
Proof.
  intros [Hf Hl Hp] Hf' Hu Hlp Hpp. split; [done| |].
  - intros cl. rewrite Hu, Hlp. apply Hl.
  - intros c. rewrite Hu, Hlp, Hpp. apply Hp.
Qed.

Lemma mount_Coherent (topic : Topic) (a : App.State) : Coherent topic (mount a).
Proof.
  split.
  - apply mount_SingleFlight.
  - simpl. intros cl [= <-]. simpl. done.
  - simpl. intros c Hc. by apply elem_of_nil in Hc.
Qed.

Lemma step_Coherent (topic : Topic) (e : Event) (s : Store) :
  Coherent topic s → Coherent topic (step topic e s).
Proof.
  intros HC. pose proof (step_SingleFlight topic e s (coh_flight _ _ HC)) as Hflight.
  pose proof HC as [Hf Hl Hp].
  destruct e.
  - (* LessonSettled *)
    simpl in *. destruct (lessonPending s) as [cl|] eqn:Hlp; [|exact HC].
    split; [done| |].
    + by destruct r.
    + assert (practicePending (fetchLessonSettled topic cl r
                {| view := view s; app := app s; lessonPending := None;
                   practicePending := practicePending s;
                   checkPending := checkPending s; checkCalls := checkCalls s |})
              = practicePending s) as -> by (by destruct r).
      intros c Hc. split; [|by destruct r].
      destruct (Hp c Hc) as [Hpc Hlc]. destruct (Hlc cl eq_refl) as [Hsub _].
      destruct r as [content|msg]; simpl; [|done].
      destruct (markComplete_user topic cl lesson (app s)) as [-> | ->]; [done|].
      rewrite elem_of_app, list_elem_of_singleton. intros [Hin|?]; [|done].
      by apply Hsub.
  - (* PracticeSettled *)
    simpl in *. destruct (practicePending s) as [|c rest] eqn:Hpp; [exact HC|].
    assert (rest = []) as ->.
    { destruct Hf as [[_ [c' Hc']]|[_ ?]]; congruence. }
    destruct (Hp c) as [Hpc Hlc]; [by left|].
    split; [done| |].
    + assert (lessonPending (practiceSettled topic c r
                {| view := view s; app := app s; lessonPending := lessonPending s;
                   practicePending := [];
                   checkPending := checkPending s; checkCalls := checkCalls s |})
              = lessonPending s) as -> by (by destruct r).
      intros cl Hcl. destruct (Hl cl Hcl) as [Hsub Hles].
      destruct (Hlc cl Hcl) as [Hsubc Hlesc].
      destruct r as [content|msg]; simpl; [|done].
      destruct (markComplete_user topic c practice (app s)) as [-> | ->]; [done|].
      split.
      * intros x Hx. apply elem_of_app. left. by apply Hsubc.
      * rewrite elem_of_app, list_elem_of_singleton. intros [Hin|?]; [|done].
        by apply Hlesc.
    + assert (practicePending (practiceSettled topic c r
                {| view := view s; app := app s; lessonPending := lessonPending s;
                   practicePending := [];
                   checkPending := checkPending s; checkCalls := checkCalls s |})
              = []) as -> by (by destruct r).
      intros c' Hc'. by apply elem_of_nil in Hc'.
  - (* CheckSettled *)
    apply (Coherent_same topic s); [exact HC|done|..]; simpl;
      destruct (checkPending s !! k) as [[taskIndex c]|]; try done;
      by destruct r as [[feedback isCorrect]|msg].
  - (* ClickTab *)
    by apply (Coherent_same topic s).
  - (* ClickGenerate *)
    simpl in *. destruct (generateShown (view s)); [|exact HC].
    unfold handleGeneratePractice in *. simpl in *.
    destruct (isLoading_practice (view s)) eqn:Hload; [exact HC|].
    assert (practicePending s = []) as Hnil.
    { destruct Hf as [[? _]|[_ ?]]; [congruence|done]. }
    split; [done|exact Hl|]. simpl. rewrite Hnil. simpl.
    intros c Hc. apply list_elem_of_singleton in Hc as ->. simpl.
    split; [done|]. intros cl Hcl. apply Hl, Hcl.
  - (* ClickVocabulary *)
    simpl in *. destruct (vocabularyShown (view s)); [|exact HC].
    case_bool_decide; [|exact HC].
    split; [done| |]; simpl; rewrite handleVocabToggle_sections by done.
    + exact Hl.
    + exact Hp.
  - (* TypeAnswer *)
    apply (Coherent_same topic s); [exact HC|done|..]; simpl;
      destruct (tasksShown (view s) ≫= _); try done;
      by destruct (isChecked (view s) index).
  - (* ClickCheckAnswer *)
    apply (Coherent_same topic s); [exact HC|done|..]; simpl;
      unfold clickCheckAnswer, handleCheckAnswer;
      destruct (tasksShown (view s) ≫= _); try done;
      destruct (checkDisabled (view s) index); try done; simpl;
      destruct (userAnswers (view s) !! index) as [answer|]; try done;
      by destruct (String.eqb answer EmptyString || blank answer).
Qed.

Lemma run_Coherent (topic : Topic) (trace : list Event) :
  ∀ s, Coherent topic s → Coherent topic (run topic trace s).
Proof.
  induction trace as [|e rest IH]; intros s HC; simpl; [done|].
  by apply IH, step_Coherent.
Qed.

(** For a view that is mounted while no fetch of an earlier mount is
    waiting and that is the only writer of [App] while it is mounted: a
    lesson (or practice) fetch that settles successfully while that section
    is already in the topic's [completedSections] leaves the whole [App]
    state as it is.  [markComplete] from any render that sees the section
    changes nothing, and after marking from the current render, marking
    again from the next render changes nothing. *)
Lemma first_mount_completion (topic : Topic) (a0 : App.State) (trace : list Event)
    (c : Render) (a : App.State) :
  let s := run topic trace (mount a0) in
  (lesson ∈ completedSections (currentProgress topic s) →
     ∀ content, app (step topic (LessonSettled (Ok content)) s) = app s) ∧
  (practice ∈ completedSections (currentProgress topic s) →
     ∀ content, app (step topic (PracticeSettled (Ok content)) s) = app s) ∧
  (∀ section, section ∈ completedSections (progressOf topic c) →
     markComplete topic c section a = a) ∧
  (∀ section, r_user c = App.user a →
     let a1 := markComplete topic c section a in
     markComplete topic {| r_view := r_view c; r_user := App.user a1 |} section a1 = a1).
Proof.
  intros s.
  pose proof (run_Coherent topic trace _ (mount_Coherent topic a0)) as [_ Hl Hp].
  fold s in Hl, Hp.
  split; [|split; [|split]].
  - intros Hin content. simpl.
    destruct (lessonPending s) as [cl|] eqn:Hlp; [|done]. simpl.
    apply markComplete_present. by apply (Hl cl eq_refl).
  - intros Hin content. simpl.
    destruct (practicePending s) as [|c' rest] eqn:Hpp; [done|]. simpl.
    apply markComplete_present.
    assert (c' ∈ c' :: rest) as Hc' by (by left).
    by apply (Hp c' Hc').
  - intros section Hin. by apply markComplete_present.
  - intros section Hfresh. by apply markComplete_rerun.
Qed.

(** C7, evaluated on the code.  The guard of a fetch continuation looks at
    the [completedSections] of the render that issued the fetch, and what
    it writes is the progress of that render with the section added.  A
    topic is left while its practice is being generated and opened again;
    practice is requested again; the first request settles and marks
    practice; a word is ticked.  Now practice is in [completedSections] and
    the word in [completedVocabulary].  The second request settles: its
    render did not see the practice mark, so it marks practice again, and
    the ticked word is gone. *)
Theorem stale_completion_overwrites :
  let s1 := TopicReopen.run Samples.presentSimple (TopicReopen.opened Samples.inTopic)
              TopicReopen.reopenedWhileFetching in
  let s2 := TopicReopen.step Samples.presentSimple s1
              (TopicReopen.Current (PracticeSettled (Ok Samples.practicePS))) in
  practice ∈ completedSections
               (currentProgress Samples.presentSimple (TopicReopen.current s1)) ∧
  currentProgress Samples.presentSimple (TopicReopen.current s1) =
    {| completedVocabulary := ["book"%string]; completedSections := [lesson; practice] |} ∧
  practicePending (TopicReopen.current s1) ≠ [] ∧
  currentProgress Samples.presentSimple (TopicReopen.current s2) =
    {| completedVocabulary := []; completedSections := [lesson; practice] |} ∧
  (App.data <$> App.accounts (App.localStorage (app (TopicReopen.current s2)))
                  !! "dana"%string)
    = App.user (app (TopicReopen.current s2)).
Proof.
  split; [apply (bool_decide_unpack _); exact I|].
  split; [reflexivity|]. split; [discriminate|]. split; reflexivity.
Qed.

(** The specification's scenario of a completed topic: the lesson arrives,
    then practice is requested and arrives. *)
Example topic_completion :
  let s := run Samples.presentSimple Samples.completeTopic (mount Samples.inTopic) in
  completedSections (currentProgress Samples.presentSimple s) = [lesson; practice] ∧
  ((λ u, Dashboard.isTopicComplete u (id Samples.presentSimple)) <$> App.user (app s))
    = Some true.
Proof. split; reflexivity. Qed.

(** *** C2: progress updates from a settled fetch *)

(** What a settling fetch writes is built from the captured [user] alone:
    the level, the exam history, the other topics and this topic's
    vocabulary of the current [App] state are replaced by the captured
    ones. *)
Lemma markComplete_from_capture (topic : Topic) (c : Render) (u : User)
    (section : ContentSectionType) (a : App.State) :
  r_user c = Some u →
  section ∉ completedSections (progressOf topic c) →
  App.user (markComplete topic c section a) =
    Some (App.withProgress u
            (<[id topic :=
                 {| completedVocabulary := completedVocabulary (progressOf topic c);
                    completedSections := completedSections (progressOf topic c) ++ [section] |}]>
               (progress u))).
Proof.
  intros Hu Hnot. unfold markComplete, handleProgressUpdate.
  apply includes_false in Hnot. by rewrite Hnot, Hu.
Qed.

(** C2, evaluated on the code.  The continuation of a fetch merges into the
    progress of the render that issued the fetch.  (1) A word ticked while
    the practice fetch is in flight is in [completedVocabulary] before the
    fetch settles and gone after it.  (2) When practice is requested before
    the lesson has arrived, the practice continuation overwrites the lesson
    mark: both fetches succeed and [completedSections] ends as [practice]
    alone.  The stored account shows the same. *)
Theorem stale_progress_loses_updates :
  let s1 := run Samples.presentSimple Samples.toggleWhileLoading (mount Samples.inTopic) in
  let s2 := step Samples.presentSimple (PracticeSettled (Ok Samples.practicePS)) s1 in
  let s3 := run Samples.presentSimple Samples.practiceBeforeLesson (mount Samples.inTopic) in
  currentProgress Samples.presentSimple s1 =
    {| completedVocabulary := ["book"%string]; completedSections := [lesson] |} ∧
  currentProgress Samples.presentSimple s2 =
    {| completedVocabulary := []; completedSections := [lesson; practice] |} ∧
  currentProgress Samples.presentSimple s3 =
    {| completedVocabulary := []; completedSections := [practice] |} ∧
  (App.data <$> App.accounts (App.localStorage (app s2)) !! "dana"%string) = App.user (app s2) ∧
  (App.data <$> App.accounts (App.localStorage (app s3)) !! "dana"%string) = App.user (app s3).
Proof. repeat split. Qed.

End TopicFacts.

(* ===================================================================== *)
(** ** Theorems: the shell of the application *)
(* ===================================================================== *)

Module AppShellFacts.
Import App AppShell.

Lemma persistUserUpdate_quota (u : User) (ls : LocalStorage) :
  quotaExceeded (persistUserUpdate u ls) = quotaExceeded ls.
Proof.
  unfold persistUserUpdate. destruct (accounts ls !! name u); [|done].
  by destruct (quotaExceeded ls) eqn:Hq.
Qed.

Lemma persistUserUpdate_refused (u : User) (ls : LocalStorage) :
  quotaExceeded ls = true → persistUserUpdate u ls = ls.
Proof.
  intros Hq. unfold persistUserUpdate. rewrite Hq. by destruct (accounts ls !! name u).
Qed.

Lemma persistUserUpdate_stored (u : User) (ls : LocalStorage) (acc : Account) :
  quotaExceeded ls = false → accounts ls !! name u = Some acc →
  accounts (persistUserUpdate u ls) !! name u = Some {| password := password acc; data := u |}.
Proof.
  intros Hq Hacc. unfold persistUserUpdate. rewrite Hacc, Hq. simpl.
  by rewrite lookup_insert_eq.
Qed.

Lemma persistUserUpdate_password (u : User) (ls : LocalStorage) (n : string) (acc : Account) :
  accounts ls !! n = Some acc →
  ∃ acc', accounts (persistUserUpdate u ls) !! n = Some acc' ∧ password acc' = password acc.
Proof.
  intros Hacc. unfold persistUserUpdate.
  destruct (accounts ls !! name u) as [acc0|] eqn:Hu; [|by eexists].
  destruct (quotaExceeded ls); [by eexists|]. simpl.
  destruct (decide (name u = n)) as [Heq|Hne].
  - rewrite Heq in *. rewrite lookup_insert_eq. eexists. split; [done|]. simpl. congruence.
  - rewrite lookup_insert_ne by done. by eexists.
Qed.

Lemma persist_wellKeyed (u : User) (ls : LocalStorage) :
  wellKeyed ls → wellKeyed (persistUserUpdate u ls).
Proof.
  intros Hwk n acc. unfold persistUserUpdate.
  destruct (accounts ls !! name u) as [acc0|] eqn:Hacc; [|apply Hwk].
  destruct (quotaExceeded ls); [apply Hwk|]. simpl.
  destruct (decide (name u = n)) as [<-|Hne].
  - rewrite lookup_insert_eq. by intros [= <-].
  - rewrite lookup_insert_ne by done. apply Hwk.
Qed.

(** Replacing the logged-in user by one of the same name, as the three
    updating handlers do. *)
Lemma update_Mirrored (u u' : User) (st : State) :
  quotaExceeded (localStorage st) = false → name u' = name u →
  Mirrored st → user st = Some u →
  Mirrored (setLocalStorage (persistUserUpdate u' (localStorage st)) (setUser (Some u') st)).
Proof.
  intros Hq Hn [Hwk Hm] Hu. split.
  - simpl. by apply persist_wellKeyed.
  - intros w. simpl. intros [= <-].
    destruct (Hm u Hu) as (acc & Hacc & _).
    exists {| password := password acc; data := u' |}. split; [|reflexivity].
    rewrite <- Hn in Hacc. by apply persistUserUpdate_stored.
Qed.

Section Runs.
Variables btoa atob : string → string.

Lemma step_quota (st : State) (e : Event) :
  quotaExceeded (localStorage (step btoa atob st e)) = quotaExceeded (localStorage st).
Proof.
  destruct e; simpl; try done.
  - unfold handleSignUp. destruct (accounts (localStorage st) !! newName); [done|].
    destruct (inherited newName); [done|].
    by destruct (quotaExceeded (localStorage st)) eqn:Hq.
  - unfold handleLogin. destruct (accounts (localStorage st) !! loginName); [|by destruct (inherited loginName)].
    by destruct (String.eqb _ _).
  - unfold handleLevelChange. destruct (user st); [|done]. simpl. apply persistUserUpdate_quota.
  - unfold handleProgressUpdate. destruct (user st); [|done]. simpl. apply persistUserUpdate_quota.
  - unfold handleSaveExamResult. destruct (user st); [|done]. simpl. apply persistUserUpdate_quota.
Qed.

Lemma step_Mirrored (st : State) (e : Event) :
  quotaExceeded (localStorage st) = false → Mirrored st → Mirrored (step btoa atob st e).
Proof.
  intros Hq HM. pose proof HM as [Hwk Hm]. destruct e; simpl; try done.
  - (* SignUp *)
    unfold handleSignUp.
    destruct (accounts (localStorage st) !! newName) eqn:Hfree; [done|].
    destruct (inherited newName); [done|].
    rewrite Hq. split; simpl.
    + intros n acc. simpl. destruct (decide (newName = n)) as [<-|Hne].
      * rewrite lookup_insert_eq. by intros [= <-].
      * rewrite lookup_insert_ne by done. apply Hwk.
    + intros u [= <-]. simpl. rewrite lookup_insert_eq. by eexists.
  - (* Login *)
    unfold handleLogin.
    destruct (accounts (localStorage st) !! loginName) as [stored|] eqn:Hacc;
      [|by destruct (inherited loginName)].
    destruct (String.eqb _ _); [|done].
    split; [done|]. simpl. intros u [= <-].
    rewrite (Hwk _ _ Hacc). by eexists.
  - (* LevelChange *)
    unfold handleLevelChange. destruct (user st) as [u|] eqn:Hu; [|done].
    by apply (update_Mirrored u).
  - (* ProgressUpdate *)
    unfold handleProgressUpdate. destruct (user st) as [u|] eqn:Hu; [|done].
    by apply (update_Mirrored u).
  - (* SaveExamResult *)
    unfold handleSaveExamResult. destruct (user st) as [u|] eqn:Hu; [|done].
    by apply (update_Mirrored u).
Qed.

Lemma run_cons (st : State) (e : Event) (rest : list Event) :
  run btoa atob st (e :: rest) = run btoa atob (step btoa atob st e) rest.
Proof. done. Qed.

Lemma run_quota (trace : list Event) :
  ∀ st, quotaExceeded (localStorage (run btoa atob st trace)) = quotaExceeded (localStorage st).
Proof.
  induction trace as [|e rest IH]; intros st; [done|].
  by rewrite run_cons, IH, step_quota.
Qed.

Lemma run_Mirrored (trace : list Event) :
  ∀ st, quotaExceeded (localStorage st) = false → Mirrored st →
        Mirrored (run btoa atob st trace).
Proof.
  induction trace as [|e rest IH]; intros st Hq HM; [done|].
  rewrite run_cons. apply IH; [by rewrite step_quota|by apply step_Mirrored].
Qed.

Lemma step_password (st : State) (e : Event) (n : string) (acc : Account) :
  accounts (localStorage st) !! n = Some acc →
  ∃ acc', accounts (localStorage (step btoa atob st e)) !! n = Some acc' ∧
          password acc' = password acc.
Proof.
  intros Hacc. destruct e; simpl; try by eexists.
  - unfold handleSignUp.
    destruct (accounts (localStorage st) !! newName) eqn:Hfree; [by eexists|].
    destruct (inherited newName); [by eexists|].
    destruct (quotaExceeded (localStorage st)); [by eexists|]. simpl.
    rewrite lookup_insert_ne by congruence. by eexists.
  - unfold handleLogin.
    destruct (accounts (localStorage st) !! loginName);
      [|destruct (inherited loginName); by eexists].
    destruct (String.eqb _ _); by eexists.
  - unfold handleLevelChange. destruct (user st); [|by eexists]. simpl.
    by apply persistUserUpdate_password.
  - unfold handleProgressUpdate. destruct (user st); [|by eexists]. simpl.
    by apply persistUserUpdate_password.
  - unfold handleSaveExamResult. destruct (user st); [|by eexists]. simpl.
    by apply persistUserUpdate_password.
Qed.

Lemma run_password (trace : list Event) :
  ∀ st n acc, accounts (localStorage st) !! n = Some acc →
    ∃ acc', accounts (localStorage (run btoa atob st trace)) !! n = Some acc' ∧
            password acc' = password acc.
Proof.
  induction trace as [|e rest IH]; intros st n acc Hacc; [by eexists|].
  rewrite run_cons.
  destruct (step_password st e n acc Hacc) as (acc1 & Hacc1 & Hp1).
  destruct (IH _ n acc1 Hacc1) as (acc2 & Hacc2 & Hp2).
  exists acc2. split; [done|]. congruence.
Qed.

Lemma step_inSession_name (st : State) (e : Event) (u : User) :
  inSession e = true → user st = Some u →
  ∃ u', user (step btoa atob st e) = Some u' ∧ name u' = name u.
Proof.
  intros He Hu. destruct e; simpl in *; try done; try by eexists.
  - unfold handleLevelChange. rewrite Hu. by eexists.
  - unfold handleProgressUpdate. rewrite Hu. by eexists.
  - unfold handleSaveExamResult. rewrite Hu. by eexists.
Qed.


Lemma step_history (st : State) (e : Event) :
  inSession e = true → historyOf st `prefix_of` historyOf (step btoa atob st e).
Proof.
  intros He. destruct e; simpl in *; try done.
  - unfold handleLevelChange. destruct (user st) as [u|] eqn:Hu; [|reflexivity].
    unfold historyOf. rewrite Hu. reflexivity.
  - unfold handleProgressUpdate. destruct (user st) as [u|] eqn:Hu; [|reflexivity].
    unfold historyOf. rewrite Hu. reflexivity.
  - unfold handleSaveExamResult. destruct (user st) as [u|] eqn:Hu; [|reflexivity].
    unfold historyOf. rewrite Hu. simpl. by apply prefix_app_r.
Qed.

Lemma run_history (trace : list Event) :
  ∀ st, Forall (λ e, inSession e = true) trace →
        historyOf st `prefix_of` historyOf (run btoa atob st trace).
Proof.
  induction trace as [|e rest IH]; intros st Hall; [done|].
  rewrite run_cons. apply Forall_cons in Hall as [He Hall].
  etrans; [by apply step_history|by apply IH].
Qed.

Lemma step_refused (st : State) (e : Event) :
  quotaExceeded (localStorage st) = true →
  localStorage (step btoa atob st e) = localStorage st.
Proof.
  intros Hq. destruct e; simpl; try done.
  - unfold handleSignUp. destruct (accounts (localStorage st) !! newName); [done|].
    destruct (inherited newName); [done|].
    by rewrite Hq.
  - unfold handleLogin. destruct (accounts (localStorage st) !! loginName); [|by destruct (inherited loginName)].
    by destruct (String.eqb _ _).
  - unfold handleLevelChange. destruct (user st); [|done]. simpl.
    by apply persistUserUpdate_refused.
  - unfold handleProgressUpdate. destruct (user st); [|done]. simpl.
    by apply persistUserUpdate_refused.
  - unfold handleSaveExamResult. destruct (user st); [|done]. simpl.
    by apply persistUserUpdate_refused.
Qed.

Lemma run_refused (trace : list Event) :
  ∀ st, quotaExceeded (localStorage st) = true →
        localStorage (run btoa atob st trace) = localStorage st.
Proof.
  induction trace as [|e rest IH]; intros st Hq; [done|].
  rewrite run_cons, IH; [by apply step_refused|].
  by rewrite step_quota.
Qed.

End Runs.

(** *** Accounts *)





(** X2. While [localStorage] accepts writes, in every state reached by
    handlers of [App] from a state where it holds, the stored record of the
    logged-in user is the in-memory user (and every record sits under its
    user's name): what is on screen is what a later login will load. *)
Theorem stored_record_mirrors_user (btoa atob : string → string) (st : State)
    (trace : list Event) (u : User) :
  Mirrored st → quotaExceeded (localStorage st) = false →
  user (run btoa atob st trace) = Some u →
  (∃ acc, loggedIn (run btoa atob st trace) u acc) ∧
  wellKeyed (localStorage (run btoa atob st trace)).
Proof.
  intros HM Hq Hu. destruct (run_Mirrored btoa atob trace st Hq HM) as [Hwk Hm].
  split; [|done]. destruct (Hm u Hu) as (acc & Hacc & Hdata).
  exists acc. by split.
Qed.

Lemma stored_record_mirrors_user_witness :
  let st := run MoreSamples.scramble MoreSamples.scramble
              MoreSamples.freshBrowser MoreSamples.aWeek in
  Mirrored MoreSamples.freshBrowser ∧
  quotaExceeded (localStorage MoreSamples.freshBrowser) = false ∧
  ∃ u acc, user st = Some u ∧ level u = A2 ∧ length (historyOf st) = 1 ∧ loggedIn st u acc.
Proof.
  intros st.
  assert (Mirrored MoreSamples.freshBrowser) as HM.
  { split; [|done]. intros m acc. simpl. by rewrite lookup_empty. }
  split; [exact HM|]. split; [reflexivity|].
  eexists. 
  destruct (stored_record_mirrors_user MoreSamples.scramble MoreSamples.scramble
              MoreSamples.freshBrowser MoreSamples.aWeek _ HM eq_refl eq_refl)
    as [(acc & Hin) _].
  exists acc. split; [reflexivity|]. split; [reflexivity|]. split; [reflexivity|exact Hin].
Defined.

(** X3. No handler of [App] deletes an account or changes a password:
    whatever is done afterwards, an account that exists keeps existing under
    its name with the password it has. *)
Theorem accounts_are_kept (btoa atob : string → string) (st : State) (trace : list Event)
    (n : string) (acc : Account) :
  accounts (localStorage st) !! n = Some acc →
  ∃ acc', accounts (localStorage (run btoa atob st trace)) !! n = Some acc' ∧
          password acc' = password acc.
Proof. apply run_password. Qed.

Lemma accounts_are_kept_witness :
  accounts (localStorage Samples.backOnDashboard) !! "aru"%string
    = Some {| password := "cGFzcw=="; data := Samples.learner |} ∧
  ∃ acc', accounts (localStorage (run MoreSamples.scramble MoreSamples.scramble
                                    Samples.backOnDashboard
                                    (MoreSamples.anAfternoon ++ MoreSamples.aWeek)))
            !! "aru"%string = Some acc' ∧
          password acc' = "cGFzcw=="%string.
Proof.
  split; [reflexivity|].
  exact (accounts_are_kept MoreSamples.scramble MoreSamples.scramble Samples.backOnDashboard
           (MoreSamples.anAfternoon ++ MoreSamples.aWeek) "aru" _ eq_refl).
Defined.

(** *** What the handlers change *)

Lemma step_saved (btoa atob : string → string) (st : State) (e : Event) (u : User) :
  inSession e = true → user st = Some u →
  historyOf (step btoa atob st e) = historyOf st ++ from_option (λ r, [r]) [] (savedResult e).
Proof.
  intros He Hu. destruct e; simpl in *; try done; unfold historyOf; simpl;
    rewrite ?Hu; simpl; rewrite ?Hu; simpl; by rewrite ?app_nil_r.
Qed.

Lemma run_saved (btoa atob : string → string) (trace : list Event) :
  ∀ st u, Forall (λ e, inSession e = true) trace → user st = Some u →
    historyOf (run btoa atob st trace) = historyOf st ++ omap savedResult trace.
Proof.
  induction trace as [|e rest IH]; intros st u Hall Hu.
  - simpl. by rewrite app_nil_r.
  - rewrite run_cons. apply Forall_cons in Hall as [He Hall].
    destruct (step_inSession_name btoa atob st e u He Hu) as (u1 & Hu1 & _).
    rewrite (IH _ u1 Hall Hu1), (step_saved _ _ _ _ u He Hu), <- (assoc_L (++)).
    f_equal. simpl. by destruct (savedResult e).
Qed.

(** X5. [handleProgressUpdate] writes the user of the render that issued the
    call with the progress of the one topic replaced, whatever the user on
    screen has become since: the other topics, the level, the name, the
    avatar and the exam history are those of that render.  The stored
    record of that user keeps its password and takes the written user when
    [localStorage] accepts the write; every other account, the view and the
    selected topic stay as they are.  For a call from the render on screen
    this is a frame on the current state; a fetch continuation holds an
    earlier user, and what has changed since (the level, a saved exam
    result, other topics) is put back. *)
Theorem progress_update_frame (st : State) (c : User) (acc : Account) (topicId : string)
    (p : TopicProgress) :
  accounts (localStorage st) !! name c = Some acc →
  let st' := handleProgressUpdate (Some c) topicId p st in
  (∃ u', user st' = Some u' ∧
         progress u' !! topicId = Some p ∧
         (∀ t, t ≠ topicId → progress u' !! t = progress c !! t) ∧
         level u' = level c ∧ name u' = name c ∧ avatar u' = avatar c ∧
         examHistory u' = examHistory c ∧
         accounts (localStorage st') !! name c =
           Some {| password := password acc;
                   data := if quotaExceeded (localStorage st) then data acc else u' |}) ∧
  (∀ n, n ≠ name c →
        accounts (localStorage st') !! n = accounts (localStorage st) !! n) ∧
  quotaExceeded (localStorage st') = quotaExceeded (localStorage st) ∧
  currentView st' = currentView st ∧ selectedTopic st' = selectedTopic st.
Proof.
  intros Hacc st'. subst st'. simpl.
  split; [|split; [|split; [|done]]].
  - eexists. split; [reflexivity|]. simpl.
    split; [by rewrite lookup_insert_eq|].
    split; [intros t Ht; by rewrite lookup_insert_ne|].
    repeat (split; [done|]).
    unfold persistUserUpdate. simpl. rewrite Hacc.
    destruct (quotaExceeded (localStorage st)); simpl.
    + rewrite Hacc. by destruct acc.
    + by rewrite lookup_insert_eq.
  - intros n Hn. unfold persistUserUpdate. simpl. rewrite Hacc.
    destruct (quotaExceeded (localStorage st)); [done|]. simpl.
    by rewrite lookup_insert_ne.
  - apply persistUserUpdate_quota.
Qed.

Lemma progress_update_frame_witness :
  let p := {| completedVocabulary := ["read"%string]; completedSections := [lesson] |} in
  let st := handleLevelChange (Some Samples.veteran) B1 Samples.backOnDashboard in
  let st' := handleProgressUpdate (Some Samples.veteran) "a2-past-simple" p st in
  accounts (localStorage st) !! "dana"%string
    = Some {| password := password Samples.veteranAccount;
              data := withLevel Samples.veteran B1 |} ∧
  (level <$> user st) = Some B1 ∧
  ∃ u', user st' = Some u' ∧
        progress u' !! "a2-past-simple"%string = Some p ∧
        progress u' !! "a1-present-simple"%string
          = progress Samples.veteran !! "a1-present-simple"%string ∧
        level u' = A2.
Proof.
  intros p st st'.
  assert (accounts (localStorage st) !! name Samples.veteran
            = Some {| password := password Samples.veteranAccount;
                      data := withLevel Samples.veteran B1 |}) as Hacc by reflexivity.
  split; [exact Hacc|]. split; [reflexivity|].
  destruct (progress_update_frame st Samples.veteran _ "a2-past-simple" p Hacc)
    as [(u' & Hu' & Hp & Hother & Hlevel & _) _].
  exists u'. split; [exact Hu'|]. split; [exact Hp|]. split; [|exact Hlevel].
  apply Hother. discriminate.
Defined.

(** X6. When [localStorage] refuses writes, nothing any handler does reaches
    the stored accounts: the screen shows the changes, but a login after
    any run loads the data that was stored before the run. *)
Theorem refused_writes_lose_updates (btoa atob : string → string) (st : State)
    (trace : list Event) :
  quotaExceeded (localStorage st) = true →
  localStorage (run btoa atob st trace) = localStorage st ∧
  (∀ n pass st', handleLogin atob n pass (handleLogout (run btoa atob st trace)) = inr st' →
     ∃ acc, accounts (localStorage st) !! n = Some acc ∧ user st' = Some (data acc)).
Proof.
  intros Hq. pose proof (run_refused btoa atob trace st Hq) as Hls.
  split; [done|]. intros n pass st'. unfold handleLogin, handleLogout. simpl.
  rewrite Hls.
  destruct (accounts (localStorage st) !! n) as [acc|]; [|by destruct (inherited n)].
  destruct (String.eqb _ _); [|done]. intros [= <-]. by exists acc.
Qed.

Lemma refused_writes_lose_updates_witness :
  let st := run MoreSamples.scramble MoreSamples.scramble
              MoreSamples.fullBrowser MoreSamples.anAfternoon in
  quotaExceeded (localStorage MoreSamples.fullBrowser) = true ∧
  (level <$> user st) = Some B1 ∧
  localStorage st = localStorage MoreSamples.fullBrowser ∧
  (data <$> accounts (localStorage st) !! "dana"%string) = Some Samples.veteran.
Proof.
  intros st. split; [reflexivity|]. split; [reflexivity|].
  destruct (refused_writes_lose_updates MoreSamples.scramble MoreSamples.scramble
              MoreSamples.fullBrowser MoreSamples.anAfternoon eq_refl) as [Hls _].
  split; [exact Hls|]. subst st. rewrite Hls. reflexivity.
Defined.

(** *** Rendering *)

Lemma step_TopicSelected (btoa atob : string → string) (st : State) (e : Event) :
  TopicSelected st → TopicSelected (step btoa atob st e).
Proof.
  intros HT. unfold TopicSelected in *. destruct e; simpl; try done.
  - unfold handleSignUp. destruct (accounts (localStorage st) !! newName); [done|].
    destruct (inherited newName); [done|].
    by destruct (quotaExceeded (localStorage st)).
  - unfold handleLogin. destruct (accounts (localStorage st) !! loginName); [|by destruct (inherited loginName)].
    by destruct (String.eqb _ _).
  - unfold handleLevelChange. by destruct (user st).
  - unfold handleProgressUpdate. by destruct (user st).
  - unfold handleSaveExamResult. by destruct (user st).
Qed.

Lemma run_TopicSelected (btoa atob : string → string) (trace : list Event) :
  ∀ st, TopicSelected st → TopicSelected (run btoa atob st trace).
Proof.
  induction trace as [|e rest IH]; intros st HT; [done|].
  rewrite run_cons. by apply IH, step_TopicSelected.
Qed.

(** X7. In every state reached from the initial state of [App],
    [renderContent] never takes its fallback branch and never changes the
    state; it shows the welcome screen exactly when nobody is logged in or
    the view is the welcome view; and the topic view it renders is that of
    the selected topic, with the level of the user and the user's progress
    for that topic. *)
Theorem render_never_falls_back (btoa atob : string → string) (ls : LocalStorage)
    (trace : list Event) :
  let st := run btoa atob (initialState ls) trace in
  (renderContent st).1 ≠ Nothing ∧
  (renderContent st).2 = st ∧
  ((renderContent st).1 = WelcomeScreen ↔ user st = None ∨ currentView st = welcome) ∧
  (∀ t l p, (renderContent st).1 = TopicViewOf t l p →
     ∃ u, user st = Some u ∧ selectedTopic st = Some t ∧
          l = level u ∧ p = progress u !! id t).
Proof.
  intros st.
  assert (TopicSelected st) as HT.
  { apply run_TopicSelected. intros Hc. discriminate. }
  unfold renderContent, TopicSelected in *.
  destruct (user st) as [u|]; [|split; [done|]; split; [done|]; split; [tauto|done]].
  destruct (currentView st) eqn:Hv.
  - simpl. split; [done|]. split; [done|]. split; [split; [intros _; by right|done]|done].
  - simpl. split; [done|]. split; [done|].
    split; [split; [discriminate|intros [|]; discriminate]|done].
  - destruct (HT eq_refl) as [t Ht]. rewrite Ht. simpl.
    split; [done|]. split; [done|].
    split; [split; [discriminate|intros [|]; discriminate]|].
    intros t' l p [= <- <- <-]. by exists u.
  - simpl. split; [done|]. split; [done|].
    split; [split; [discriminate|intros [|]; discriminate]|done].
  - simpl. split; [done|]. split; [done|].
    split; [split; [discriminate|intros [|]; discriminate]|done].
Qed.

End AppShellFacts.

(* ===================================================================== *)
(** ** Theorems: components/WelcomeScreen.tsx *)
(* ===================================================================== *)

Module WelcomeFacts.
Import WelcomeScreen.

(** X8. Submitting the welcome form either leaves the state of [App]
    untouched and shows an error, or logs a user in under the typed name
    on the dashboard with no error and the loading flag down.  The second
    happens only when neither the name nor the password is blank, and a
    user created by the form starts at level A1 with no progress and an
    empty exam history. *)
Theorem submit_outcome (btoa atob : string → string) (c st : State) (a : App.State) :
  App.wellKeyed (App.localStorage a) →
  let r := handleSubmit btoa atob c st a in
  (r.2 = a ∧ is_Some (error r.1)) ∨
  (error r.1 = None ∧ isLoading r.1 = false ∧
   TopicView.blank (name c) = false ∧ TopicView.blank (password c) = false ∧
   App.currentView r.2 = App.dashboard ∧
   ∃ u, App.user r.2 = Some u ∧ Types.name u = name c ∧
        (mode c = signup →
         Types.level u = A1 ∧ Types.progress u = ∅ ∧ Types.examHistory u = Some [])).
Proof.
  intros Hwk r. subst r. unfold handleSubmit.
  destruct (TopicView.blank (name c)) eqn:Hn; [left; simpl; eauto|].
  destruct (TopicView.blank (password c)) eqn:Hp; [left; simpl; eauto|]. simpl.
  destruct (mode c) eqn:Hm.
  - unfold App.handleLogin.
    destruct (App.accounts (App.localStorage a) !! name c) as [acc|] eqn:Hacc;
      [|destruct (App.inherited (name c)); left; simpl; eauto].
    destruct (String.eqb _ _); [|left; simpl; eauto].
    right. simpl. repeat (split; [done|]).
    exists (App.data acc). split; [done|]. split; [by apply Hwk|done].
  - unfold App.handleSignUp.
    destruct (App.accounts (App.localStorage a) !! name c); [left; simpl; eauto|].
    destruct (App.inherited (name c)); [left; simpl; eauto|].
    destruct (App.quotaExceeded (App.localStorage a)); [left; simpl; eauto|].
    right. simpl. repeat (split; [done|]). eexists. split; [reflexivity|]. done.
Qed.

Lemma submit_outcome_witness :
  let c := setPassword "qwerty" (setName "aru" (handleModeToggle initialState)) in
  let r := handleSubmit MoreSamples.scramble MoreSamples.scramble c c MoreSamples.freshBrowser in
  App.wellKeyed (App.localStorage MoreSamples.freshBrowser) ∧
  error r.1 = None ∧ (Types.level <$> App.user r.2) = Some A1.
Proof.
  intros c r.
  assert (App.wellKeyed (App.localStorage MoreSamples.freshBrowser)) as Hwk.
  { intros n acc H. simpl in H. by rewrite lookup_empty in H. }
  split; [exact Hwk|].
  destruct (submit_outcome MoreSamples.scramble MoreSamples.scramble c c
              MoreSamples.freshBrowser Hwk) as [[_ [e He]]|(He & _ & _ & _ & _ & u & Hu & _ & HA)].
  - vm_compute in He. discriminate He.
  - split; [exact He|]. subst r. rewrite Hu. simpl.
    by destruct (HA eq_refl) as [-> _].
Defined.

End WelcomeFacts.

(* ===================================================================== *)
(** ** Theorems: components/Quiz.tsx, the lesson quiz *)
(* ===================================================================== *)

Module QuizFacts.
Import Quiz.

Lemma quiz_run_cons (questions : list QuizQuestion) (s : Store) (e : Event) (trace : list Event) :
  run questions s (e :: trace) = run questions (step questions s e) trace.
Proof. reflexivity. Qed.

Lemma pass_from (questions : list QuizQuestion) :
  ∀ qs choices, Forall2 (λ q o, o ∈ options q) qs choices →
  ∀ i sc n, drop i questions = qs →
    run questions
      {| view := {| currentQuestionIndex := i; selectedAnswer := None;
                    showResult := false; score := sc |};
         completions := n |} (pass choices)
    = {| view := {| currentQuestionIndex := i + length qs; selectedAnswer := None;
                    showResult := false; score := sc + correctChoices qs choices |};
         completions := match qs with [] => n | _ => S n end |}.
Proof.
  induction 1 as [|q o qs os Ho Hrest IH]; intros i sc n Hdrop.
  - simpl. by rewrite !Nat.add_0_r.
  - assert (questions !! i = Some q) as Hq.
    { rewrite <- (Nat.add_0_r i), <- lookup_drop, Hdrop. reflexivity. }
    assert (drop (S i) questions = qs) as Hdrop'.
    { rewrite (drop_S _ _ _ Hq) in Hdrop. by injection Hdrop. }
    assert (length questions = i + S (length qs)) as Hlen.
    { rewrite <- (take_drop i questions) at 1. rewrite length_app, Hdrop.
      rewrite length_take. apply lookup_lt_Some in Hq. simpl. lia. }
    change (pass (o :: os)) with (ClickOption o :: ClickNext :: pass os).
    rewrite !quiz_run_cons.
    assert (∀ v, currentQuestionIndex v = i →
              render questions v = Question q (showResult v)) as Hrender.
    { intros v Hv. unfold render. rewrite Hv, Hq. by destruct questions. }
    unfold step at 2. rewrite Hrender by reflexivity. simpl showResult.
    rewrite bool_decide_eq_true_2 by exact Ho.
    unfold step at 1. rewrite Hrender by reflexivity. simpl.
    rewrite (IH (i + 1) _ _) by (by rewrite Nat.add_1_r).
    f_equal.
    + f_equal; [lia|]. destruct (String.eqb o (correctAnswer q)); lia.
    + destruct qs as [|q' qs'].
      * rewrite bool_decide_eq_true_2; [done|]. simpl in Hlen. lia.
      * rewrite bool_decide_eq_false_2; [done|]. simpl in Hlen. lia.
Qed.

(** X9. Answering every question of a quiz once, in order, each with one of
    the options on offer, ends on the final screen: the score shown is the
    number of choices that equal the correct answer of their question, out
    of the number of questions, and [onComplete] has been called exactly
    once. *)
Theorem full_pass (questions : list QuizQuestion) (choices : list string) :
  questions ≠ [] →
  Forall2 (λ q o, o ∈ options q) questions choices →
  let s := run questions mount (pass choices) in
  render questions (view s) = Complete (correctChoices questions choices) (length questions) ∧
  completions s = 1.
Proof.
  intros Hne Hall s. subst s. unfold mount, initialState.
  rewrite (pass_from questions questions choices Hall 0 0 0 eq_refl).
  destruct questions as [|q qs]; [done|]. split; [|done].
  unfold render. simpl currentQuestionIndex.
  rewrite lookup_ge_None_2 by (simpl; lia). reflexivity.
Qed.

Lemma full_pass_witness :
  let s := run [Samples.q1; Samples.q2] mount
             (pass [correctAnswer Samples.q1; correctAnswer Samples.q2]) in
  render [Samples.q1; Samples.q2] (view s) = Complete 2 2 ∧ completions s = 1.
Proof.
  assert (Forall2 (λ q o, o ∈ options q) [Samples.q1; Samples.q2]
            [correctAnswer Samples.q1; correctAnswer Samples.q2]) as Hall.
  { repeat constructor; apply (bool_decide_unpack _); vm_compute; exact I. }
  exact (full_pass [Samples.q1; Samples.q2] _ ltac:(discriminate) Hall).
Defined.

Lemma step_bounds (questions : list QuizQuestion) (s : Store) (e : Event) :
  (currentQuestionIndex (view s) ≤ length questions ∧
   score (view s) ≤ currentQuestionIndex (view s) + (if showResult (view s) then 1 else 0) ∧
   (showResult (view s) = true → currentQuestionIndex (view s) < length questions)) →
  let s' := step questions s e in
  currentQuestionIndex (view s') ≤ length questions ∧
  score (view s') ≤ currentQuestionIndex (view s') + (if showResult (view s') then 1 else 0) ∧
  (showResult (view s') = true → currentQuestionIndex (view s') < length questions).
Proof.
  intros (Hi & Hsc & Hshow) s'. subst s'. unfold step, render.
  destruct questions as [|q0 qs] eqn:Hqs; [by destruct e|]. rewrite <- Hqs in *.
  destruct (questions !! currentQuestionIndex (view s)) as [q|] eqn:Hq.
  - apply lookup_lt_Some in Hq.
    destruct e, (showResult (view s)) eqn:Hs; simpl; rewrite ?Hs; try done.
    + case_bool_decide; simpl; rewrite ?Hs; [|done].
      unfold handleAnswerSelect. rewrite Hs. simpl.
      split; [done|]. split; [|done]. destruct (String.eqb _ _); lia.
    + split; [lia|]. split; [lia|done].
  - destruct e; simpl; try done. split; [lia|]. split; [lia|done].
Qed.

Lemma run_bounds (questions : list QuizQuestion) (trace : list Event) :
  ∀ s,
  (currentQuestionIndex (view s) ≤ length questions ∧
   score (view s) ≤ currentQuestionIndex (view s) + (if showResult (view s) then 1 else 0) ∧
   (showResult (view s) = true → currentQuestionIndex (view s) < length questions)) →
  let s' := run questions s trace in
  currentQuestionIndex (view s') ≤ length questions ∧
  score (view s') ≤ currentQuestionIndex (view s') + (if showResult (view s') then 1 else 0) ∧
  (showResult (view s') = true → currentQuestionIndex (view s') < length questions).
Proof.
  induction trace as [|e rest IH]; intros s H; [exact H|].
  intros s'. subst s'. rewrite quiz_run_cons. apply IH. by apply step_bounds.
Qed.

(** X10. Whatever is clicked in a quiz, in whatever order, the question
    index never passes the number of questions, the score never exceeds the
    number of questions answered so far, and so the final screen never shows
    a score above the number of questions. *)
Theorem quiz_score_bounded (questions : list QuizQuestion) (trace : list Event) :
  let s := run questions mount trace in
  currentQuestionIndex (view s) ≤ length questions ∧
  score (view s) ≤ currentQuestionIndex (view s) + (if showResult (view s) then 1 else 0) ∧
  score (view s) ≤ length questions ∧
  (∀ sc n, render questions (view s) = Complete sc n → sc ≤ n ∧ n = length questions).
Proof.
  intros s.
  destruct (run_bounds questions trace mount) as (Hi & Hsc & Hshow).
  { simpl. split; [lia|]. split; [lia|done]. }
  fold s in Hi, Hsc, Hshow.
  assert (score (view s) ≤ length questions) as Hle.
  { destruct (showResult (view s)); [specialize (Hshow eq_refl)|]; lia. }
  split; [done|]. split; [done|]. split; [done|].
  intros sc n. unfold render. destruct questions as [|q0 qs]; [done|].
  destruct (_ !! _); [done|]. intros [= <- <-]. done.
Qed.

End QuizFacts.

(* ===================================================================== *)
(** ** Theorems: components/Quiz.tsx, a whole exam session *)
(* ===================================================================== *)

Module ExamSessionFacts.
Import Service ExamView ExamSession ExamFacts.

Lemma view_finishExam (c : Store) (now : string) (s : Store) :
  view (finishExam c now s) = setExamStarted false (setExamFinished true (view s)).
Proof.
  unfold finishExam. destruct (questions (view c)); [|done].
  by destruct (calculateScore (view c)).
Qed.

Lemma view_commit (now : string) (s : Store) :
  commit now s = s ∨
  (examFinished (view s) = false ∧ examStarted (view s) = true ∧
   (timeLeft (view s) ≤ 0)%Z ∧
   commit now s = finishExam s now s).
Proof.
  unfold commit, timerEffect.
  destruct (examStarted (view s)) eqn:Hs, (examFinished (view s)) eqn:Hf; simpl;
    try (left; by destruct (render (view s))).
  destruct (decide (timeLeft (view s) ≤ 0)%Z) as [Ht|Ht];
    [|left; by destruct (render (view s))].
  destruct (render (view s)) eqn:Hr; try (by right); by left.
Qed.

Lemma render_Running_error (st : State) (q : QuizQuestion) (b : bool) :
  render st = Running q b → truthy (error st) = false.
Proof. unfold render. intros Hr. repeat case_match; simplify_eq. done. Qed.

Lemma render_StartScreen_error (st : State) :
  render st = StartScreen → truthy (error st) = false.
Proof. unfold render. intros Hr. repeat case_match; simplify_eq. done. Qed.

Lemma render_Crashed (st : State) :
  render st = Crashed →
  ∃ qs, questions st = Some qs ∧ qs !! currentQuestionIndex st = None.
Proof. unfold render. intros Hr. repeat case_match; simplify_eq. by eexists. Qed.

(** *** The question index *)

Lemma mount_InRange (a0 : App.State) : InRange (mount a0).
Proof. by split. Qed.

Lemma dispatch_InRange (now : string) (e : Event) (s : Store) :
  InRange s → InRange (dispatch now e s).
Proof.
  intros [Hload Hidx]. unfold dispatch.
  destruct e; destruct (render (view s)) eqn:Hr; try done.
  - apply render_Loading in Hr. specialize (Hload Hr).
    destruct r as [qs|m]; split; simpl; try done.
    rewrite Hload. lia.
  - case_bool_decide; [|done]. split; [exact Hload|]. simpl. exact Hidx.
  - case_bool_decide; [done|].
    apply render_Running in Hr as (qs & Hq & _ & Hl & _).
    unfold handlePrev. case_decide; [|done]. split; simpl.
    + by rewrite Hl.
    + rewrite Hq in *. lia.
  - destruct lastQuestion; [done|].
    apply render_Running in Hr as (qs & Hq & _ & Hl & _).
    unfold handleNext. rewrite Hq. case_decide; [|done]. split; simpl.
    + by rewrite Hl.
    + rewrite Hq. lia.
  - destruct lastQuestion; [|done]. split.
    + rewrite view_finishExam. exact Hload.
    + rewrite view_finishExam. exact Hidx.
  - case_decide; [|done]. split; [exact Hload|exact Hidx].
Qed.

Lemma commit_InRange (now : string) (s : Store) : InRange s → InRange (commit now s).
Proof.
  intros HR. unfold InRange.
  destruct (view_commit now s) as [->|(_ & _ & _ & ->)]; [done|].
  rewrite view_finishExam. exact HR.
Qed.

Lemma run_InRange (trace : list (string * Event)) :
  ∀ s, InRange s → InRange (run trace s).
Proof.
  induction trace as [|[now e] rest IH]; intros s HR; [done|].
  simpl. by apply IH, commit_InRange, dispatch_InRange.
Qed.

(** X11. Whatever is clicked during an exam, the question index stays on a
    question: it never passes the last question and never goes below the
    first, so the running screen always has a question to show.  The view
    only breaks when the generator returned an empty list of questions and
    the exam is started. *)
Theorem exam_navigation_in_range (a0 : App.State) (trace : list (string * Event)) :
  let s := run trace (mount a0) in
  (∀ qs, questions (view s) = Some qs → qs ≠ [] →
     is_Some (qs !! currentQuestionIndex (view s))) ∧
  (render (view s) = Crashed → questions (view s) = Some []).
Proof.
  intros s. destruct (run_InRange trace (mount a0) (mount_InRange a0)) as [_ Hidx].
  fold s in Hidx. split.
  - intros qs Hq Hne. rewrite Hq in Hidx. apply lookup_lt_is_Some_2.
    destruct qs; [done|]. simpl in *. lia.
  - intros Hr. apply render_Crashed in Hr as (qs & Hq & Hnone).
    rewrite Hq in *. apply lookup_ge_None_1 in Hnone.
    destruct qs; [done|]. simpl in *. lia.
Qed.

(** *** The clock *)

Lemma mount_Clock (a0 : App.State) : Clock (mount a0).
Proof. split; simpl; unfold EXAM_DURATION; lia. Qed.

Lemma commit_Clock (now : string) (s : Store) :
  (0 ≤ timeLeft (view s) ≤ EXAM_DURATION)%Z →
  (examFinished (view s) = false →
   (0 < timeLeft (view s))%Z ∨
   (examStarted (view s) = true ∧ render (view s) ≠ Crashed)) →
  Clock (commit now s).
Proof.
  intros Hb Hpos. unfold Clock.
  destruct (examFinished (view s)) eqn:Hf.
  { rewrite (commit_finished now s Hf), Hf. by split. }
  assert ((0 < timeLeft (view s))%Z →
          (0 ≤ timeLeft (view (commit now s)) ≤ EXAM_DURATION)%Z ∧
          (examFinished (view (commit now s)) = false →
           (0 < timeLeft (view (commit now s)))%Z)) as Hkeep.
  { intros Ht. destruct (view_commit now s) as [->|(_ & _ & Hle & _)]; [|lia].
    by split. }
  destruct (Hpos eq_refl) as [Ht|[Hs Hr]]; [by apply Hkeep|].
  destruct (decide (0 < timeLeft (view s))%Z) as [Ht|Ht]; [by apply Hkeep|].
  unfold commit, timerEffect. rewrite Hs, Hf. simpl.
  rewrite decide_True by lia.
  destruct (render (view s)); try done; rewrite view_finishExam; simpl; by split.
Qed.

Lemma step_Clock (now : string) (e : Event) (s : Store) : Clock s → Clock (step now e s).
Proof.
  intros [Hb Hpos]. unfold step.
  assert (∀ d, timeLeft (view d) = timeLeft (view s) →
               (examFinished (view d) = false → examFinished (view s) = false) →
               Clock (commit now d)) as Hsame.
  { intros d Ht Hf. apply commit_Clock; rewrite Ht; [done|].
    intros Hd. left. by apply Hpos, Hf. }
  unfold dispatch. destruct e; destruct (render (view s)) eqn:Hr;
    try (by apply Hsame).
  - apply Hsame; [by destruct r|]. by destruct r.
  - case_bool_decide; by apply Hsame.
  - case_bool_decide; [by apply Hsame|]. apply Hsame; unfold handlePrev; simpl;
      by case_decide.
  - destruct lastQuestion; [by apply Hsame|].
    apply Hsame; unfold handleNext; simpl;
      destruct (questions (view s)); try done; by case_decide.
  - destruct lastQuestion; [|by apply Hsame].
    apply Hsame; rewrite view_finishExam; simpl; done.
  - case_decide; [|by apply Hsame].
    apply render_Running in Hr as Hrun. destruct Hrun as (qs & Hq & Hidx & Hl & Hs & Hf).
    apply commit_Clock; simpl.
    + lia.
    + intros _. right. split; [done|].
      change (render (setTimeLeft (λ prev, (prev - 1)%Z) (view s)) ≠ Crashed).
      replace (render (setTimeLeft (λ prev, (prev - 1)%Z) (view s)))
        with (render (view s)) by reflexivity.
      by rewrite Hr.
Qed.

Lemma run_Clock (trace : list (string * Event)) :
  ∀ s, Clock s → Clock (run trace s).
Proof.
  induction trace as [|[now e] rest IH]; intros s HC; [done|].
  simpl. by apply IH, step_Clock.
Qed.

(** X12. The exam clock never leaves the range from zero to thirty minutes,
    and it is above zero for as long as the exam is not finished: the
    moment it reaches zero the exam is finished. *)
Theorem exam_clock_in_range (a0 : App.State) (trace : list (string * Event)) :
  let s := run trace (mount a0) in
  (0 ≤ timeLeft (view s) ≤ 30 * 60)%Z ∧
  (examFinished (view s) = false → 0 < timeLeft (view s))%Z.
Proof. intros s. exact (run_Clock trace (mount a0) (mount_Clock a0)). Qed.

(** *** The timer effect *)

Lemma tick_step (now : string) (s : Store) (q : QuizQuestion) (b : bool) :
  render (view s) = Running q b → (0 < timeLeft (view s))%Z →
  let s1 := setView (setTimeLeft (λ prev, (prev - 1)%Z)) s in
  step now Tick s =
    if decide (timeLeft (view s) ≤ 1)%Z then finishExam s1 now s1 else s1.
Proof.
  intros Hr Ht s1. unfold step, dispatch. rewrite Hr, decide_True by done.
  fold s1. unfold commit.
  replace (render (view s1)) with (render (view s)) by reflexivity. rewrite Hr.
  apply render_Running in Hr as (qs & Hq & Hidx & Hl & Hs & Hf).
  unfold timerEffect.
  replace (examStarted (view s1)) with (examStarted (view s)) by reflexivity.
  replace (examFinished (view s1)) with (examFinished (view s)) by reflexivity.
  rewrite Hs, Hf. simpl.
  destruct (decide (timeLeft (view s) ≤ 1)%Z).
  - rewrite decide_True by lia. done.
  - rewrite decide_False by lia. done.
Qed.

Lemma ticks_finish (q : QuizQuestion) (b : bool) (nows : list string) :
  ∀ s, render (view s) = Running q b →
       Z.of_nat (length nows) = timeLeft (view s) → nows ≠ [] →
  let s0 := setView (setTimeLeft (λ _, 0%Z)) s in
  ∃ now, last nows = Some now ∧ run (ticks nows) s = finishExam s0 now s0.
Proof.
  induction nows as [|now rest IH]; intros s Hr Hlen Hne s0; [done|].
  simpl in Hlen. change (ticks (now :: rest)) with ((now, Tick) :: ticks rest).
  simpl run. rewrite (tick_step now s q b Hr) by lia.
  destruct rest as [|now2 rest].
  - rewrite decide_True by (simpl in Hlen; lia). exists now. split; [done|]. simpl.
    assert (setView (setTimeLeft (λ prev, (prev - 1)%Z)) s = s0) as ->; [|done].
    unfold s0, setView, setTimeLeft. do 2 f_equal. simpl in Hlen. lia.
  - rewrite decide_False by (simpl in Hlen; lia).
    destruct (IH (setView (setTimeLeft (λ prev, (prev - 1)%Z)) s)) as (now' & Hlast & Hrun).
    + exact Hr.
    + simpl in *. lia.
    + done.
    + exists now'. split; [exact Hlast|exact Hrun].
Qed.

(** X13. Once the exam runs, the clock alone ends it: after as many ticks of
    the interval as there are seconds left, and nothing else, the exam is
    finished with the clock at zero, the answers are as they stood, and the
    result saved is the score of those answers, dated at the last tick. *)
Theorem timer_forces_finish (a0 : App.State) (trace : list (string * Event))
    (nows : list string) (q : QuizQuestion) (b : bool) :
  let s := run trace (mount a0) in
  render (view s) = Running q b →
  Z.of_nat (length nows) = timeLeft (view s) →
  let s' := run (ticks nows) s in
  examFinished (view s') = true ∧ timeLeft (view s') = 0%Z ∧
  answers (view s') = answers (view s) ∧
  ∃ now qs, last nows = Some now ∧ questions (view s) = Some qs ∧
    app s' = App.handleSaveExamResult (App.user a0) now
               (countCorrect qs (answers (view s))) (length qs) a0.
Proof.
  intros s Hr Hlen s'.
  pose proof (run_Inv a0 trace (mount a0) (mount_Inv a0)) as HI. fold s in HI.
  pose proof (run_Clock trace (mount a0) (mount_Clock a0)) as [_ Hpos]. fold s in Hpos.
  apply render_Running in Hr as Hrun. destruct Hrun as (qs & Hq & _ & _ & _ & Hf).
  specialize (Hpos Hf).
  destruct (ticks_finish q b nows s Hr Hlen) as (now & Hlast & Hrun).
  { intros ->. simpl in Hlen. lia. }
  subst s'. rewrite Hrun.
  split; [apply finishExam_finished|].
  split; [by rewrite view_finishExam|].
  split; [by rewrite view_finishExam|].
  exists now, qs. split; [exact Hlast|]. split; [exact Hq|].
  unfold finishExam. simpl questions. rewrite Hq.
  replace (calculateScore (view (setView (setTimeLeft (λ _, 0%Z)) s)))
    with (calculateScore (view s)) by reflexivity.
  rewrite (calculateScore_Some a0 s qs HI Hq). simpl.
  by rewrite (inv_open a0 s HI Hf).
Qed.

Lemma timer_forces_finish_witness :
  let s := run (take 2 Samples.examRun) (mount Samples.inExam) in
  let s' := run (ticks (replicate 1800 "2026-01-01T10:30:05.000Z"%string)) s in
  render (view s) = Running Samples.q1 false ∧
  examFinished (view s') = true ∧ timeLeft (view s') = 0%Z.
Proof.
  intros s s'.
  assert (render (view s) = Running Samples.q1 false) as Hr by (vm_compute; reflexivity).
  split; [exact Hr|].
  destruct (timer_forces_finish Samples.inExam (take 2 Samples.examRun)
              (replicate 1800 "2026-01-01T10:30:05.000Z"%string) Samples.q1 false Hr)
    as (Hf & Ht & _).
  - vm_compute. reflexivity.
  - split; [exact Hf|exact Ht].
Defined.

(** *** A failed fetch *)

(** X14. When the exam questions cannot be generated the view is stuck: it
    shows the error message (or, for an empty message, that there are no
    questions), nothing that happens afterwards changes it, it never
    fetches again, and [App] is left as it was. *)
Theorem failed_fetch_dead_end (a0 : App.State) (now : string) (message : string)
    (trace : list (string * Event)) :
  let s1 := step now (ExamSettled (Err message)) (mount a0) in
  run trace s1 = s1 ∧ app s1 = a0 ∧
  questions (view s1) = None ∧ isLoading (view s1) = false ∧
  render (view s1) = if truthy (Some message) then ErrorMessage else NoQuestions.
Proof.
  intros s1.
  assert (s1 = setView (fetchExamSettled (Err message)) (mount a0)) as Hs1.
  { unfold s1, step, dispatch, commit, timerEffect. simpl.
    by destruct (render _). }
  assert (render (view s1) = if truthy (Some message) then ErrorMessage else NoQuestions)
    as Hr.
  { rewrite Hs1. unfold render. simpl. by destruct (negb (String.eqb message EmptyString)). }
  split; [|by rewrite Hs1].
  assert (∀ now' e, step now' e s1 = s1) as Hstuck.
  { intros now' e. unfold step.
    assert (dispatch now' e s1 = s1) as ->.
    { unfold dispatch. rewrite Hr. by destruct e, (truthy (Some message)). }
    unfold commit, timerEffect. rewrite Hr, Hs1. simpl.
    by destruct (truthy (Some message)). }
  induction trace as [|[now' e] rest IH]; [done|].
  simpl. by rewrite Hstuck.
Qed.

(** *** After the exam *)

Lemma mount_Settled (a0 : App.State) : Settled a0 (mount a0).
Proof. split; simpl; [by intros [|]|done]. Qed.

Lemma finishExam_Settled (a0 : App.State) (now : string) (c : Store) :
  Inv a0 c → examFinished (view c) = false → is_Some (questions (view c)) →
  truthy (error (view c)) = false →
  Settled a0 (finishExam c now c).
Proof.
  intros HI Hf [qs Hq] He. unfold finishExam.
  rewrite Hq, (calculateScore_Some a0 c qs HI Hq). split; simpl.
  - intros _. exact He.
  - intros _. exists now, qs. split; [done|]. by rewrite (inv_open a0 c HI Hf).
Qed.

Lemma Settled_open (a0 : App.State) (d : Store) :
  examFinished (view d) = false →
  (examStarted (view d) = true → truthy (error (view d)) = false) →
  Settled a0 d.
Proof.
  intros Hf He. split; [|by rewrite Hf].
  intros [Hs|Hf']; [by apply He|congruence].
Qed.

Lemma dispatch_Settled (a0 : App.State) (now : string) (e : Event) (s : Store) :
  Inv a0 s → Settled a0 s → Settled a0 (dispatch now e s).
Proof.
  intros HI HS. unfold dispatch.
  destruct e; destruct (render (view s)) eqn:Hr; try done.
  - apply render_Loading in Hr. destruct (inv_loading a0 s HI Hr) as [Hs Hf].
    apply Settled_open; destruct r; simpl; congruence.
  - apply render_StartScreen_error in Hr. destruct HS as [_ HS]. by split.
  - case_bool_decide; [|done].
    apply render_Running in Hr as Hrun. destruct Hrun as (qs & _ & _ & _ & _ & Hf).
    apply Settled_open; [done|]. intros _. by apply render_Running_error in Hr.
  - case_bool_decide; [done|].
    apply render_Running in Hr as Hrun. destruct Hrun as (qs & _ & _ & _ & _ & Hf).
    apply render_Running_error in Hr.
    apply Settled_open; unfold handlePrev; simpl; by case_decide.
  - destruct lastQuestion; [done|].
    apply render_Running in Hr as Hrun. destruct Hrun as (qs & Hq & _ & _ & _ & Hf).
    apply render_Running_error in Hr.
    apply Settled_open; unfold handleNext; simpl; rewrite Hq; by case_decide.
  - destruct lastQuestion; [|done].
    apply render_Running in Hr as Hrun. destruct Hrun as (qs & Hq & _ & _ & _ & Hf).
    apply finishExam_Settled; [done|done|by eexists|by apply render_Running_error in Hr].
  - case_decide; [|done].
    apply render_Running in Hr as Hrun. destruct Hrun as (qs & _ & _ & _ & _ & Hf).
    apply Settled_open; [done|]. intros _. by apply render_Running_error in Hr.
Qed.

Lemma commit_Settled (a0 : App.State) (now : string) (s : Store) :
  Inv a0 s → Settled a0 s → Settled a0 (commit now s).
Proof.
  intros HI HS.
  destruct (view_commit now s) as [->|(Hf & Hs & _ & ->)]; [done|].
  apply finishExam_Settled; [done|done| |].
  - apply (inv_questions a0 s HI). by left.
  - apply HS. by left.
Qed.

Lemma run_Settled (a0 : App.State) (trace : list (string * Event)) :
  ∀ s, Inv a0 s → Settled a0 s → Settled a0 (run trace s).
Proof.
  induction trace as [|[now e] rest IH]; intros s HI HS; [done|].
  simpl. apply IH; [by apply step_Inv|].
  apply commit_Settled; [by apply dispatch_Inv|by apply dispatch_Settled].
Qed.

Lemma finished_facts (a0 : App.State) (s : Store) :
  Inv a0 s → Settled a0 s → examFinished (view s) = true →
  isLoading (view s) = false ∧ truthy (error (view s)) = false ∧
  ∃ now qs, questions (view s) = Some qs ∧
    calculateScore (view s) = Some (countCorrect qs (answers (view s))) ∧
    app s = App.handleSaveExamResult (App.user a0) now
              (countCorrect qs (answers (view s))) (length qs) a0.
Proof.
  intros HI [He Hsaved] Hf. split.
  - destruct (isLoading (view s)) eqn:Hl; [|done].
    destruct (inv_loading a0 s HI Hl). congruence.
  - split; [apply He; by right|].
    destruct (Hsaved Hf) as (now & qs & Hq & Happ).
    exists now, qs. split; [done|]. split; [|done].
    by apply (calculateScore_Some a0).
Qed.

Lemma step_just_finished (now : string) (e : Event) (s : Store) :
  examFinished (view s) = false → examFinished (view (step now e s)) = true →
  examStarted (view (step now e s)) = false.
Proof.
  intros Hf. unfold step.
  destruct (view_commit now (dispatch now e s)) as [->|(_ & _ & _ & ->)];
    [|by rewrite view_finishExam].
  unfold dispatch. destruct e; destruct (render (view s)); simpl; try congruence.
  - destruct r; simpl; congruence.
  - case_bool_decide; simpl; congruence.
  - case_bool_decide; [congruence|]. unfold handlePrev. case_decide; simpl; congruence.
  - destruct lastQuestion; [congruence|]. unfold handleNext.
    destruct (questions (view s)); simpl; [|congruence]. case_decide; simpl; congruence.
  - destruct lastQuestion; [|congruence]. by rewrite view_finishExam.
  - case_decide; simpl; congruence.
Qed.

(** X15. Whichever way an exam ends, by the finish button or by the clock, the
    view that comes up next is the start screen, not the finished screen:
    finishing clears the started flag, and the start screen is chosen
    before the finished flag is looked at. *)
Theorem finish_returns_to_start_screen (a0 : App.State) (trace : list (string * Event))
    (now : string) (e : Event) :
  let s := run trace (mount a0) in
  examFinished (view s) = false → examFinished (view (step now e s)) = true →
  examStarted (view (step now e s)) = false ∧
  render (view (step now e s)) = StartScreen.
Proof.
  intros s Hopen Hdone.
  pose proof (step_just_finished now e s Hopen Hdone) as Hs.
  split; [exact Hs|].
  assert (Inv a0 s) as HI by apply (run_Inv a0 trace (mount a0) (mount_Inv a0)).
  assert (Settled a0 s) as HS
    by apply (run_Settled a0 trace (mount a0) (mount_Inv a0) (mount_Settled a0)).
  assert (Inv a0 (step now e s)) as HI' by by apply step_Inv.
  assert (Settled a0 (step now e s)) as HS'.
  { apply commit_Settled; [by apply dispatch_Inv|by apply dispatch_Settled]. }
  destruct (finished_facts a0 _ HI' HS' Hdone) as (Hl & He & _ & qs & Hq & _).
  unfold render. by rewrite Hl, He, Hq, Hs.
Qed.

Lemma finish_returns_to_start_screen_witness :
  let s := run (take 5 Samples.examRun) (mount Samples.inExam) in
  let s' := step "2026-01-01T10:00:20.000Z" ClickFinish s in
  examFinished (view s) = false ∧ examFinished (view s') = true ∧
  render (view s') = StartScreen.
Proof.
  intros s s'. split; [reflexivity|]. split; [reflexivity|].
  exact (proj2 (finish_returns_to_start_screen Samples.inExam (take 5 Samples.examRun)
                  "2026-01-01T10:00:20.000Z" ClickFinish eq_refl eq_refl)).
Defined.

(** X16. Once an exam is finished the view shows the start screen until the
    start button is pressed and the finished screen from then on; pressing
    start never reopens the questions; and the score the finished screen
    computes is the score that was saved to the exam history. *)
Theorem finished_exam_screen (a0 : App.State) (trace : list (string * Event)) :
  let s := run trace (mount a0) in
  examFinished (view s) = true →
  render (view s) = (if examStarted (view s) then FinishedScreen else StartScreen) ∧
  (∀ now, render (view (step now ClickStart s)) = FinishedScreen) ∧
  ∃ now qs sc, questions (view s) = Some qs ∧ calculateScore (view s) = Some sc ∧
    app s = App.handleSaveExamResult (App.user a0) now sc (length qs) a0.
Proof.
  intros s Hf.
  assert (Inv a0 s) as HI by apply (run_Inv a0 trace (mount a0) (mount_Inv a0)).
  assert (Settled a0 s) as HS
    by apply (run_Settled a0 trace (mount a0) (mount_Inv a0) (mount_Settled a0)).
  destruct (finished_facts a0 s HI HS Hf) as (Hl & He & now & qs & Hq & Hsc & Happ).
  assert (render (view s) = if examStarted (view s) then FinishedScreen else StartScreen)
    as Hr.
  { unfold render. rewrite Hl, He, Hq, Hf. by destruct (examStarted (view s)). }
  split; [exact Hr|]. split; [|by exists now, qs, (countCorrect qs (answers (view s)))].
  intros now'. unfold step.
  rewrite commit_finished by (by apply dispatch_finished).
  unfold dispatch. rewrite Hr.
  destruct (examStarted (view s)) eqn:Hs.
  - unfold render. by rewrite Hl, He, Hq, Hs, Hf.
  - unfold render. simpl. by rewrite Hl, He, Hq, Hf.
Qed.

Lemma finished_exam_screen_witness :
  let s := run Samples.examRun (mount Samples.inExam) in
  examFinished (view s) = true ∧ render (view s) = StartScreen ∧
  render (view (step "2026-01-01T10:00:30.000Z" ClickStart s)) = FinishedScreen.
Proof.
  intros s.
  destruct (finished_exam_screen Samples.inExam Samples.examRun eq_refl) as (Hr & Hstart & _).
  split; [reflexivity|]. split; [exact Hr|apply Hstart].
Defined.

End ExamSessionFacts.

(* ===================================================================== *)
(** ** Theorems: components/TopicView.tsx, a whole topic session *)
(* ===================================================================== *)

Module TopicSessionFacts.
Import Service TopicView TopicSession TopicFacts.

(** *** A failed fetch *)

Lemma Stuck_generateShown (s : Store) : Stuck s → generateShown (view s) = false.
Proof.
  intros (_ & _ & Hl & Hp & He). unfold generateShown.
  destruct (activeTab (view s)); [done|]. rewrite Hl, Hp, He. done.
Qed.

Lemma Stuck_tasksShown (s : Store) : Stuck s → tasksShown (view s) = None.
Proof.
  intros (_ & _ & Hl & Hp & He). unfold tasksShown.
  destruct (activeTab (view s)); [done|]. by rewrite Hl, He.
Qed.

Lemma step_Stuck (topic : Topic) (e : Event) (s : Store) :
  Stuck s →
  Stuck (step topic e s) ∧ error (view (step topic e s)) = error (view s) ∧
  lessonContent (view (step topic e s)) = lessonContent (view s) ∧
  (lessonContent (view s) = None → app (step topic e s) = app s).
Proof.
  intros HS. pose proof HS as (Hlp & Hpp & Hl & Hp & He).
  destruct e; simpl.
  - by rewrite Hlp.
  - by rewrite Hpp.
  - destruct (checkPending s !! k) as [[i c]|]; [|done]. by destruct r as [[fb ok]|m].
  - done.
  - by rewrite (Stuck_generateShown s HS).
  - destruct (vocabularyShown (view s)) as [items|] eqn:Hv; [|done].
    case_bool_decide; [|done]. split; [done|]. split; [done|]. split; [done|].
    intros Hnone. unfold vocabularyShown in Hv. rewrite Hnone in Hv.
    destruct (activeTab (view s)); [|done]. by destruct (isLoading_lesson (view s)).
  - by rewrite (Stuck_tasksShown s HS).
  - unfold clickCheckAnswer. by rewrite (Stuck_tasksShown s HS).
Qed.

Lemma run_Stuck (topic : Topic) (trace : list Event) :
  ∀ s, Stuck s →
  Stuck (run topic trace s) ∧ error (view (run topic trace s)) = error (view s) ∧
  lessonContent (view (run topic trace s)) = lessonContent (view s) ∧
  (lessonContent (view s) = None → app (run topic trace s) = app s).
Proof.
  induction trace as [|e rest IH]; intros s HS; [done|]. simpl.
  destruct (step_Stuck topic e s HS) as (HS' & He & Hc & Ha).
  destruct (IH _ HS') as (HS'' & He' & Hc' & Ha').
  split; [done|]. split; [congruence|]. split; [congruence|].
  intros Hnone. rewrite Ha' by congruence. by apply Ha.
Qed.

Lemma mount_Quiet (a : App.State) : Quiet (mount a).
Proof. done. Qed.

Lemma step_Quiet (topic : Topic) (e : Event) (s : Store) :
  Quiet s → Quiet (step topic e s).
Proof.
  unfold Quiet. intros HQ. destruct e; simpl; try done.
  - destruct (lessonPending s); [|done]. by destruct r.
  - destruct (practicePending s); [|done]. by destruct r.
  - destruct (checkPending s !! k) as [[i c]|]; [|done]. by destruct r as [[fb ok]|m].
  - destruct (generateShown (view s)); [|done]. unfold handleGeneratePractice.
    by destruct (isLoading_practice (r_view (renderOf s))).
  - destruct (vocabularyShown (view s)); [|done]. by case_bool_decide.
  - destruct (tasksShown (view s) ≫= _); [|done]. by destruct (isChecked (view s) index).
  - unfold clickCheckAnswer. destruct (tasksShown (view s) ≫= _); [|done].
    destruct (checkDisabled (view s) index); [done|]. unfold handleCheckAnswer. simpl.
    destruct (userAnswers (view s) !! index); [|done].
    by destruct (String.eqb _ _ || blank _).
Qed.

Lemma run_Quiet (topic : Topic) (trace : list Event) :
  ∀ s, Quiet s → Quiet (run topic trace s).
Proof.
  induction trace as [|e rest IH]; intros s HQ; [done|].
  simpl. by apply IH, step_Quiet.
Qed.

(** X17. A practice generation that fails once the lesson has settled leaves
    the practice tab without a way forward for as long as the view stays
    mounted on the same topic and level: the error message stays up, there is
    no practice content and no task list, and neither the generate nor the
    regenerate button is shown again, whatever is clicked or still
    arrives. *)
Theorem failed_practice_is_dead_end (topic : Topic) (a : App.State)
    (before after : list Event) (message : string) :
  let s := run topic before (mount a) in
  lessonPending s = None → isLoading_practice (view s) = true →
  truthy (Some message) = true →
  let s' := run topic after (step topic (PracticeSettled (Err message)) s) in
  error (view s') = Some message ∧ practiceContent (view s') = None ∧
  generateShown (view s') = false ∧ tasksShown (view s') = None ∧
  practicePending s' = [].
Proof.
  intros s Hlp Hload Hm s'.
  pose proof (run_SingleFlight topic before (mount a) (mount_SingleFlight a)) as HF.
  pose proof (run_Quiet topic before (mount a) (mount_Quiet a)) as HQ.
  fold s in HF, HQ.
  destruct HF as [[_ [c Hc]]|[Hno _]]; [|congruence].
  assert (Stuck (step topic (PracticeSettled (Err message)) s) ∧
          error (view (step topic (PracticeSettled (Err message)) s)) = Some message)
    as [HS He].
  { simpl. rewrite Hc. simpl. split; [|done].
    split; [done|]. split; [done|]. split; [done|]. split; [by apply HQ|done]. }
  destruct (run_Stuck topic after _ HS) as (HS' & He' & _).
  fold s' in HS', He'. pose proof HS' as (_ & Hpp & _ & Hp & _).
  split; [congruence|]. split; [done|].
  split; [by apply Stuck_generateShown|]. split; [by apply Stuck_tasksShown|done].
Qed.

Lemma failed_practice_is_dead_end_witness :
  let s := run Samples.presentSimple
             [LessonSettled (Ok Samples.lessonPS); ClickTab PracticeTab; ClickGenerate]
             (mount Samples.inTopic) in
  let s' := run Samples.presentSimple [ClickGenerate; ClickTab LessonTab; ClickTab PracticeTab]
              (step Samples.presentSimple (PracticeSettled (Err "quota"%string)) s) in
  isLoading_practice (view s) = true ∧
  generateShown (view s') = false ∧ error (view s') = Some "quota"%string.
Proof.
  intros s s'. split; [reflexivity|].
  destruct (failed_practice_is_dead_end Samples.presentSimple Samples.inTopic
              [LessonSettled (Ok Samples.lessonPS); ClickTab PracticeTab; ClickGenerate]
              [ClickGenerate; ClickTab LessonTab; ClickTab PracticeTab] "quota"%string
              eq_refl eq_refl eq_refl) as (He & _ & Hg & _).
  split; [exact Hg|exact He].
Defined.

(** X18. A lesson that fails to load leaves the topic as it was and blocks
    the whole view for as long as it stays mounted on the same topic and
    level: the user's progress and the stored account are untouched, there is
    no lesson and no vocabulary list, and the practice tab shows the
    lesson's error without any button to generate practice. *)
Theorem failed_lesson_blocks_practice (topic : Topic) (a : App.State)
    (message : string) (after : list Event) :
  truthy (Some message) = true →
  let s' := run topic after (step topic (LessonSettled (Err message)) (mount a)) in
  app s' = a ∧ error (view s') = Some message ∧
  lessonContent (view s') = None ∧ vocabularyShown (view s') = None ∧
  practiceContent (view s') = None ∧
  generateShown (view s') = false ∧ tasksShown (view s') = None.
Proof.
  intros Hm s'.
  assert (Stuck (step topic (LessonSettled (Err message)) (mount a))) as HS.
  { simpl. split; [done|]. split; [done|]. split; [done|]. split; [done|done]. }
  destruct (run_Stuck topic after _ HS) as (HS' & He & Hc & Ha).
  fold s' in HS', He, Hc, Ha. pose proof HS' as (_ & _ & _ & Hp & _).
  split; [by apply Ha|]. split; [done|]. split; [done|].
  split; [|split; [done|split; [by apply Stuck_generateShown|by apply Stuck_tasksShown]]].
  unfold vocabularyShown. rewrite Hc. simpl.
  destruct (activeTab (view s')); [|done]. by destruct (isLoading_lesson (view s')).
Qed.

Lemma failed_lesson_blocks_practice_witness :
  let s' := run Samples.presentSimple [ClickTab PracticeTab; ClickGenerate]
              (step Samples.presentSimple (LessonSettled (Err "offline"%string))
                 (mount Samples.inTopic)) in
  truthy (Some "offline"%string) = true ∧ app s' = Samples.inTopic ∧
  generateShown (view s') = false.
Proof.
  intros s'. split; [reflexivity|].
  destruct (failed_lesson_blocks_practice Samples.presentSimple Samples.inTopic
              "offline"%string [ClickTab PracticeTab; ClickGenerate] eq_refl)
    as (Ha & _ & _ & _ & _ & Hg & _).
  split; [exact Ha|exact Hg].
Defined.

(** *** The ticked vocabulary *)

Lemma vocabularyOf_update (topic : Topic) (cu : option User) (p : TopicProgress)
    (a : App.State) :
  vocabularyOf topic (App.user (App.handleProgressUpdate cu (id topic) p a)) =
    match cu with
    | Some _ => completedVocabulary p
    | None => vocabularyOf topic (App.user a)
    end.
Proof.
  destruct cu as [u|]; [|done]. unfold vocabularyOf, userProgress. simpl.
  by rewrite lookup_insert_eq.
Qed.

Lemma markComplete_vocabulary (topic : Topic) (c : Render) (section : ContentSectionType)
    (a : App.State) :
  vocabularyOf topic (App.user (markComplete topic c section a)) =
    vocabularyOf topic (App.user a) ∨
  vocabularyOf topic (App.user (markComplete topic c section a)) =
    vocabularyOf topic (r_user c).
Proof.
  unfold markComplete.
  destruct (includes (completedSections (progressOf topic c)) section); simpl; [by left|].
  unfold handleProgressUpdate. rewrite vocabularyOf_update.
  unfold vocabularyOf, progressOf. destruct (r_user c); [by right|by left].
Qed.

Lemma mount_Clean (topic : Topic) (a : App.State) :
  NoDup (vocabularyOf topic (App.user a)) → Clean topic (mount a).
Proof.
  intros Hnd. split; [done|]. split.
  - simpl. by intros c [= <-].
  - simpl. intros c Hc. by apply elem_of_nil in Hc.
Qed.

Lemma step_Clean (topic : Topic) (e : Event) (s : Store) :
  Clean topic s → Clean topic (step topic e s).
Proof.
  intros HC. pose proof HC as (Hu & Hl & Hp). destruct e; simpl; try exact HC.
  - destruct (lessonPending s) as [cl|] eqn:Hlp; [|exact HC].
    specialize (Hl cl eq_refl).
    destruct r as [content|m]; simpl; (split; [|split; [done|exact Hp]]); [|exact Hu].
    simpl. by destruct (markComplete_vocabulary topic cl lesson (app s)) as [-> | ->].
  - destruct (practicePending s) as [|c rest] eqn:Hpp; [exact HC|].
    assert (NoDup (vocabularyOf topic (r_user c))) as Hc.
    { apply Hp. by left. }
    assert (∀ c', c' ∈ rest → NoDup (vocabularyOf topic (r_user c'))) as Hrest.
    { intros c' Hc'. apply Hp. by right. }
    destruct r as [content|m]; simpl; (split; [|split; [exact Hl|exact Hrest]]);
      [|exact Hu].
    simpl. by destruct (markComplete_vocabulary topic c practice (app s)) as [-> | ->].
  - destruct (checkPending s !! k) as [[i c]|]; [|exact HC].
    destruct r as [[fb ok]|m]; exact HC.
  - destruct (generateShown (view s)); [|exact HC]. unfold handleGeneratePractice.
    destruct (isLoading_practice (r_view (renderOf s))); [exact HC|]. simpl.
    split; [exact Hu|]. split; [exact Hl|]. simpl.
    intros c Hc. apply elem_of_app in Hc as [Hc|Hc]; [by apply Hp|].
    apply list_elem_of_singleton in Hc as ->. exact Hu.
  - destruct (vocabularyShown (view s)); [|exact HC]. case_bool_decide; [|exact HC].
    split; [|split; [exact Hl|exact Hp]]. simpl.
    unfold handleVocabToggle, handleProgressUpdate. rewrite vocabularyOf_update. simpl.
    change (completedVocabulary (progressOf topic (renderOf s)))
      with (vocabularyOf topic (App.user (app s))).
    destruct (App.user (app s)); [|exact Hu]. by apply NoDup_toggled.
  - destruct (tasksShown (view s) ≫= _); [|exact HC].
    destruct (isChecked (view s) index); exact HC.
  - unfold clickCheckAnswer. destruct (tasksShown (view s) ≫= _); [|exact HC].
    destruct (checkDisabled (view s) index); [exact HC|]. unfold handleCheckAnswer. simpl.
    destruct (userAnswers (view s) !! index); [|exact HC].
    destruct (String.eqb _ _ || blank _); exact HC.
Qed.

Lemma run_Clean (topic : Topic) (trace : list Event) :
  ∀ s, Clean topic s → Clean topic (run topic trace s).
Proof.
  induction trace as [|e rest IH]; intros s HC; [done|].
  simpl. by apply IH, step_Clean.
Qed.

(** X19. If no word is ticked twice in a topic when its view is opened, none
    is ever ticked twice afterwards: whatever is clicked and whichever fetch
    settles in whatever order, the list of learned words of the topic stays
    free of duplicates. *)
Theorem vocabulary_stays_duplicate_free (topic : Topic) (a : App.State)
    (trace : list Event) :
  NoDup (vocabularyOf topic (App.user a)) →
  NoDup (completedVocabulary (currentProgress topic (run topic trace (mount a)))).
Proof.
  intros Hnd. by destruct (run_Clean topic trace (mount a) (mount_Clean topic a Hnd)).
Qed.

Lemma vocabulary_stays_duplicate_free_witness :
  NoDup (vocabularyOf Samples.presentSimple (App.user Samples.inTopic)) ∧
  NoDup (completedVocabulary
           (currentProgress Samples.presentSimple
              (run Samples.presentSimple Samples.toggleWhileLoading
                 (mount Samples.inTopic)))).
Proof.
  assert (NoDup (vocabularyOf Samples.presentSimple (App.user Samples.inTopic))) as Hnd.
  { apply (bool_decide_unpack _). vm_compute. exact I. }
  split; [exact Hnd|].
  exact (vocabulary_stays_duplicate_free Samples.presentSimple Samples.inTopic
           Samples.toggleWhileLoading Hnd).
Defined.

(** *** Completing a topic *)

Lemma markComplete_fresh (topic : Topic) (c : Render) (u : User)
    (section : ContentSectionType) (a : App.State) :
  r_user c = Some u →
  ∃ u', (App.user (markComplete topic c section a) = Some u' ∨
         (u' = u ∧ markComplete topic c section a = a)) ∧
        section ∈ sectionsSeen topic (Some u') ∧
        sectionsSeen topic (Some u) ⊆ sectionsSeen topic (Some u') ∧
        vocabularyOf topic (Some u') = vocabularyOf topic (Some u).
Proof.
  intros Hu. unfold markComplete.
  destruct (includes (completedSections (progressOf topic c)) section) eqn:Hi; simpl.
  - exists u. split; [by right|].
    apply includes_true in Hi. unfold progressOf in Hi. rewrite Hu in Hi.
    split; [exact Hi|]. split; done.
  - unfold handleProgressUpdate, App.handleProgressUpdate. rewrite Hu. simpl.
    eexists. split; [left; reflexivity|].
    unfold sectionsSeen, vocabularyOf, userProgress, progressOf. simpl.
    rewrite lookup_insert_eq, Hu. simpl.
    split; [set_solver|]. split; [set_solver|done].
Qed.

(** X20. When the lesson arrives first and practice is requested and arrives
    after it, the topic ends up complete for any logged-in user, whatever
    the progress was before: both sections are marked, every section marked
    before is still marked, the ticked words are as they were, and the
    dashboard counts the topic as complete. *)
Theorem sequential_flow_completes_topic (topic : Topic) (a : App.State) (u : User)
    (l : LessonContent) (p : ComprehensivePractice) :
  App.user a = Some u →
  let s := run topic (lessonThenPractice l p) (mount a) in
  ∃ u', App.user (app s) = Some u' ∧
        Dashboard.isTopicComplete u' (id topic) = true ∧
        sectionsSeen topic (Some u) ⊆ sectionsSeen topic (Some u') ∧
        vocabularyOf topic (Some u') = vocabularyOf topic (Some u) ∧
        lessonContent (view s) = Some l ∧ practiceContent (view s) = Some p.
Proof.
  intros Hu s. subst s. unfold lessonThenPractice. simpl.
  destruct (markComplete_fresh topic {| r_view := initialState; r_user := App.user a |}
              u lesson a Hu) as (u1 & Hu1 & Hin1 & Hsub1 & Hv1).
  set (a1 := markComplete topic {| r_view := initialState; r_user := App.user a |} lesson a)
    in *.
  assert (App.user a1 = Some u1) as Hu1'.
  { destruct Hu1 as [Hu1|[-> Ha1]]; [done|]. by rewrite Ha1. }
  match goal with
  | |- context [markComplete topic ?c practice a1] =>
      destruct (markComplete_fresh topic c u1 practice a1 Hu1')
        as (u2 & Hu2 & Hin2 & Hsub2 & Hv2);
      set (a2 := markComplete topic c practice a1) in *
  end.
  assert (App.user a2 = Some u2) as Hu2'.
  { destruct Hu2 as [Hu2|[-> Ha2]]; [done|]. by rewrite Ha2. }
  exists u2. split; [exact Hu2'|].
  split; [|split; [intros x Hx; by apply Hsub2, Hsub1|split; [congruence|done]]].
  unfold Dashboard.isTopicComplete.
  unfold sectionsSeen, userProgress in Hin2, Hsub2, Hin1. simpl in Hin2, Hsub2, Hin1.
  destruct (progress u2 !! id topic) as [tp|] eqn:Htp; simpl in *.
  - apply andb_true_intro. split; apply includes_true; [|done]. by apply Hsub2.
  - by apply elem_of_nil in Hin2.
Qed.

Lemma sequential_flow_completes_topic_witness :
  let s := run Samples.presentSimple
             (lessonThenPractice Samples.lessonPS Samples.practicePS)
             (mount Samples.inTopic) in
  App.user Samples.inTopic = Some Samples.learner ∧
  ∃ u', App.user (app s) = Some u' ∧
        Dashboard.isTopicComplete u' (id Samples.presentSimple) = true.
Proof.
  intros s. split; [reflexivity|].
  destruct (sequential_flow_completes_topic Samples.presentSimple Samples.inTopic
              Samples.learner Samples.lessonPS Samples.practicePS eq_refl)
    as (u' & Hu' & Hc & _).
  exists u'. split; [exact Hu'|exact Hc].
Defined.

(** *** Checking an answer *)

(** X21. Typing a non-blank answer for a task that has no feedback yet,
    pressing check and receiving the evaluation calls [checkUserAnswer]
    exactly once, shows the evaluation for that task, keeps the answer, and
    locks the task: further typing and further presses of its check button
    change nothing, and no request is left waiting. *)
Theorem answer_check_round_trip (topic : Topic) (s : Store) (index : nat) (task : TaskItem)
    (tasks : list TaskItem) (value feedback : string) (correct : bool) :
  tasksShown (view s) = Some tasks → tasks !! index = Some task →
  taskFeedback (view s) !! index = None → blank value = false →
  let s1 := step topic (TypeAnswer index value) s in
  let s2 := step topic (ClickCheckAnswer index) s1 in
  let s3 := step topic (CheckSettled (length (checkPending s)) (Ok (feedback, correct))) s2 in
  feedbackLoading (view s2) index = true ∧
  checkCalls s3 = S (checkCalls s) ∧ checkPending s3 = checkPending s ∧
  taskFeedback (view s3) !! index =
    Some {| text := feedback; loading := false; isCorrect := Some correct |} ∧
  userAnswers (view s3) !! index = Some value ∧
  (∀ other, step topic (TypeAnswer index other) s3 = s3) ∧
  step topic (ClickCheckAnswer index) s3 = s3 ∧
  app s3 = app s.
Proof.
  intros Htasks Htask Hnone Hblank s1 s2 s3.
  assert (value ≠ EmptyString) as Hne by (intros ->; done).
  assert (s1 = setView (setUserAnswers (λ prev, <[index := value]> prev)) s) as Hs1.
  { unfold s1. simpl. rewrite Htasks. simpl. rewrite Htask.
    unfold isChecked. by rewrite Hnone. }
  assert (tasksShown (view s1) = Some tasks) as Htasks1.
  { rewrite Hs1. exact Htasks. }
  assert (s2 = handleCheckAnswer (renderOf s1) index task s1) as Hs2.
  { unfold s2. simpl. unfold clickCheckAnswer. rewrite Htasks1. simpl. rewrite Htask.
    unfold checkDisabled, feedbackLoading, isChecked.
    rewrite Hs1. simpl. rewrite lookup_insert_eq, Hnone. simpl. by rewrite Hblank. }
  assert (s2 =
    {| view := setTaskFeedback
                 (λ prev, <[index := {| text := EmptyString; loading := true;
                                        isCorrect := None |}]> prev) (view s1);
       app := app s; lessonPending := lessonPending s;
       practicePending := practicePending s;
       checkPending := checkPending s ++ [(index, renderOf s1)];
       checkCalls := S (checkCalls s) |}) as Hs2'.
  { rewrite Hs2. unfold handleCheckAnswer. rewrite Hs1. simpl.
    rewrite lookup_insert_eq. apply String.eqb_neq in Hne. rewrite Hne, Hblank. done. }
  assert (s3 =
    {| view := setTaskFeedback
                 (λ prev, <[index := {| text := feedback; loading := false;
                                        isCorrect := Some correct |}]> prev) (view s2);
       app := app s; lessonPending := lessonPending s;
       practicePending := practicePending s;
       checkPending := checkPending s;
       checkCalls := S (checkCalls s) |}) as Hs3.
  { unfold s3. simpl. rewrite Hs2'. simpl.
    rewrite list_lookup_middle by done. simpl.
    unfold setView. simpl. f_equal.
    replace (checkPending s ++ [(index, renderOf s1)])
      with (checkPending s ++ (index, renderOf s1) :: []) by done.
    by rewrite delete_middle, app_nil_r. }
  assert (tasksShown (view s3) = Some tasks) as Htasks3.
  { rewrite Hs3, Hs2', Hs1. exact Htasks. }
  assert (taskFeedback (view s3) !! index =
            Some {| text := feedback; loading := false; isCorrect := Some correct |}) as Hfb.
  { rewrite Hs3. simpl. by rewrite lookup_insert_eq. }
  split; [rewrite Hs2'; unfold feedbackLoading; simpl; by rewrite lookup_insert_eq|].
  split; [by rewrite Hs3|]. split; [by rewrite Hs3|]. split; [exact Hfb|].
  split; [rewrite Hs3, Hs2', Hs1; simpl; by rewrite lookup_insert_eq|].
  split; [|split; [|by rewrite Hs3]].
  - intros other. simpl. rewrite Htasks3. simpl. rewrite Htask.
    unfold isChecked. by rewrite Hfb.
  - simpl. unfold clickCheckAnswer. rewrite Htasks3. simpl. rewrite Htask.
    unfold checkDisabled, isChecked. rewrite Hfb. simpl. by rewrite orb_true_r.
Qed.

Lemma answer_check_round_trip_witness :
  let s := run Samples.presentSimple Samples.completeTopic (mount Samples.inTopic) in
  let s3 := run Samples.presentSimple
              [TypeAnswer 0 "reads"; ClickCheckAnswer 0;
               CheckSettled 0 (Ok ("Jaraisyn!"%string, true))] s in
  tasksShown (view s) = Some (followUpTasks Samples.practicePS) ∧
  blank "reads" = false ∧
  checkCalls s3 = 1 ∧ step Samples.presentSimple (ClickCheckAnswer 0) s3 = s3.
Proof.
  intros s s3. split; [reflexivity|]. split; [reflexivity|].
  destruct (answer_check_round_trip Samples.presentSimple s 0
              {| instruction := "Complete the sentence:"; prompt := "Dana ... every day.";
                 suggestedAnswer := "reads" |}
              (followUpTasks Samples.practicePS) "reads" "Jaraisyn!" true
              eq_refl eq_refl eq_refl eq_refl) as (_ & Hcalls & _ & _ & _ & _ & Hlock & _).
  split; [exact Hcalls|exact Hlock].
Defined.

End TopicSessionFacts.

(* ===================================================================== *)
(** ** Theorems: services/geminiService.ts, the session cache *)
(* ===================================================================== *)

Module ServiceCacheFacts.
Import Service ServiceCache ServiceFacts.

Section Cache.
Context {Lesson Practice : Type} `{JSON Lesson} `{JSON Practice}.

Lemma getItem_cacheStore_ne {A} `{JSON A} (key key' : string) (a : A) (w : World) :
  key ≠ key' →
  getItem key (sessionStorage (cacheStore key' a w)) = getItem key (sessionStorage w).
Proof.
  intros Hne. unfold cacheStore, setItem, getItem.
  destruct (ss_quotaExceeded (sessionStorage w)); [done|]. simpl.
  by rewrite lookup_insert_ne.
Qed.

(** X22. A call to the service changes at most the cache entry under its own
    key: every other entry of the session storage reads as before, and an
    exam or answer-check request leaves the storage as it is.  The keys
    keep the entries apart: two lesson keys, or two practice keys, are
    equal only for the same level and the same topic id, and a lesson key
    is never a practice key. *)
Theorem cache_entries_are_isolated
    (q : Request (Lesson := Lesson) (Practice := Practice)) (w : World) :
  (∀ key, ownKey q ≠ Some key →
     getItem key (sessionStorage (perform w q)) = getItem key (sessionStorage w)) ∧
  (ownKey q = None → sessionStorage (perform w q) = sessionStorage w) ∧
  (∀ l t l' t',
     (lessonCacheKey l t = lessonCacheKey l' t' → l = l' ∧ id t = id t') ∧
     (practiceCacheKey l t = practiceCacheKey l' t' → l = l' ∧ id t = id t') ∧
     lessonCacheKey l t ≠ practiceCacheKey l' t').
Proof.
  split; [|split].
  - intros key Hkey. destruct q as [l t r|l t r|r|v f]; simpl in *.
    + unfold generateLessonContent.
      destruct (cacheLookup (lessonCacheKey l t) w); [done|].
      destruct r; simpl; [|done]. rewrite getItem_cacheStore_ne; [done|congruence].
    + unfold generateComprehensivePractice.
      destruct (cacheLookup (practiceCacheKey l t) w); [done|].
      destruct r; simpl; [|done]. rewrite getItem_cacheStore_ne; [done|congruence].
    + unfold generateExam. by destruct r.
    + unfold checkUserAnswer. destruct v; [|done]. by destruct f.
  - destruct q as [l t r|l t r|r|v f]; simpl; try done.
    + intros _. unfold generateExam. by destruct r.
    + intros _. unfold checkUserAnswer. destruct v; [|done]. by destruct f.
  - intros l t l' t'. split; [apply lessonCacheKey_inj|].
    split; [apply practiceCacheKey_inj|apply lesson_practice_key_ne].
Qed.

(** X23. A generation that fails caches nothing: after a failed lesson (or
    practice) fetch on a cache miss the session storage is as it was and one
    request has been counted, and a retry goes to the generator again and
    returns what the generator sends. *)
Theorem failed_generation_caches_nothing (level : Level) (topic : Topic) (w : World) :
  (cacheLookup (A := Lesson) (lessonCacheKey level topic) w = None →
   let r := generateLessonContent (Lesson := Lesson) level topic None w in
   (∃ message, r.1 = Err message) ∧
   sessionStorage r.2 = sessionStorage w ∧ generatorCalls r.2 = S (generatorCalls w) ∧
   ∀ content : Lesson,
     let r' := generateLessonContent (Lesson := Lesson) level topic (Some content) r.2 in
     r'.1 = Ok content ∧ generatorCalls r'.2 = S (S (generatorCalls w))) ∧
  (cacheLookup (A := Practice) (practiceCacheKey level topic) w = None →
   let r := generateComprehensivePractice (Practice := Practice) level topic None w in
   (∃ message, r.1 = Err message) ∧
   sessionStorage r.2 = sessionStorage w ∧ generatorCalls r.2 = S (generatorCalls w) ∧
   ∀ content : Practice,
     let r' := generateComprehensivePractice (Practice := Practice) level topic
                 (Some content) r.2 in
     r'.1 = Ok content ∧ generatorCalls r'.2 = S (S (generatorCalls w))).
Proof.
  split; intros Hmiss.
  - unfold generateLessonContent. rewrite Hmiss. simpl.
    split; [by eexists|]. split; [done|]. split; [done|].
    intros content.
    assert (cacheLookup (A := Lesson) (lessonCacheKey level topic) (countCall w) = None)
      as -> by exact Hmiss.
    simpl. split; [done|]. unfold cacheStore, setItem. simpl.
    by destruct (ss_quotaExceeded (sessionStorage w)).
  - unfold generateComprehensivePractice. rewrite Hmiss. simpl.
    split; [by eexists|]. split; [done|]. split; [done|].
    intros content.
    assert (cacheLookup (A := Practice) (practiceCacheKey level topic) (countCall w) = None)
      as -> by exact Hmiss.
    simpl. split; [done|]. unfold cacheStore, setItem. simpl.
    by destruct (ss_quotaExceeded (sessionStorage w)).
Qed.

End Cache.

Lemma cache_entries_are_isolated_witness :
  let q := LessonRequest (Lesson := bool) (Practice := bool) A1 Samples.presentSimple
             (Some true) in
  let w := perform Samples.emptyStorage q in
  getItem (lessonCacheKey A1 Samples.presentSimple) (sessionStorage w) = Some "true"%string ∧
  getItem (lessonCacheKey A2 Samples.presentSimple) (sessionStorage w) = None ∧
  getItem (practiceCacheKey A1 Samples.presentSimple) (sessionStorage w) = None.
Proof.
  intros q w. split; [reflexivity|].
  destruct (cache_entries_are_isolated q Samples.emptyStorage) as [Hother _].
  split.
  - exact (Hother (lessonCacheKey A2 Samples.presentSimple) ltac:(discriminate)).
  - exact (Hother (practiceCacheKey A1 Samples.presentSimple) ltac:(discriminate)).
Defined.

Lemma failed_generation_caches_nothing_witness :
  let r := generateLessonContent (Lesson := bool) A1 Samples.presentSimple None
             Samples.emptyStorage in
  cacheLookup (A := bool) (lessonCacheKey A1 Samples.presentSimple) Samples.emptyStorage
    = None ∧
  sessionStorage r.2 = sessionStorage Samples.emptyStorage ∧
  (generateLessonContent A1 Samples.presentSimple (Some true) r.2).1 = Ok true.
Proof.
  intros r. split; [reflexivity|].
  destruct (failed_generation_caches_nothing (Lesson := bool) (Practice := bool)
              A1 Samples.presentSimple Samples.emptyStorage) as [Hlesson _].
  destruct (Hlesson eq_refl) as (_ & Hss & _ & Hretry).
  split; [exact Hss|exact (proj1 (Hretry true))].
Defined.

End ServiceCacheFacts.

(* ===================================================================== *)
(** ** Theorems: App.tsx, the handlers as the views call them *)
(* ===================================================================== *)

Module AppSessionFacts.
Import App AppSession AppShellFacts.

Lemma step_kept (btoa atob : string → string) (st : State) (ev : Event) (u : User) :
  inSession ev = true → user st = Some u →
  match ev with
  | Continuation (Some c) _ _ => default [] (examHistory c) = historyOf st
  | _ => True
  end →
  is_Some (user (step btoa atob st ev)) ∧
  historyOf (step btoa atob st ev) =
    historyOf st ++ from_option (λ r, [r]) [] (savedResult ev).
Proof.
  intros Hin Hu Hfresh. destruct ev as [e|[c|] topicId p]; simpl in *.
  - destruct (step_inSession_name btoa atob st e u Hin Hu) as (u' & Hu' & _).
    split; [by eexists|]. by apply (step_saved btoa atob st e u).
  - split; [by eexists|]. unfold historyOf at 1. simpl. by rewrite app_nil_r.
  - split; [by eexists|]. by rewrite app_nil_r.
Qed.

Lemma run_kept (btoa atob : string → string) (trace : list Event) :
  ∀ st u, user st = Some u → Forall (λ ev, inSession ev = true) trace →
    UpToDate btoa atob st trace →
    is_Some (user (run btoa atob st trace)) ∧
    historyOf (run btoa atob st trace) = historyOf st ++ omap savedResult trace.
Proof.
  induction trace as [|ev rest IH]; intros st u Hu Hall Hfresh.
  - simpl. split; [by eexists|]. by rewrite app_nil_r.
  - apply Forall_cons in Hall as [Hin Hall]. destruct Hfresh as [Hev Hfresh].
    destruct (step_kept btoa atob st ev u Hin Hu Hev) as [[u1 Hu1] Hh1].
    destruct (IH (step btoa atob st ev) u1 Hu1 Hall Hfresh) as [Hsome Hh].
    split; [exact Hsome|].
    change (run btoa atob st (ev :: rest)) with (run btoa atob (step btoa atob st ev) rest).
    rewrite Hh, Hh1, <- (assoc_L (++)). f_equal. simpl. by destruct (savedResult ev).
Qed.

(** X4. While a user stays logged in, and as long as every fetch
    continuation that settles was issued after the last exam result was
    saved, the exam history only grows at its end: after any level changes,
    progress updates, navigation and saved results it is the history from
    before followed by exactly the saved results, in the order they were
    saved.  A continuation always leaves the history its render had
    captured, so one that was issued before a result was saved takes that
    result away again. *)
Theorem exam_history_append_only (btoa atob : string → string) (st : State)
    (trace : list Event) (u : User) :
  user st = Some u → Forall (λ ev, inSession ev = true) trace →
  UpToDate btoa atob st trace →
  historyOf (run btoa atob st trace) = historyOf st ++ omap savedResult trace ∧
  (∀ c topicId p,
     historyOf (step btoa atob (run btoa atob st trace) (Continuation (Some c) topicId p))
       = default [] (examHistory c)).
Proof.
  intros Hu Hall Hfresh. split; [by apply (run_kept btoa atob trace st u)|done].
Qed.

Lemma exam_history_append_only_witness :
  let st := run MoreSamples.scramble MoreSamples.scramble Samples.backOnDashboard
              lateLesson in
  let lost := run MoreSamples.scramble MoreSamples.scramble Samples.backOnDashboard
                lateLessonAfterExam in
  user Samples.backOnDashboard = Some Samples.veteran ∧
  UpToDate MoreSamples.scramble MoreSamples.scramble Samples.backOnDashboard lateLesson ∧
  historyOf st =
    [ {| date := "2026-01-01T10:00:20.000Z"; score := 1; total := 2 |};
      {| date := "2026-02-01T09:30:00.000Z"; score := 20; total := 25 |} ] ∧
  historyOf lost = [ {| date := "2026-01-01T10:00:20.000Z"; score := 1; total := 2 |} ].
Proof.
  intros st lost.
  assert (Forall (λ ev, inSession ev = true) lateLesson) as Hall.
  { repeat constructor. }
  assert (UpToDate MoreSamples.scramble MoreSamples.scramble Samples.backOnDashboard
            lateLesson) as Hfresh.
  { simpl. repeat split. }
  split; [reflexivity|]. split; [exact Hfresh|]. split; [|reflexivity].
  exact (proj1 (exam_history_append_only MoreSamples.scramble MoreSamples.scramble
                  Samples.backOnDashboard lateLesson Samples.veteran eq_refl Hall Hfresh)).
Defined.

End AppSessionFacts.

(* ===================================================================== *)
(** ** Theorems: components/AccountView.tsx *)
(* ===================================================================== *)

Module AccountFacts.
Import App AppSession AccountView AppSessionFacts.

Lemma examHistoryShown_reverse (u : User) :
  default [] (examHistoryShown u) = reverse (default [] (examHistory u)).
Proof.
  unfold examHistoryShown. destruct (examHistory u) as [[|r h]|]; done.
Qed.

(** X24. The account view lists exam results newest first: after any stretch
    of a logged-in session in which every fetch continuation that settles
    was issued after the last exam result was saved, it lists the results
    saved in that stretch, the last saved on top, followed by the results it
    listed before, in the order it listed them. *)
Theorem newest_exam_first (btoa atob : string → string) (st : State)
    (trace : list Event) (u u' : User) :
  user st = Some u → Forall (λ ev, inSession ev = true) trace →
  UpToDate btoa atob st trace →
  user (run btoa atob st trace) = Some u' →
  default [] (examHistoryShown u') =
    reverse (omap savedResult trace) ++ default [] (examHistoryShown u).
Proof.
  intros Hu Hall Hfresh Hu'. rewrite !examHistoryShown_reverse, <- reverse_app.
  destruct (run_kept btoa atob trace st u Hu Hall Hfresh) as [_ Hsaved].
  unfold historyOf in Hsaved. rewrite Hu, Hu' in Hsaved. by rewrite Hsaved.
Qed.

Lemma newest_exam_first_witness :
  user Samples.backOnDashboard = Some Samples.veteran ∧
  UpToDate MoreSamples.scramble MoreSamples.scramble Samples.backOnDashboard lateLesson ∧
  ∃ u', user (run MoreSamples.scramble MoreSamples.scramble Samples.backOnDashboard
                lateLesson) = Some u' ∧
        examHistoryShown u' =
          Some [ {| date := "2026-02-01T09:30:00.000Z"; score := 20; total := 25 |};
                 {| date := "2026-01-01T10:00:20.000Z"; score := 1; total := 2 |} ].
Proof.
  assert (Forall (λ ev, inSession ev = true) lateLesson) as Hall.
  { repeat constructor. }
  assert (UpToDate MoreSamples.scramble MoreSamples.scramble Samples.backOnDashboard
            lateLesson) as Hfresh.
  { simpl. repeat split. }
  split; [reflexivity|]. split; [exact Hfresh|]. eexists. split; [reflexivity|].
  pose proof (newest_exam_first MoreSamples.scramble MoreSamples.scramble
                Samples.backOnDashboard lateLesson Samples.veteran _
                eq_refl Hall Hfresh eq_refl) as Hshown.
  vm_compute in Hshown. vm_compute. by f_equal.
Defined.

End AccountFacts.
